(** * jscd48: the calibration, validation and measurement code of the CD48
      coincidence-counter driver, embedded in Rocq.

    Source files embedded here:
    - [src/validation.ts]   (module [Validation])
    - [calibration.js]      (modules [Calibration] and [Coincidence])
    - [tests/mock-cd48.ts]  (module [Mock])
    The response parser of cd48.js is not among the sources; module [Parser]
    follows the specification.

    A JavaScript [number] is an IEEE-754 binary64 value.  The numeric code is
    written once against the interface [JS.Number] and read at two instances:
    [float] (Rocq's primitive binary64 floats: what the engine computes, bit
    for bit, with NaN, infinities and signed zeros) and [Q] (exact rational
    arithmetic, for the algebraic statements). *)

From Stdlib Require Import ZArith QArith Qround Qminmax Qabs Qpower Floats.
From Stdlib Require Import Ascii String DecimalString List Bool Lia Lqa Sorted.
From stdpp Require Import base gmap.
Import ListNotations.

(* ===================================================================== *)
(** * The JavaScript runtime the code relies on *)
(* ===================================================================== *)

Module JS.

(** Completion of a call: a returned value or a thrown exception. *)
Inductive result (E A : Type) : Type :=
| Returns (a : A)
| Throws (e : E).
Arguments Returns {E A} a.
Arguments Throws {E A} e.

Definition bind {E A B} (r : result E A) (k : A -> result E B) : result E B :=
  match r with
  | Returns a => k a
  | Throws e => Throws e
  end.

(** Values that reach a validator: the code tests [typeof x !== 'number']. *)
Inductive jsval (num : Type) : Type :=
| JNumber (n : num)
| JString (s : string)
| JBoolean (b : bool)
| JNull
| JUndefined.
Arguments JNumber {num} n.
Arguments JString {num} s.
Arguments JBoolean {num} b.
Arguments JNull {num}.
Arguments JUndefined {num}.

(** Exceptions the embedded code throws: [new Error(message)] and
    [new ValidationError(param, value, expected)]. *)
Inductive error (num : Type) : Type :=
| Error (message : string)
| ValidationError (param : string) (value : jsval num) (expected : string).
Arguments Error {num} message.
Arguments ValidationError {num} param value expected.

(** Arithmetic, comparison and [Math] functions on [number]. *)
Class Number (num : Type) : Type := {
  lit : Z -> positive -> num;          (* the decimal literal n/d *)
  num_add : num -> num -> num;
  num_sub : num -> num -> num;
  num_mul : num -> num -> num;
  num_div : num -> num -> num;
  num_ltb : num -> num -> bool;        (* a < b *)
  num_eqb : num -> num -> bool;        (* a === b *)
  isNaN : num -> bool;
  Math_max : num -> num -> num;
  Math_min : num -> num -> num;
  Math_round : num -> num;
}.

Declare Scope js_scope.
Delimit Scope js_scope with js.
Infix "+" := num_add : js_scope.
Infix "-" := num_sub : js_scope.
Infix "*" := num_mul : js_scope.
Infix "/" := num_div : js_scope.
Infix "<?" := num_ltb : js_scope.
Infix "=?" := num_eqb : js_scope.
Notation "a >? b" := (num_ltb b a) (at level 70) : js_scope.

Section Derived.
Context {num : Type} `{Number num}.

Definition int (z : Z) : num := lit z 1.

(** ToBoolean on a number: [0], [-0] and [NaN] are falsy. *)
Definition truthy (x : num) : bool := negb (isNaN x || (x =? int 0)%js).

(** [o || d] where [o] is a property that may be missing ([undefined]). *)
Definition or_else (o : option num) (d : num) : num :=
  match o with
  | Some x => if truthy x then x else d
  | None => d
  end.

(** [o ?? d]. *)
Definition nullish (o : option num) (d : num) : num :=
  match o with
  | Some x => x
  | None => d
  end.
End Derived.

(** ** Instance: binary64 *)

(** The double nearest to the integer [z]. *)
Definition f64_of_Z (z : Z) : float :=
  SF2Prim (binary_normalize prec emax z 0 false).

(** [Math.max]: NaN if an argument is NaN, and [+0] is larger than [-0]. *)
Definition f64_max (a b : float) : float :=
  if is_nan a || is_nan b then nan
  else if (a <? b)%float then b
  else if (b <? a)%float then a
  else if get_sign a then b else a.

(** [Math.min]: NaN if an argument is NaN, and [-0] is smaller than [+0]. *)
Definition f64_min (a b : float) : float :=
  if is_nan a || is_nan b then nan
  else if (a <? b)%float then a
  else if (b <? a)%float then b
  else if get_sign a then a else b.

(** [Math.round]: the integer nearest to [x], ties towards +infinity, computed
    exactly; NaN, infinities, zeros and integral values are returned as they
    are, and a result of zero keeps the sign of [x]. *)
Definition f64_round (x : float) : float :=
  match Prim2SF x with
  | S754_finite s m e =>
      if (0 <=? e)%Z then x
      else
        let d := (2 ^ (- e))%Z in
        let n := ((2 * cond_Zopp s (Z.pos m) + d) / (2 * d))%Z in
        if (n =? 0)%Z then (if s then (-0)%float else 0%float) else f64_of_Z n
  | _ => x
  end.

(** The rational number a double stands for (0 for NaN and the infinities,
    which stand for none). *)
Definition SF2Q (x : spec_float) : Q :=
  match x with
  | S754_finite s m e =>
      ((if s then -1 else 1) * inject_Z (Z.pos m) * (2 # 1) ^ e)%Q
  | _ => 0%Q
  end.

Definition f64_value (x : float) : Q := SF2Q (Prim2SF x).

#[export] Instance float64 : Number float := {
  lit n d := PrimFloat.div (f64_of_Z n) (f64_of_Z (Z.pos d));
  num_add := PrimFloat.add;
  num_sub := PrimFloat.sub;
  num_mul := PrimFloat.mul;
  num_div := PrimFloat.div;
  num_ltb := PrimFloat.ltb;
  num_eqb := PrimFloat.eqb;
  isNaN := is_nan;
  Math_max := f64_max;
  Math_min := f64_min;
  Math_round := f64_round;
}.

(** ** Instance: exact rationals (no NaN, no rounding) *)

#[export] Instance exact : Number Q := {
  lit n d := Qmake n d;
  num_add := Qplus;
  num_sub := Qminus;
  num_mul := Qmult;
  num_div := Qdiv;
  num_ltb a b := negb (Qle_bool b a);
  num_eqb := Qeq_bool;
  isNaN _ := false;
  Math_max := Qmax;
  Math_min := Qmin;
  Math_round q := inject_Z (Qfloor (q + (1 # 2)));
}.


(** ** More of the language, derived from the interface *)

Section Comparison.
Context {num : Type} `{Number num}.

(** [a <= b]: true when [b < a] is false and none of the two is NaN. *)
Definition num_leb (a b : num) : bool :=
  negb (isNaN a || isNaN b) && negb (num_ltb b a).

(** [NaN], the number that [undefined] becomes in arithmetic, written 0/0.
    (The exact instance has no NaN: what is read there keeps every index in
    range and every denominator away from zero.) *)
Definition NaN : num := num_div (int 0) (int 0).

(** [a[i]] inside an arithmetic expression. *)
Definition at_index (a : list num) (i : nat) : num :=
  match nth_error a i with
  | Some x => x
  | None => NaN
  end.
End Comparison.

Infix "<=?" := num_leb : js_scope.

(** [Math.sqrt] on binary64: the correctly rounded square root. *)
Definition f64_sqrt : float -> float := PrimFloat.sqrt.

(** [Math.abs] on binary64. *)
Definition f64_abs : float -> float := PrimFloat.abs.

(** [Math.max(...a)] and [Math.min(...a)] of an array that is not empty:
    the fold of the binary function from the first element on. *)
Definition Math_max_of {num} `{Number num} (first : num) (rest : list num) : num :=
  fold_left Math_max rest first.

Definition Math_min_of {num} `{Number num} (first : num) (rest : list num) : num :=
  fold_left Math_min rest first.


(** [a.reduce((acc, x, i) => f(acc, x, i), init)] *)
Fixpoint reduce_from {A B : Type} (f : B -> A -> nat -> B) (i : nat) (a : list A)
    (acc : B) : B :=
  match a with
  | [] => acc
  | x :: a' => reduce_from f (S i) a' (f acc x i)
  end.

Definition reduce {A B : Type} (f : B -> A -> nat -> B) (init : B) (a : list A) : B :=
  reduce_from f 0 a init.

(** [Math.pow], which the language leaves to the implementation to
    approximate: binary64 code that calls it is read at every [Power float].
    In exact arithmetic it is the power itself, for the whole exponents (the
    code raises to the power 2 only). *)
Class Power (num : Type) : Type := { Math_pow : num -> num -> num }.

#[export] Instance exact_power : Power Q := {
  Math_pow b e := Qpower b (Qfloor e);
}.


(** [Math.floor(x)] where the code uses it, as an array index: the whole
    number, or [None] where the floor is NaN or an infinity, which is no
    index. *)
Class Floor (num : Type) : Type := { Math_floor : num -> option Z }.

Definition f64_floor (x : float) : option Z :=
  match Prim2SF x with
  | S754_zero _ => Some 0%Z
  | S754_finite s m e =>
      Some (if (0 <=? e)%Z then cond_Zopp s (Z.pos m) * 2 ^ e
            else cond_Zopp s (Z.pos m) / 2 ^ (- e))%Z
  | _ => None
  end.

#[export] Instance float64_floor : Floor float := { Math_floor := f64_floor }.

End JS.

Import JS.

(* ===================================================================== *)
(** * src/validation.ts *)
(* ===================================================================== *)

Module Validation.
Section Validation.
Context {num : Type} `{Number num}.
Local Open Scope js_scope.

Definition VOLTAGE_MIN : num := lit 0 1.      (* 0.0 *)
Definition VOLTAGE_MAX : num := lit 408 100.  (* 4.08 *)
Definition BYTE_MIN : num := int 0.
Definition BYTE_MAX : num := int 255.

(** [validateByte]: returns nothing, or throws [ValidationError]. *)
Definition validateByte (byte : jsval num) : result (error num) unit :=
  match byte with
  | JNumber b =>
      if isNaN b then
        Throws (ValidationError "byte" byte "must be a number between 0 and 255")
      else if (b <? BYTE_MIN) || (b >? BYTE_MAX) then
        Throws (ValidationError "byte" byte "0-255")
      else Returns tt
  | _ => Throws (ValidationError "byte" byte "must be a number between 0 and 255")
  end.

Definition clamp (value min max : num) : num :=
  Math_max min (Math_min max value).

Definition clampVoltage (voltage : num) : num :=
  clamp voltage VOLTAGE_MIN VOLTAGE_MAX.

(** [voltageToByte] has no [throw] and calls no validator. *)
Definition voltageToByte (voltage : num) : result (error num) num :=
  let clamped := clampVoltage voltage in
  Returns (Math_round ((clamped / VOLTAGE_MAX) * BYTE_MAX)).

(** [byteToVoltage]: the arithmetic runs only once [validateByte] has
    returned, which it does for numbers only. *)
Definition byteToVoltage (byte : jsval num) : result (error num) num :=
  bind (validateByte byte) (fun _ =>
    match byte with
    | JNumber b => Returns ((b / BYTE_MAX) * VOLTAGE_MAX)
    | _ => Throws (ValidationError "byte" byte "must be a number between 0 and 255")
    end).

Definition CHANNEL_MIN : num := int 0.
Definition CHANNEL_MAX : num := int 7.
Definition REPEAT_INTERVAL_MIN : num := int 100.
Definition REPEAT_INTERVAL_MAX : num := int 65535.

(** What the validators throw: [ValidationError], or one of the two errors
    that errors.js builds from the rejected value alone. *)
Inductive exception : Type :=
| Invalid (e : error num)
| InvalidChannelError (channel : num)
| InvalidVoltageError (voltage : num).

Definition validateChannel (channel : jsval num) : result exception unit :=
  match channel with
  | JNumber c =>
      if isNaN c then
        Throws (Invalid
                  (ValidationError "channel" channel "must be a number between 0 and 7"))
      else if (c <? CHANNEL_MIN) || (c >? CHANNEL_MAX) then
        Throws (InvalidChannelError c)
      else Returns tt
  | _ => Throws (Invalid
                   (ValidationError "channel" channel "must be a number between 0 and 7"))
  end.

Definition validateVoltage (voltage : jsval num) : result exception unit :=
  match voltage with
  | JNumber v =>
      if isNaN v then
        Throws (Invalid
                  (ValidationError "voltage" voltage "must be a number between 0.0 and 4.08"))
      else if (v <? VOLTAGE_MIN) || (v >? VOLTAGE_MAX) then
        Throws (InvalidVoltageError v)
      else Returns tt
  | _ => Throws (Invalid
                   (ValidationError "voltage" voltage "must be a number between 0.0 and 4.08"))
  end.

Definition validateRepeatInterval (interval : jsval num) : result (error num) unit :=
  match interval with
  | JNumber i =>
      if isNaN i then
        Throws (ValidationError "repeat_interval" interval
                  "must be a number between 100 and 65535")
      else if (i <? REPEAT_INTERVAL_MIN) || (i >? REPEAT_INTERVAL_MAX) then
        Throws (ValidationError "repeat_interval" interval "100-65535 ms")
      else Returns tt
  | _ => Throws (ValidationError "repeat_interval" interval
                   "must be a number between 100 and 65535")
  end.

Definition validateDuration (duration : jsval num) : result (error num) unit :=
  match duration with
  | JNumber d =>
      if isNaN d then
        Throws (ValidationError "duration" duration "must be a positive number")
      else if d <=? int 0 then
        Throws (ValidationError "duration" duration "must be greater than 0")
      else Returns tt
  | _ => Throws (ValidationError "duration" duration "must be a positive number")
  end.

(** [validateBoolean]: [typeof value !== 'boolean']. *)
Definition validateBoolean (paramName : string) (value : jsval num)
  : result (error num) unit :=
  match value with
  | JBoolean _ => Returns tt
  | _ => Throws (ValidationError paramName value "must be true or false")
  end.

Definition clampRepeatInterval (interval : num) : num :=
  clamp interval REPEAT_INTERVAL_MIN REPEAT_INTERVAL_MAX.
End Validation.
Arguments Invalid {num} e.
Arguments InvalidChannelError {num} channel.
Arguments InvalidVoltageError {num} voltage.
End Validation.

(* ===================================================================== *)
(** * calibration.js: CalibrationProfile and VoltageCalibration *)
(* ===================================================================== *)

Module Calibration.
Section Calibration.
Context {num : Type} `{Number num}.
Local Open Scope js_scope.

(** [CalibrationProfile]: the per-channel tables are JavaScript objects
    used as maps from the channel number to the stored value.  ([date] and
    the free-form [metadata] are not read by the methods below.) *)
Record CalibrationProfile : Type := {
  name : string;
  description : string;
  voltages : gmap Z num;
  thresholds : gmap Z num;
  gains : gmap Z num;
  offsets : gmap Z num;
}.

(** [new CalibrationProfile(options)]: [options.name || 'Untitled Profile'],
    [options.description || ''], empty tables.  A missing or empty string is
    falsy. *)
Definition constructor (options_name options_description : option string)
  : CalibrationProfile :=
  {| name := match options_name with
             | Some s => if String.eqb s "" then "Untitled Profile" else s
             | None => "Untitled Profile"
             end;
     description := match options_description with
                    | Some s => s
                    | None => ""
                    end;
     voltages := ∅; thresholds := ∅; gains := ∅; offsets := ∅ |}.

(** [channel < 0 || channel > 7], the guard of every setter. *)
Definition channel_out_of_range (channel : Z) : bool :=
  (channel <? 0)%Z || (7 <? channel)%Z.

Definition setVoltage (this : CalibrationProfile) (channel : Z) (voltage : num)
  : result (error num) CalibrationProfile :=
  if channel_out_of_range channel then
    Throws (Error "Channel must be between 0 and 7")
  else
    Returns {| name := name this; description := description this;
               voltages := <[channel := voltage]> (voltages this);
               thresholds := thresholds this;
               gains := gains this; offsets := offsets this |}.

Definition getVoltage (this : CalibrationProfile) (channel : Z) : option num :=
  match voltages this !! channel with
  | Some v => if truthy v then Some v else None
  | None => None
  end.

Definition setThreshold (this : CalibrationProfile) (channel : Z) (threshold : num)
  : result (error num) CalibrationProfile :=
  if channel_out_of_range channel then
    Throws (Error "Channel must be between 0 and 7")
  else
    Returns {| name := name this; description := description this;
               voltages := voltages this;
               thresholds := <[channel := threshold]> (thresholds this);
               gains := gains this; offsets := offsets this |}.

Definition getThreshold (this : CalibrationProfile) (channel : Z) : option num :=
  match thresholds this !! channel with
  | Some t => if truthy t then Some t else None
  | None => None
  end.

Definition setGain (this : CalibrationProfile) (channel : Z) (gain : num)
  : result (error num) CalibrationProfile :=
  if channel_out_of_range channel then
    Throws (Error "Channel must be between 0 and 7")
  else
    Returns {| name := name this; description := description this;
               voltages := voltages this; thresholds := thresholds this;
               gains := <[channel := gain]> (gains this);
               offsets := offsets this |}.

(** [return this.gains[channel] || null]: [None] is [null]. *)
Definition getGain (this : CalibrationProfile) (channel : Z) : option num :=
  match gains this !! channel with
  | Some g => if truthy g then Some g else None
  | None => None
  end.

Definition setOffset (this : CalibrationProfile) (channel : Z) (offset : num)
  : result (error num) CalibrationProfile :=
  if channel_out_of_range channel then
    Throws (Error "Channel must be between 0 and 7")
  else
    Returns {| name := name this; description := description this;
               voltages := voltages this; thresholds := thresholds this;
               gains := gains this;
               offsets := <[channel := offset]> (offsets this) |}.

Definition getOffset (this : CalibrationProfile) (channel : Z) : option num :=
  match offsets this !! channel with
  | Some o => if truthy o then Some o else None
  | None => None
  end.

Definition applyCounts (this : CalibrationProfile) (channel : Z) (rawCount : num) : num :=
  let gain := or_else (gains this !! channel) (int 1) in
  let offset := or_else (offsets this !! channel) (int 0) in
  rawCount * gain + offset.

(** [VoltageCalibration] *)
Record Point : Type := { raw : num; actual : num }.
Record Coefficients : Type := { gain : num; offset : num }.

(** [twoPoint] has no [throw]. *)
Definition twoPoint (point1 point2 : Point) : result (error num) Coefficients :=
  let gain := (actual point2 - actual point1) / (raw point2 - raw point1) in
  let offset := actual point1 - gain * raw point1 in
  Returns {| gain := gain; offset := offset |}.

Record Sums : Type := { sumX : num; sumY : num; sumXY : num; sumXX : num }.

(** The body of [points.forEach]. *)
Definition accumulate (s : Sums) (point : Point) : Sums :=
  {| sumX := sumX s + raw point;
     sumY := sumY s + actual point;
     sumXY := sumXY s + raw point * actual point;
     sumXX := sumXX s + raw point * raw point |}.

Definition multiPoint (points : list Point) : result (error num) Coefficients :=
  if (length points <? 2)%nat then
    Throws (Error "At least 2 calibration points required")
  else
    let n := int (Z.of_nat (length points)) in
    let s := fold_left accumulate points
               {| sumX := int 0; sumY := int 0; sumXY := int 0; sumXX := int 0 |} in
    let gain := (n * sumXY s - sumX s * sumY s) / (n * sumXX s - sumX s * sumX s) in
    let offset := (sumY s - gain * sumX s) / n in
    Returns {| gain := gain; offset := offset |}.

(** [VoltageCalibration.apply] *)
Definition apply (raw gain offset : num) : num := raw * gain + offset.
End Calibration.
Arguments CalibrationProfile num : clear implicits.
Arguments Point num : clear implicits.
Arguments Coefficients num : clear implicits.
Arguments Sums num : clear implicits.
End Calibration.

(* ===================================================================== *)
(** * calibration.js, analysis part: Coincidence *)
(* ===================================================================== *)

Module Coincidence.
Section Coincidence.
Context {num : Type} `{Number num}.
Local Open Scope js_scope.

Definition accidentalRate (rate1 rate2 coincidenceWindow : num) : num :=
  int 2 * rate1 * rate2 * coincidenceWindow.

Definition trueRate (measuredRate rate1 rate2 coincidenceWindow : num) : num :=
  let accidental := accidentalRate rate1 rate2 coincidenceWindow in
  Math_max (int 0) (measuredRate - accidental).
End Coincidence.

(** [signalToNoise], on binary64 ([Infinity] has no exact counterpart). *)
Definition signalToNoise (trueRate accidentalRate : float) : float :=
  if (accidentalRate =? 0)%float then infinity
  else (trueRate / accidentalRate)%float.
End Coincidence.

(* ===================================================================== *)
(** * calibration.js, analysis part: Statistics and TimeSeries *)
(* ===================================================================== *)

Module Statistics.
Section Statistics.
Context {num : Type} `{Number num} `{Power num}.
Local Open Scope js_scope.

(** [mean]: a missing array takes the branch of the empty one. *)
Definition mean (data : list num) : num :=
  if (length data =? 0)%nat then int 0
  else fold_left num_add data (int 0) / int (Z.of_nat (length data)).

Record Regression : Type := { slope : num; intercept : num; r2 : num }.

Definition linearRegression (x y : list num) : Regression :=
  if negb (length x =? length y)%nat || (length x =? 0)%nat then
    {| slope := int 0; intercept := int 0; r2 := int 0 |}
  else
    let n := int (Z.of_nat (length x)) in
    let sumX := fold_left num_add x (int 0) in
    let sumY := fold_left num_add y (int 0) in
    let sumXY := reduce (fun sum xi i => sum + xi * at_index y i) (int 0) x in
    let sumXX := fold_left (fun sum xi => sum + xi * xi) x (int 0) in
    let sumYY := fold_left (fun sum yi => sum + yi * yi) y (int 0) in
    let slope := (n * sumXY - sumX * sumY) / (n * sumXX - sumX * sumX) in
    let intercept := (sumY - slope * sumX) / n in
    let yMean := sumY / n in
    let ssTotal := sumYY - n * yMean * yMean in
    let ssResidual :=
      reduce (fun sum yi i =>
                let predicted := slope * at_index x i + intercept in
                sum + Math_pow (yi - predicted) (int 2))
             (int 0) y in
    let r2 := int 1 - ssResidual / ssTotal in
    {| slope := slope; intercept := intercept; r2 := r2 |}.
End Statistics.
Arguments Regression num : clear implicits.

(** The functions that take a square root, on binary64. *)
Section Binary64.
Context `{Power float}.
Local Open Scope float_scope.

(** [standardDeviation(data, sample = true)] *)
Definition standardDeviation (data : list float) (sample : option bool) : float :=
  let sample := match sample with Some b => b | None => true end in
  if (length data =? 0)%nat then 0
  else
    let avg := mean data in
    let squareDiffs := map (fun value => Math_pow (value - avg) 2) data in
    let avgSquareDiff :=
      fold_left PrimFloat.add squareDiffs 0 /
      (if sample then int (Z.of_nat (length data) - 1)
       else int (Z.of_nat (length data))) in
    f64_sqrt avgSquareDiff.

Definition variance (data : list float) (sample : option bool) : float :=
  let std := standardDeviation data sample in
  std * std.

Definition poissonUncertainty (count : float) : float :=
  f64_sqrt (Math_max 0 count).

Definition zScore (count1 count2 : float) : float :=
  let uncertainty := f64_sqrt (count1 + count2) in
  if uncertainty =? 0 then 0
  else f64_abs (count1 - count2) / uncertainty.
End Binary64.
End Statistics.

Module TimeSeries.
Section TimeSeries.
Context {num : Type} `{Number num}.
Local Open Scope js_scope.

(** [a.slice(start, end)] for indices that are not negative. *)
Definition slice {A : Type} (a : list A) (start end_ : nat) : list A :=
  firstn (end_ - start) (skipn start a).

(** [movingAverage] for a whole [window]: [Math.floor(window / 2)] is
    [window / 2] and [Math.ceil(window / 2)] is [(window + 1) / 2]. *)
Definition movingAverage (data : list num) (window : Z) : list num :=
  if (length data =? 0)%nat || (window <? 1)%Z then []
  else
    map (fun i : nat =>
           let start := Z.max 0 (Z.of_nat i - window / 2) in
           let end_ := Z.min (Z.of_nat (length data)) (Z.of_nat i + (window + 1) / 2) in
           let slice := slice data (Z.to_nat start) (Z.to_nat end_) in
           Statistics.mean slice)
        (seq 0 (length data)).

(** The loop of [exponentialMovingAverage] from index i on; [previous] is
    [result[i - 1]]. *)
Fixpoint exponentialMovingAverage_from (alpha previous : num) (data : list num)
  : list num :=
  match data with
  | [] => []
  | d :: data' =>
      let r := alpha * d + (int 1 - alpha) * previous in
      r :: exponentialMovingAverage_from alpha r data'
  end.

(** [exponentialMovingAverage(data, alpha = 0.3)] *)
Definition exponentialMovingAverage (data : list num) (alpha : option num)
  : result (error num) (list num) :=
  let alpha := nullish alpha (lit 3 10) in
  match data with
  | [] => Returns []
  | d0 :: data' =>
      if (alpha <? int 0) || (alpha >? int 1) then
        Throws (Error "Alpha must be between 0 and 1")
      else Returns (d0 :: exponentialMovingAverage_from alpha d0 data')
  end.

(** [rateOfChange(data, times = null)]: the loop runs over i = 1 ..
    data.length - 1; [times[i]] may lie outside [times]. *)
Definition rateOfChange (data : list num) (times : option (list num)) : list num :=
  if (length data <? 2)%nat then []
  else
    map (fun i : nat =>
           let dt := match times with
                     | Some t => at_index t i - at_index t (i - 1)
                     | None => int 1
                     end in
           (at_index data i - at_index data (i - 1)) / dt)
        (seq 1 (length data - 1)).

(** The [while] loop of [resample]: the first index i with
    [times[i] >= newTime], or [times.length]. *)
Fixpoint first_not_before (times : list num) (newTime : num) : nat :=
  match times with
  | [] => 0
  | t :: times' =>
      if t <? newTime then S (first_not_before times' newTime) else 0
  end.

(** [resample]: an element of the result is [undefined] ([None]) where the
    code returns [data[0]] of an empty array. *)
Definition resample (data times newTimes : list num) : list (option num) :=
  if negb (length data =? length times)%nat then []
  else
    map (fun newTime =>
           let i := first_not_before times newTime in
           if (i =? 0)%nat then nth_error data 0
           else if (i =? length times)%nat then nth_error data (length data - 1)
           else
             let t0 := at_index times (i - 1) in
             let t1 := at_index times i in
             let v0 := at_index data (i - 1) in
             let v1 := at_index data i in
             let fraction := (newTime - t0) / (t1 - t0) in
             Some (v0 + fraction * (v1 - v0)))
        newTimes.

Definition deadTimeCorrection (observedRate deadTime : num) : result (error num) num :=
  let denominator := int 1 - observedRate * deadTime in
  if denominator <=? int 0 then
    Throws (Error "Dead time correction overflow - rate too high")
  else Returns (observedRate / denominator).
End TimeSeries.

(** [detectOutliers(data, threshold = 3)]: the indices pushed by the
    [forEach], in order. *)
Definition detectOutliers `{Power float} (data : list float) (threshold : option float)
  : list nat :=
  let threshold := nullish threshold 3%float in
  if (length data =? 0)%nat then []
  else
    let mean := Statistics.mean data in
    let std := Statistics.standardDeviation data None in
    if (std =? 0)%float then []
    else
      reduce (fun outliers value index =>
                let z := f64_abs ((value - mean) / std)%float in
                if (threshold <? z)%float then outliers ++ [index] else outliers)
             [] data.
End TimeSeries.

(* ===================================================================== *)
(** * calibration.js, analysis part: Histogram *)
(* ===================================================================== *)

Module Histogram.
Section Histogram.
Context {num : Type} `{Number num} `{Floor num}.
Local Open Scope js_scope.

(** What [create] returns.  An entry of [counts] is a number, or a hole
    ([None]) of an array that was extended past its end. *)
Record t : Type := {
  bins : list num;
  counts : list (option num);
  edges : list num;
  binWidth : num;
}.

(** [counts[binIndex]++].  An index inside the array adds 1 to the entry; an
    index past the end extends the array with holes up to a new entry, which
    is NaN (undefined + 1); a negative index or no index at all names a
    property of the object, and no entry changes. *)
Definition increment (counts : list (option num)) (binIndex : option Z)
  : list (option num) :=
  match binIndex with
  | Some i =>
      if (i <? 0)%Z then counts
      else if (i <? Z.of_nat (length counts))%Z then
        <[Z.to_nat i :=
            Some (match counts !! Z.to_nat i with
                  | Some (Some c) => c + int 1
                  | _ => NaN
                  end)]> counts
      else counts ++ repeat None (Z.to_nat i - length counts) ++ [Some NaN]
  | None => counts
  end.

(** [create(data, options)], for [options.bins] a whole number that is not
    negative (any other makes [new Array(bins)] throw); 0, like a missing
    value, stands for 10 bins. *)
Definition create (data : list num) (options_bins : option nat)
    (options_min options_max : option num) : t :=
  match data with
  | [] => {| bins := []; counts := []; edges := []; binWidth := int 0 |}
  | first :: rest =>
      let bins := match options_bins with
                  | Some b => if (b =? 0)%nat then 10%nat else b
                  | None => 10%nat
                  end in
      let min := match options_min with
                 | Some m => m
                 | None => Math_min_of first rest
                 end in
      let max := match options_max with
                 | Some m => m
                 | None => Math_max_of first rest
                 end in
      let binWidth := (max - min) / int (Z.of_nat bins) in
      let counts := repeat (Some (int 0)) bins in
      let edges := map (fun i : nat => min + int (Z.of_nat i) * binWidth)
                       (seq 0 (bins + 1)) in
      let counts :=
        fold_left
          (fun counts value =>
             if (value <? min) || (value >? max) then counts
             else
               let binIndex := Math_floor ((value - min) / binWidth) in
               let binIndex := match binIndex with
                               | Some i => if (i =? Z.of_nat bins)%Z
                                           then Some (Z.of_nat bins - 1)%Z
                                           else Some i
                               | None => None
                               end in
               increment counts binIndex)
          data counts in
      let binCenters := map (fun edge => edge + binWidth / int 2) (removelast edges) in
      {| bins := binCenters; counts := counts; edges := edges; binWidth := binWidth |}
  end.

(** What [cumulative] returns: the histogram with the running sums for
    counts, and [normalized]. *)
Record cumulative_t : Type := {
  histogram : t;
  normalized : list num;
}.

(** The [for ... of] loop of [cumulative]: [sum] so far, the counts left. *)
Fixpoint running_sums (sum : num) (counts : list (option num)) : list num * num :=
  match counts with
  | [] => ([], sum)
  | count :: counts' =>
      let sum := sum + match count with Some c => c | None => NaN end in
      let '(sums, total) := running_sums sum counts' in
      (sum :: sums, total)
  end.

Definition cumulative (data : list num) (options_bins : option nat)
    (options_min options_max : option num) : cumulative_t :=
  let hist := create data options_bins options_min options_max in
  let '(cumulativeCounts, sum) := running_sums (int 0) (counts hist) in
  {| histogram := {| bins := bins hist; counts := map Some cumulativeCounts;
                     edges := edges hist; binWidth := binWidth hist |};
     normalized := map (fun c => c / sum) cumulativeCounts |}.
End Histogram.
Arguments t num : clear implicits.
Arguments cumulative_t num : clear implicits.
End Histogram.

(* ===================================================================== *)
(** * tests/mock-cd48.ts: MockCD48 *)
(* ===================================================================== *)

Module Mock.

Module CountData.
Record t : Type := {
  counts : list float;
  coincidenceCounts : float;
  timestamp : float;
}.
End CountData.

Module SettingsData.
Record t : Type := {
  baud : float;
  timeout : float;
  commandDelay : float;
  firmware : string;
}.
End SettingsData.

Module RateMeasurement.
Record t : Type := {
  channel : Z;
  duration : float;
  counts : float;
  rate : float;
  uncertainty : float;
}.
End RateMeasurement.

Module CoincidenceRateMeasurement.
Record t : Type := {
  duration : float;
  counts : float;
  rate : float;
  uncertainty : float;
}.
End CoincidenceRateMeasurement.

(** The fields of a [MockCD48] object.  Channels and the command counter are
    integers; the interval timer handle is not a field here, what the timer
    does is part of the interference below. *)
Record MockCD48 : Type := {
  connected : bool;
  counts : list float;
  coincidenceCounts : float;
  version : string;
  autoIncrement : bool;
  incrementRate : float;
  commandDelay : float;
  failConnection : bool;
  failCommands : bool;
  disconnectAfter : option Z;
  commandCount : Z;
}.

Definition set_connected (b : bool) (this : MockCD48) : MockCD48 :=
  {| connected := b; counts := counts this;
     coincidenceCounts := coincidenceCounts this; version := version this;
     autoIncrement := autoIncrement this; incrementRate := incrementRate this;
     commandDelay := commandDelay this; failConnection := failConnection this;
     failCommands := failCommands this; disconnectAfter := disconnectAfter this;
     commandCount := commandCount this |}.

Definition set_counts (l : list float) (this : MockCD48) : MockCD48 :=
  {| connected := connected this; counts := l;
     coincidenceCounts := coincidenceCounts this; version := version this;
     autoIncrement := autoIncrement this; incrementRate := incrementRate this;
     commandDelay := commandDelay this; failConnection := failConnection this;
     failCommands := failCommands this; disconnectAfter := disconnectAfter this;
     commandCount := commandCount this |}.

Definition set_coincidenceCounts (c : float) (this : MockCD48) : MockCD48 :=
  {| connected := connected this; counts := counts this;
     coincidenceCounts := c; version := version this;
     autoIncrement := autoIncrement this; incrementRate := incrementRate this;
     commandDelay := commandDelay this; failConnection := failConnection this;
     failCommands := failCommands this; disconnectAfter := disconnectAfter this;
     commandCount := commandCount this |}.

Definition set_disconnectAfter (n : option Z) (this : MockCD48) : MockCD48 :=
  {| connected := connected this; counts := counts this;
     coincidenceCounts := coincidenceCounts this; version := version this;
     autoIncrement := autoIncrement this; incrementRate := incrementRate this;
     commandDelay := commandDelay this; failConnection := failConnection this;
     failCommands := failCommands this; disconnectAfter := n;
     commandCount := commandCount this |}.

Definition set_commandCount (n : Z) (this : MockCD48) : MockCD48 :=
  {| connected := connected this; counts := counts this;
     coincidenceCounts := coincidenceCounts this; version := version this;
     autoIncrement := autoIncrement this; incrementRate := incrementRate this;
     commandDelay := commandDelay this; failConnection := failConnection this;
     failCommands := failCommands this; disconnectAfter := disconnectAfter this;
     commandCount := n |}.

(** [new MockCD48()] with no options. *)
Definition constructor : MockCD48 :=
  {| connected := false;
     counts := [0; 0; 0; 0; 0; 0; 0; 0]%float;
     coincidenceCounts := 0%float;
     version := "Mock v1.0.0";
     autoIncrement := true;
     incrementRate := 10%float;
     commandDelay := 10%float;
     failConnection := false;
     failCommands := false;
     disconnectAfter := None;
     commandCount := 0 |}.

(** An [async] method runs on the object until it returns or throws; the
    object is left as the method made it in both cases. *)
Definition M (A : Type) : Type := MockCD48 -> result (error float) A * MockCD48.

Definition ret {A} (a : A) : M A := fun this => (Returns a, this).
Definition throw {A} (e : error float) : M A := fun this => (Throws e, this).
Definition get : M MockCD48 := fun this => (Returns this, this).
Definition modify (f : MockCD48 -> MockCD48) : M unit := fun this => (Returns tt, f this).

Definition mbind {A B} (m : M A) (k : A -> M B) : M B :=
  fun this =>
    match m this with
    | (Returns a, this') => k a this'
    | (Throws e, this') => (Throws e, this')
    end.

Notation "x <- m ;; k" := (mbind m (fun x => k))
  (at level 100, m at next level, right associativity).
Notation "m ;;; k" := (mbind m (fun _ => k))
  (at level 100, right associativity).

(** While a call is suspended in [await this._delay(ms)], the event loop runs
    whatever else is pending on the same object: the interval callback of
    [_startAutoIncrement], the timeout of [failNextCommand], other callers.
    An [interference] is what that does to the object during one suspension. *)
Definition interference : Type := MockCD48 -> MockCD48.

Definition _delay (during : interference) : M unit := modify during.

Definition _executeCommand (during_delay : interference) : M unit :=
  this <- get ;;
  if negb (connected this) then throw (Error "Device not connected")
  else
    _delay during_delay ;;;
    this <- get ;;
    if failCommands this then throw (Error "Mock command failed")
    else
      modify (fun this => set_commandCount (commandCount this + 1) this) ;;;
      this <- get ;;
      match disconnectAfter this with
      | Some n =>
          if (n <? commandCount this)%Z then
            modify (set_connected false) ;;;
            throw (Error "Device disconnected unexpectedly")
          else ret tt
      | None => ret tt
      end.

Definition connect (during_delay : interference) : M bool :=
  _delay during_delay ;;;
  this <- get ;;
  if failConnection this then throw (Error "Mock connection failed")
  else
    modify (set_connected true) ;;;
    modify (set_commandCount 0) ;;;
    ret true.

Definition disconnect (during_delay : interference) : M bool :=
  _delay during_delay ;;;
  modify (set_connected false) ;;;
  ret true.

Definition isConnected (this : MockCD48) : bool := connected this.

Definition getVersion (during_delay : interference) : M string :=
  _executeCommand during_delay ;;;
  this <- get ;;
  ret (version this).

Definition getCounts (during_delay : interference) (now : float) : M CountData.t :=
  _executeCommand during_delay ;;;
  this <- get ;;
  ret {| CountData.counts := counts this;
         CountData.coincidenceCounts := coincidenceCounts this;
         CountData.timestamp := now |}.

Definition getSettings (during_delay : interference) : M SettingsData.t :=
  _executeCommand during_delay ;;;
  this <- get ;;
  ret {| SettingsData.baud := 9600%float;
         SettingsData.timeout := 1000%float;
         SettingsData.commandDelay := 50%float;
         SettingsData.firmware := version this |}.

Definition clearCounts (during_delay : interference) : M bool :=
  _executeCommand during_delay ;;;
  modify (set_counts [0; 0; 0; 0; 0; 0; 0; 0]%float) ;;;
  modify (set_coincidenceCounts 0%float) ;;;
  ret true.

(** [this.counts[channel] ?? 0] *)
Definition count_at (this : MockCD48) (channel : Z) : float :=
  nullish (counts this !! Z.to_nat channel) 0%float.

Definition Math_sqrt : float -> float := PrimFloat.sqrt.

Definition measureRate (during_delay during_measurement : interference)
    (channel : Z) (duration : float) : M RateMeasurement.t :=
  _executeCommand during_delay ;;;
  if (channel <? 0)%Z || (7 <? channel)%Z then
    throw (Error ("Invalid channel: " ++ NilZero.string_of_int (Z.to_int channel)))
  else
    this <- get ;;
    let startCounts := count_at this channel in
    _delay during_measurement ;;;
    this <- get ;;
    let endCounts := count_at this channel in
    let totalCounts := (endCounts - startCounts)%float in
    let rate := (totalCounts / duration)%float in
    ret {| RateMeasurement.channel := channel;
           RateMeasurement.duration := duration;
           RateMeasurement.counts := totalCounts;
           RateMeasurement.rate := rate;
           RateMeasurement.uncertainty :=
             (Math_sqrt (Math_max 0 totalCounts) / duration)%float |}.

(** [options.duration ?? 1.0] *)
Definition measureCoincidenceRate (during_delay during_measurement : interference)
    (options_duration : option float) : M CoincidenceRateMeasurement.t :=
  _executeCommand during_delay ;;;
  let duration := nullish options_duration 1%float in
  this <- get ;;
  let startCounts := coincidenceCounts this in
  _delay during_measurement ;;;
  this <- get ;;
  let endCounts := coincidenceCounts this in
  let totalCounts := (endCounts - startCounts)%float in
  let rate := (totalCounts / duration)%float in
  ret {| CoincidenceRateMeasurement.duration := duration;
         CoincidenceRateMeasurement.counts := totalCounts;
         CoincidenceRateMeasurement.rate := rate;
         CoincidenceRateMeasurement.uncertainty :=
           (Math_sqrt (Math_max 0 totalCounts) / duration)%float |}.

Definition setRepeat (during_delay : interference) (_intervalMs : float) : M bool :=
  _executeCommand during_delay ;;;
  ret true.

Definition toggleRepeat (during_delay : interference) : M bool :=
  _executeCommand during_delay ;;;
  ret true.

(** Test helpers: synchronous, no command is issued. *)
Definition setCounts (l : list float) : M unit :=
  if negb (length l =? 8)%nat then throw (Error "Must provide 8 count values")
  else modify (set_counts l).

Definition setCoincidenceCounts (count : float) : M unit :=
  modify (set_coincidenceCounts count).

Definition setDisconnectAfter (n : Z) : M unit :=
  modify (set_disconnectAfter (Some n)) ;;;
  modify (set_commandCount 0).

(** The command methods, i.e. the methods that start with
    [await this._executeCommand()], behind one entry point. *)
Inductive command : Type :=
| GetVersion
| GetCounts (now : float)
| GetSettings
| ClearCounts
| MeasureRate (channel : Z) (duration : float)
| MeasureCoincidenceRate (options_duration : option float)
| SetRepeat (intervalMs : float)
| ToggleRepeat.

Inductive reply : Type :=
| ReplyString (s : string)
| ReplyCounts (d : CountData.t)
| ReplySettings (s : SettingsData.t)
| ReplyBool (b : bool)
| ReplyRate (r : RateMeasurement.t)
| ReplyCoincidenceRate (r : CoincidenceRateMeasurement.t).

Definition invoke (c : command) (during_delay during_measurement : interference) : M reply :=
  match c with
  | GetVersion => s <- getVersion during_delay ;; ret (ReplyString s)
  | GetCounts now => d <- getCounts during_delay now ;; ret (ReplyCounts d)
  | GetSettings => s <- getSettings during_delay ;; ret (ReplySettings s)
  | ClearCounts => b <- clearCounts during_delay ;; ret (ReplyBool b)
  | MeasureRate channel duration =>
      r <- measureRate during_delay during_measurement channel duration ;;
      ret (ReplyRate r)
  | MeasureCoincidenceRate d =>
      r <- measureCoincidenceRate during_delay during_measurement d ;;
      ret (ReplyCoincidenceRate r)
  | SetRepeat ms => b <- setRepeat during_delay ms ;; ret (ReplyBool b)
  | ToggleRepeat => b <- toggleRepeat during_delay ;; ret (ReplyBool b)
  end.

End Mock.

(* ===================================================================== *)
(** * calibration.js: CalibrationWizard, over the mock device *)
(* ===================================================================== *)

Module Wizard.

(** The fields of a [CalibrationWizard] that its methods use: the device
    ([null] or an object with [isConnected] and [measureRate], here the
    mock), the profile, and [profile.metadata], the one part of the profile
    that [CalibrationProfile] above leaves out. *)
Record CalibrationWizard : Type := {
  cd48 : option Mock.MockCD48;
  profile : Calibration.CalibrationProfile float;
  metadata : gmap string (jsval float);
}.

(** [new CalibrationWizard(cd48)] *)
Definition constructor (cd48 : option Mock.MockCD48) : CalibrationWizard :=
  {| cd48 := cd48;
     profile := Calibration.constructor None None;
     metadata := ∅ |}.

Definition set_cd48 (d : option Mock.MockCD48) (this : CalibrationWizard)
  : CalibrationWizard :=
  {| cd48 := d; profile := profile this; metadata := metadata this |}.

Definition set_profile (p : Calibration.CalibrationProfile float)
    (this : CalibrationWizard) : CalibrationWizard :=
  {| cd48 := cd48 this; profile := p; metadata := metadata this |}.

Definition set_metadata (key : string) (value : jsval float)
    (this : CalibrationWizard) : CalibrationWizard :=
  {| cd48 := cd48 this; profile := profile this;
     metadata := <[key := value]> (metadata this) |}.

(** A method of the wizard runs on the wizard until it returns or throws. *)
Definition W (A : Type) : Type :=
  CalibrationWizard -> result (error float) A * CalibrationWizard.

(** [measureChannelRate(channel, duration = 5.0)] *)
Definition measureChannelRate (during_delay during_measurement : Mock.interference)
    (channel : Z) (duration : option float) : W float :=
  fun this =>
    let duration := nullish duration 5%float in
    match cd48 this with
    | None => (Throws (Error "CD48 device not connected"), this)
    | Some device =>
        if negb (Mock.isConnected device) then
          (Throws (Error "CD48 device not connected"), this)
        else
          match Mock.measureRate during_delay during_measurement channel duration device with
          | (Returns result, device') =>
              (Returns (Mock.RateMeasurement.rate result), set_cd48 (Some device') this)
          | (Throws e, device') => (Throws e, set_cd48 (Some device') this)
          end
    end.

(** The template literal [`${channel}`] for a whole channel number. *)
Definition channel_text (channel : Z) : string :=
  NilZero.string_of_int (Z.to_int channel).

(** [calibrateVoltage(channel, knownVoltage)] *)
Definition calibrateVoltage (channel : Z) (knownVoltage : float) : W unit :=
  fun this =>
    match Calibration.setVoltage (profile this) channel knownVoltage with
    | Returns p =>
        (Returns tt,
         set_metadata ("voltage_calibrated_ch" ++ channel_text channel)%string (JBoolean true)
           (set_profile p this))
    | Throws e => (Throws e, this)
    end.

(** [calibrateGain(channel, referenceRate, duration = 10.0)] *)
Definition calibrateGain (during_delay during_measurement : Mock.interference)
    (channel : Z) (referenceRate : float) (duration : option float) : W float :=
  fun this =>
    let duration := nullish duration 10%float in
    match measureChannelRate during_delay during_measurement channel (Some duration) this with
    | (Returns measuredRate, this') =>
        let gain := (referenceRate / measuredRate)%float in
        match Calibration.setGain (profile this') channel gain with
        | Returns p => (Returns gain, set_profile p this')
        | Throws e => (Throws e, this')
        end
    | (Throws e, this') => (Throws e, this')
    end.

Record ValidationResult : Type := {
  valid : bool;
  issues : list string;
  warnings : list string;
}.

(** [validate()]; [Number_toString] is the text of a number in a template
    literal. *)
Definition validate (Number_toString : float -> string) (this : CalibrationWizard)
  : ValidationResult :=
  let channels := [0; 1; 2; 3; 4; 5; 6; 7]%Z in
  let warnings :=
    flat_map
      (fun i =>
         (match Calibration.getVoltage (profile this) i with
          | None => [("Channel " ++ channel_text i ++ " voltage not calibrated")%string]
          | Some _ => []
          end ++
          match Calibration.getGain (profile this) i with
          | None => [("Channel " ++ channel_text i ++ " gain not calibrated")%string]
          | Some _ => []
          end)%list)
      channels in
  let issues :=
    flat_map
      (fun i =>
         match Calibration.getGain (profile this) i with
         | Some gain =>
             if (gain <? lit 1 10)%float || (int 10 <? gain)%float then
               [("Channel " ++ channel_text i ++ " gain " ++ Number_toString gain ++
                 " is unusual (expected 0.1-10)")%string]
             else []
         | None => []
         end)
      channels in
  {| valid := (length issues =? 0)%nat; issues := issues; warnings := warnings |}.

End Wizard.

(* ===================================================================== *)
(** * The specification's vocabulary *)
(* ===================================================================== *)

Module Spec.

(** The failure conditions the specification names (section 7). *)
Inductive condition : Type :=
| NotConnectedError
| ProtocolError
| MalformedResponseError
| CounterAnomaly
| DegenerateCalibrationError
| InsufficientDataError.

(** The code throws plain [Error] objects, told apart by their message only:
    this is the condition each of them stands for.  No exception of the
    embedded code stands for [CounterAnomaly] or
    [DegenerateCalibrationError]. *)
Definition condition_of {num} (e : error num) : option condition :=
  match e with
  | Error message =>
      if String.eqb message "Device not connected" then Some NotConnectedError
      else if String.eqb message "At least 2 calibration points required"
      then Some InsufficientDataError
      else None
  | ValidationError _ _ _ => None
  end.

Definition fails_with {num A} (r : result (error num) A) (c : condition) : Prop :=
  exists e, r = Throws e /\ condition_of e = Some c.

(** Two numbers are the same value, the sign of zero apart (ECMAScript's
    SameValueZero): [a === b], or both are NaN. *)
Definition same_value_zero (a b : float) : bool :=
  PrimFloat.eqb a b || (is_nan a && is_nan b).

End Spec.

(* ===================================================================== *)
(** * The response parser, from the specification *)
(* ===================================================================== *)

Module Parser.

(** Modelled from the spec: the CountSnapshot of section 3, 8 channel counts
    and an overflow indicator. *)
Record CountSnapshot : Type := {
  counts : list Z;
  overflow : Z;
}.

(** Modelled from the spec: the whitespace characters that separate tokens
    (space, and the control characters tab to carriage return). *)
Definition is_space (c : ascii) : bool :=
  let n := N_of_ascii c in
  (n =? 32)%N || ((9 <=? n)%N && (n <=? 13)%N).

(** Modelled from the spec: the whitespace splitting of the Protocol Framer
    and Response Parser ("decodes a reply into whitespace-separated tokens");
    cd48.js, which holds the parser, is not among the sources.  [tok] is the
    token being read. *)
Fixpoint split_from (tok : string) (s : string) : list string :=
  match s with
  | EmptyString => if String.eqb tok "" then [] else [tok]
  | String c s' =>
      if is_space c then
        if String.eqb tok "" then split_from "" s'
        else tok :: split_from "" s'
      else split_from (tok ++ String c "") s'
  end.

(** Modelled from the spec: the tokens of a reply line. *)
Definition tokens (line : string) : list string := split_from "" line.

(** No character of [s] is whitespace. *)
Fixpoint no_space (s : string) : bool :=
  match s with
  | EmptyString => true
  | String c s' => negb (is_space c) && no_space s'
  end.

(** Modelled from the spec: the value of a decimal digit. *)
Definition digit_of (c : ascii) : option Z :=
  let n := N_of_ascii c in
  if (48 <=? n)%N && (n <=? 57)%N then Some (Z.of_N (n - 48)) else None.

(** Modelled from the spec: the number a run of decimal digits denotes. *)
Fixpoint digits_from (acc : Z) (s : string) : option Z :=
  match s with
  | EmptyString => Some acc
  | String c s' =>
      match digit_of c with
      | Some d => digits_from (10 * acc + d) s'
      | None => None
      end
  end.

(** Modelled from the spec: integer parsing of one token of the wire protocol
    ("space-separated decimal ASCII"): a non-empty run of decimal digits. *)
Definition parseDecimal (token : string) : option Z :=
  match token with
  | EmptyString => None
  | _ => digits_from 0 token
  end.

(** Modelled from the spec: parse every token, or none ("any token that
    fails integer parsing voids the whole response"). *)
Fixpoint parse_all (parseInteger : string -> option Z) (l : list string) : option (list Z) :=
  match l with
  | [] => Some []
  | t :: l' =>
      match parseInteger t, parse_all parseInteger l' with
      | Some n, Some ns => Some (n :: ns)
      | _, _ => None
      end
  end.

(** Modelled from the spec: [parseCounts] of the Response Parser (section
    4.2), whose code (cd48.js) is not among the sources: "splits on
    whitespace; expects exactly 9 tokens (8 channel counts + 1 overflow
    indicator); fails with MalformedResponseError if token count or numeric
    parse fails. Any token that fails integer parsing voids the whole
    response (no partial snapshots)."  What counts as an integer token is the
    parameter [parseInteger]. *)
Definition parseCounts (parseInteger : string -> option Z) (line : string)
  : result Spec.condition CountSnapshot :=
  let parts := tokens line in
  if negb (length parts =? 9)%nat then Throws Spec.MalformedResponseError
  else
    match parse_all parseInteger parts with
    | Some ns => Returns {| counts := firstn 8 ns; overflow := nth 8 ns 0%Z |}
    | None => Throws Spec.MalformedResponseError
    end.

End Parser.

(* ===================================================================== *)
(** * Facts about binary64 comparison and the [Math] functions *)
(* ===================================================================== *)

Module Float64.
Local Open Scope float_scope.

Lemma SFcompare_antisym (x y : spec_float) :
  SFcompare y x = option_map CompOpp (SFcompare x y).
Proof.
  destruct x as [sx|sx| |sx mx ex], y as [sy|sy| |sy my ey]; simpl;
    try reflexivity; try (destruct sx; reflexivity);
    try (destruct sy; reflexivity);
    try (destruct sx, sy; reflexivity).
  f_equal.
  rewrite (Z.compare_antisym ex ey).
  pose proof (Pos.compare_cont_antisym mx my Eq) as A. simpl in A.
  destruct sx, sy; simpl; try reflexivity;
    destruct (ex ?= ey)%Z; simpl; try reflexivity;
    rewrite <- A; destruct (Pos.compare_cont Eq mx my); reflexivity.
Qed.

Lemma SFcompare_refl (x : spec_float) :
  x <> S754_nan -> SFcompare x x = Some Eq.
Proof.
  destruct x as [s|s| |s m e]; simpl; intros Hx;
    try reflexivity; try (destruct s; reflexivity); try congruence.
  rewrite Z.compare_refl, Pos.compare_cont_refl.
  destruct s; reflexivity.
Qed.

Lemma is_nan_spec (x : float) :
  is_nan x = match Prim2SF x with S754_nan => true | _ => false end.
Proof.
  unfold is_nan. rewrite FloatAxioms.eqb_spec. unfold SFeqb.
  destruct (Prim2SF x) as [s|s| |s m e] eqn:E; try reflexivity.
  - destruct s; reflexivity.
  - rewrite SFcompare_refl by discriminate. reflexivity.
Qed.

Lemma ltb_not_nan (a b : float) :
  (a <? b) = true -> is_nan a = false /\ is_nan b = false.
Proof.
  rewrite FloatAxioms.ltb_spec, !is_nan_spec. unfold SFltb.
  destruct (Prim2SF a), (Prim2SF b); simpl; intros; try discriminate; auto.
Qed.

Lemma leb_not_nan (a b : float) :
  (a <=? b) = true -> is_nan a = false /\ is_nan b = false.
Proof.
  rewrite FloatAxioms.leb_spec, !is_nan_spec. unfold SFleb.
  destruct (Prim2SF a), (Prim2SF b); simpl; intros; try discriminate; auto.
Qed.

Lemma ltb_asym (a b : float) : (a <? b) = true -> (b <? a) = false.
Proof.
  rewrite !FloatAxioms.ltb_spec. unfold SFltb.
  rewrite (SFcompare_antisym (Prim2SF a) (Prim2SF b)).
  destruct (SFcompare (Prim2SF a) (Prim2SF b)) as [[]|]; simpl; congruence.
Qed.

Lemma ltb_leb (a b : float) : (a <? b) = true -> (a <=? b) = true.
Proof.
  rewrite FloatAxioms.ltb_spec, FloatAxioms.leb_spec. unfold SFltb, SFleb.
  destruct (SFcompare (Prim2SF a) (Prim2SF b)) as [[]|]; congruence.
Qed.

Lemma leb_ltb_false (a b : float) : (a <=? b) = true -> (b <? a) = false.
Proof.
  rewrite FloatAxioms.ltb_spec, FloatAxioms.leb_spec. unfold SFltb, SFleb.
  rewrite (SFcompare_antisym (Prim2SF a) (Prim2SF b)).
  destruct (SFcompare (Prim2SF a) (Prim2SF b)) as [[]|]; simpl; congruence.
Qed.

Lemma SFcompare_None (x y : spec_float) :
  SFcompare x y = None -> x = S754_nan \/ y = S754_nan.
Proof.
  destruct x, y; simpl; intros E; try discriminate; auto.
Qed.

(** Of two numbers, none NaN, one is [<=] the other. *)
Lemma not_ltb_leb (a b : float) :
  is_nan a = false -> is_nan b = false ->
  (b <? a) = false -> (a <=? b) = true.
Proof.
  rewrite !is_nan_spec, FloatAxioms.ltb_spec, FloatAxioms.leb_spec.
  unfold SFltb, SFleb.
  rewrite (SFcompare_antisym (Prim2SF a) (Prim2SF b)).
  destruct (SFcompare (Prim2SF a) (Prim2SF b)) as [[]|] eqn:E; simpl;
    try congruence.
  intros Ha Hb _. apply SFcompare_None in E.
  destruct E as [E|E]; rewrite E in *; discriminate.
Qed.

(** A negative number is below a positive one. *)
Lemma ltb_neg_pos (v k : float) :
  (v <? 0) = true -> (0 <? k) = true -> (v <? k) = true.
Proof.
  rewrite !FloatAxioms.ltb_spec. unfold SFltb.
  change (Prim2SF 0) with (S754_zero false).
  destruct (Prim2SF v) as [s|s| |s m e], (Prim2SF k) as [s'|s'| |s' m' e'];
    simpl; try discriminate;
    try (destruct s; discriminate); try (destruct s'; discriminate);
    destruct s, s'; simpl; try discriminate; reflexivity.
Qed.

(** A float is determined by its specification-level value. *)
Lemma Prim2SF_zero (x : float) (s : bool) :
  Prim2SF x = S754_zero s -> x = if s then (-0) else 0.
Proof.
  intros E. rewrite <- (SF2Prim_Prim2SF x), E. destruct s; reflexivity.
Qed.

Lemma leb_0_cases (c : float) :
  (0 <=? c) = true -> (0 <? c) = true \/ c = 0 \/ c = (-0).
Proof.
  rewrite FloatAxioms.ltb_spec, FloatAxioms.leb_spec. unfold SFltb, SFleb.
  change (Prim2SF 0) with (S754_zero false).
  destruct (Prim2SF c) as [s|s| |s m e] eqn:E; simpl; try discriminate.
  - intros _. right. apply Prim2SF_zero in E. destruct s; auto.
  - destruct s; try discriminate; auto.
  - destruct s; try discriminate; auto.
Qed.

(** [Math.max(0, x)] *)
Lemma max_0_not_negative (x : float) : (f64_max 0 x <? 0) = false.
Proof.
  unfold f64_max.
  destruct (is_nan 0 || is_nan x); [reflexivity|].
  destruct (0 <? x) eqn:E1; [apply ltb_asym; exact E1|].
  destruct (x <? 0); reflexivity.
Qed.

Lemma max_0_positive (x : float) : (0 <? x) = true -> f64_max 0 x = x.
Proof.
  intros E. unfold f64_max.
  destruct (ltb_not_nan _ _ E) as [_ ->]. simpl. rewrite E. reflexivity.
Qed.

Lemma max_0_nonneg (c : float) :
  (0 <=? c) = true -> c <> (-0) -> f64_max 0 c = c.
Proof.
  intros H Hz. destruct (leb_0_cases c H) as [E|[->| ->]].
  - apply max_0_positive, E.
  - reflexivity.
  - congruence.
Qed.

Lemma max_0_negative (c : float) : (c <? 0) = true -> f64_max 0 c = 0.
Proof.
  intros E. unfold f64_max.
  destruct (ltb_not_nan _ _ E) as [-> _]. simpl.
  rewrite (ltb_asym _ _ E), E. reflexivity.
Qed.

(** [0 / d] and [-0 / d] for a positive [d]. *)
Lemma zero_div_pos (d : float) : (0 <? d) = true -> 0 / d = 0.
Proof.
  intros E. rewrite <- (SF2Prim_Prim2SF (0 / d)), div_spec.
  rewrite FloatAxioms.ltb_spec in E. unfold SFltb in E.
  change (Prim2SF 0) with (S754_zero false) in *.
  destruct (Prim2SF d) as [s|s| |s m e]; simpl in *; try discriminate;
    destruct s; try discriminate; reflexivity.
Qed.

Lemma neg_zero_div_pos (d : float) : (0 <? d) = true -> (-0) / d = (-0).
Proof.
  intros E. rewrite <- (SF2Prim_Prim2SF ((-0) / d)), div_spec.
  rewrite FloatAxioms.ltb_spec in E. unfold SFltb in E.
  change (Prim2SF 0) with (S754_zero false) in *.
  change (Prim2SF (-0)) with (S754_zero true).
  destruct (Prim2SF d) as [s|s| |s m e]; simpl in *; try discriminate;
    destruct s; try discriminate; reflexivity.
Qed.

Lemma same_value_zero_refl (x : float) : Spec.same_value_zero x x = true.
Proof.
  unfold Spec.same_value_zero, is_nan. destruct (x =? x); reflexivity.
Qed.

(** Equal numbers have a zero (or NaN) difference. *)
Lemma sub_of_equal (a b : float) :
  (a =? b) = true ->
  Prim2SF (b - a) = S754_nan \/ exists s, Prim2SF (b - a) = S754_zero s.
Proof.
  rewrite FloatAxioms.eqb_spec, sub_spec. unfold SFeqb.
  destruct (Prim2SF a) as [sa|sa| |sa ma ea], (Prim2SF b) as [sb|sb| |sb mb eb];
    simpl; try discriminate; try (destruct sa; discriminate);
    try (destruct sb; discriminate).
  - intros _. right. destruct sa, sb; eauto.
  - destruct sa, sb; try discriminate; auto.
  - intros E.
    assert (sa = sb /\ ea = eb /\ ma = mb) as (-> & -> & ->).
    { destruct sa, sb; try discriminate;
        destruct (ea ?= eb)%Z eqn:Ee; try discriminate;
        apply Z.compare_eq in Ee;
        destruct (Pos.compare_cont Eq ma mb) eqn:Em; try discriminate;
        apply Pcompare_Eq_eq in Em; auto. }
    right. exists false.
    unfold SF64sub, SFsub. rewrite Z.sub_diag. reflexivity.
Qed.

(** Dividing by a zero or by NaN gives NaN or an infinity. *)
Lemma div_by_zero (x z : float) :
  (Prim2SF z = S754_nan \/ exists s, Prim2SF z = S754_zero s) ->
  x / z = nan \/ x / z = infinity \/ x / z = neg_infinity.
Proof.
  intros Hz. rewrite <- (SF2Prim_Prim2SF (x / z)), div_spec.
  destruct Hz as [-> | [s ->]].
  - left. destruct (Prim2SF x); reflexivity.
  - destruct (Prim2SF x) as [sx|sx| |sx mx ex]; simpl; auto;
      destruct sx, s; simpl; auto.
Qed.

(** Multiplying by 1 is exact: [r * 1] is [r], for every double. *)
Lemma digits2_shift (m : positive) :
  (Z.pos (digits2_pos (Pos.mul 4503599627370496 m)) = Z.pos (digits2_pos m) + 52)%Z.
Proof.
  cbv [Pos.mul digits2_pos]. rewrite !Pos2Z.inj_succ. unfold Z.succ. ring.
Qed.

Lemma shr_shift (m : positive) :
  SpecFloat.iter_pos shr_1 52
    {| shr_m := Z.pos (Pos.mul 4503599627370496 m); shr_r := false; shr_s := false |} =
  {| shr_m := Z.pos m; shr_r := false; shr_s := false |}.
Proof. reflexivity. Qed.

Lemma mul_1_r (r : float) : r * 1 = r.
Proof.
  rewrite <- (SF2Prim_Prim2SF (r * 1)), mul_spec.
  rewrite <- (SF2Prim_Prim2SF r) at 2.
  f_equal.
  replace (Prim2SF 1) with (S754_finite false 4503599627370496 (-52))
    by (vm_compute; reflexivity).
  pose proof (Prim2SF_valid r) as V.
  destruct (Prim2SF r) as [s|s| |s m e];
    try (destruct s; reflexivity); try reflexivity.
  unfold valid_binary, bounded, canonical_mantissa, fexp in V.
  apply andb_prop in V. destruct V as [V1 V2].
  apply Z.eqb_eq in V1.
  unfold SF64mul, SFmul.
  rewrite (Pos.mul_comm m), xorb_false_r.
  unfold binary_round_aux, shr_fexp, fexp, Zdigits2.
  rewrite digits2_shift.
  replace (Z.pos (digits2_pos m) + 52 + (e + -52))%Z
    with (Z.pos (digits2_pos m) + e)%Z by ring.
  rewrite V1.
  replace (e - (e + -52))%Z with 52%Z by ring.
  unfold shr at 1. cbn [shr_record_of_loc]. rewrite !shr_shift.
  cbn [shr_m loc_of_shr_record round_nearest_even shr_record_of_loc].
  replace (e + -52 + 52)%Z with e by ring.
  rewrite V1, Z.sub_diag. cbn [shr shr_m].
  rewrite V2. reflexivity.
Qed.

End Float64.

(* ===================================================================== *)
(** * Rounding error of binary64 division, multiplication and Math.round *)
(* ===================================================================== *)

Module Rounding.
Local Open Scope Q_scope.

(** Powers of two. *)
Lemma pow2_pos (e : Z) : 0 < (2 # 1) ^ e.
Proof. apply Qpower_0_lt. reflexivity. Qed.

Lemma pow2_add (a b : Z) : (2 # 1) ^ (a + b) == (2 # 1) ^ a * (2 # 1) ^ b.
Proof. apply Qpower_plus. discriminate. Qed.

Lemma pow2_le (a b : Z) : (a <= b)%Z -> (2 # 1) ^ a <= (2 # 1) ^ b.
Proof. intros H. apply Qpower_le_compat_l; [exact H | discriminate]. Qed.

Lemma pow2_lt_inv (a b : Z) : (2 # 1) ^ a < (2 # 1) ^ b -> (a < b)%Z.
Proof.
  intros H. destruct (Z_lt_le_dec a b) as [L|L]; [exact L|].
  apply pow2_le in L. lra.
Qed.

Lemma pow2_Z (n : Z) : (0 <= n)%Z -> inject_Z (2 ^ n) == (2 # 1) ^ n.
Proof. intros H. rewrite Zpower_Qpower by exact H. reflexivity. Qed.

(** The number of binary digits of a mantissa. *)
Lemma digits2_size (m : positive) : digits2_pos m = Pos.size m.
Proof. induction m; simpl; congruence. Qed.

Lemma digits2_bounds (m : positive) :
  (2 ^ (Z.pos (digits2_pos m) - 1) <= Z.pos m < 2 ^ Z.pos (digits2_pos m))%Z.
Proof.
  rewrite digits2_size. split.
  - pose proof (Pos.size_le m) as H.
    assert (E : (2 ^ Z.pos (Pos.size m) = 2 * 2 ^ (Z.pos (Pos.size m) - 1))%Z).
    { rewrite <- Z.pow_succ_r by lia. f_equal. lia. }
    assert (H' : (2 ^ Z.pos (Pos.size m) <= Z.pos m~0)%Z).
    { rewrite <- Pos2Z.inj_pow. apply Pos2Z.pos_le_pos. exact H. }
    rewrite E in H'. lia.
  - pose proof (Pos.size_gt m) as H.
    rewrite <- Pos2Z.inj_pow. apply Pos2Z.pos_lt_pos. exact H.
Qed.

(** Shifting a mantissa right. *)
Lemma shr_1_m (r : shr_record) :
  (0 <= shr_m r)%Z -> shr_m (shr_1 r) = (shr_m r / 2)%Z.
Proof.
  destruct r as [m rb sb]. simpl. intros H.
  destruct m as [|p|p]; [reflexivity| |lia].
  destruct p as [p|p|]; simpl.
  - rewrite Pos2Z.inj_xI. symmetry.
    rewrite Z.add_comm, Z.mul_comm. rewrite Z.div_add by lia. reflexivity.
  - rewrite Pos2Z.inj_xO. symmetry. rewrite Z.mul_comm. apply Z.div_mul. lia.
  - reflexivity.
Qed.

Lemma iter_pos_nat {A} (f : A -> A) (n : positive) (x : A) :
  SpecFloat.iter_pos f n x = Nat.iter (Pos.to_nat n) f x.
Proof.
  revert x. induction n as [n IH|n IH|]; intros x.
  - change (SpecFloat.iter_pos f n~1 x)
      with (SpecFloat.iter_pos f n (SpecFloat.iter_pos f n (f x))).
    rewrite !IH, Pos2Nat.inj_xI.
    rewrite <- Nat.iter_add, <- Nat.iter_succ_r. f_equal. lia.
  - change (SpecFloat.iter_pos f n~0 x)
      with (SpecFloat.iter_pos f n (SpecFloat.iter_pos f n x)).
    rewrite !IH, Pos2Nat.inj_xO. rewrite <- Nat.iter_add. f_equal. lia.
  - reflexivity.
Qed.

Lemma iter_shr_1_m (k : nat) (r : shr_record) :
  (0 <= shr_m r)%Z ->
  shr_m (Nat.iter k shr_1 r) = (shr_m r / 2 ^ Z.of_nat k)%Z.
Proof.
  intros H. induction k as [|k IH].
  - simpl. symmetry. apply Z.div_1_r.
  - rewrite Nat2Z.inj_succ, Z.pow_succ_r by lia. simpl.
    rewrite shr_1_m.
    + rewrite IH. rewrite Z.div_div by lia. f_equal. lia.
    + rewrite IH. apply Z.div_pos; [exact H | lia].
Qed.

Lemma shr_m_spec (r : shr_record) (e n : Z) :
  (0 <= shr_m r)%Z ->
  shr_m (fst (shr r e n)) = (if (0 <? n)%Z then shr_m r / 2 ^ n else shr_m r)%Z /\
  snd (shr r e n) = (if (0 <? n)%Z then e + n else e)%Z.
Proof.
  intros H. unfold shr. destruct n as [|p|p]; simpl; auto.
  split; [|reflexivity].
  rewrite iter_pos_nat, iter_shr_1_m by exact H.
  rewrite positive_nat_Z. reflexivity.
Qed.

Lemma round_nearest_even_cases (m : Z) (l : location) :
  round_nearest_even m l = m \/ round_nearest_even m l = (m + 1)%Z.
Proof.
  destruct l as [|[]]; simpl; auto. destruct (Z.even m); auto.
Qed.

Lemma loc_of_shr_record_of_loc (m : Z) (l : location) :
  loc_of_shr_record (shr_record_of_loc m l) = l /\
  shr_m (shr_record_of_loc m l) = m.
Proof. destruct l as [|[]]; split; reflexivity. Qed.

(** Dividing a mantissa by a power of two, in rationals. *)
Lemma shift_bounds (M n e : Z) :
  (0 <= M)%Z -> (0 < n)%Z ->
  inject_Z (M / 2 ^ n) * (2 # 1) ^ (e + n) <= inject_Z M * (2 # 1) ^ e /\
  inject_Z (M + 1) * (2 # 1) ^ e <= inject_Z (M / 2 ^ n + 1) * (2 # 1) ^ (e + n).
Proof.
  intros HM Hn.
  assert (Hp : (0 < 2 ^ n)%Z) by (apply Z.pow_pos_nonneg; lia).
  pose proof (Z.mul_div_le M (2 ^ n) Hp) as L.
  pose proof (Z.mul_succ_div_gt M (2 ^ n) Hp) as U.
  rewrite pow2_add, <- (pow2_Z n) by lia.
  pose proof (pow2_pos e) as He.
  set (a := (2 # 1) ^ e) in *. set (q := (M / 2 ^ n)%Z) in *.
  split.
  - assert (inject_Z q * inject_Z (2 ^ n) <= inject_Z M).
    { rewrite <- inject_Z_mult, <- Zle_Qle. lia. }
    nra.
  - assert (inject_Z (M + 1) <= inject_Z (q + 1) * inject_Z (2 ^ n)).
    { rewrite <- inject_Z_mult, <- Zle_Qle. lia. }
    nra.
Qed.

(** A mantissa with [d] digits at exponent [e] below 2^k has d + e <= k. *)
Lemma digits_exponent_bound (m : positive) (e k : Z) :
  inject_Z (Z.pos m) * (2 # 1) ^ e < (2 # 1) ^ k ->
  (Z.pos (digits2_pos m) + e <= k)%Z.
Proof.
  intros H. destruct (digits2_bounds m) as [L _].
  assert (B : (2 # 1) ^ (Z.pos (digits2_pos m) - 1 + e) < (2 # 1) ^ k).
  { rewrite pow2_add, <- pow2_Z by lia.
    pose proof (pow2_pos e).
    assert (inject_Z (2 ^ (Z.pos (digits2_pos m) - 1)) <= inject_Z (Z.pos m))
      by (rewrite <- Zle_Qle; exact L).
    nra. }
  apply pow2_lt_inv in B. lia.
Qed.

(** First half of [binary_round_aux]: shift to the target exponent and round
    the mantissa. *)
Lemma round_step (M e : Z) (l : location) (y : Q) :
  (0 <= M)%Z ->
  inject_Z M * (2 # 1) ^ e <= y ->
  y <= inject_Z (M + 1) * (2 # 1) ^ e ->
  y < (2 # 1) ^ 9 ->
  (l = loc_Exact -> y == inject_Z M * (2 # 1) ^ e) ->
  (l = loc_Exact \/ (e <= -44)%Z) ->
  forall r1 e1, shr_fexp prec emax M e l = (r1, e1) ->
  let M2 := round_nearest_even (shr_m r1) (loc_of_shr_record r1) in
  (0 <= M2)%Z /\ Qabs (inject_Z M2 * (2 # 1) ^ e1 - y) <= (2 # 1) ^ (-44).
Proof.
  intros HM Hlo Hhi Hy Hex Hl r1 e1 E. unfold shr_fexp in E.
  set (n := (fexp prec emax (Zdigits2 M + e) - e)%Z) in *.
  destruct (loc_of_shr_record_of_loc M l) as [Hloc Hm].
  assert (Hm0 : (0 <= shr_m (shr_record_of_loc M l))%Z) by (rewrite Hm; exact HM).
  destruct (shr_m_spec (shr_record_of_loc M l) e n Hm0) as [S1 S2].
  rewrite E in S1, S2. simpl in S1, S2. rewrite Hm in S1.
  destruct (Z.ltb_spec 0 n) as [Hn|Hn].
  - (* a right shift by n > 0 *)
    assert (He1 : (e1 <= -44)%Z).
    { subst e1. unfold n. replace (e + (fexp prec emax (Zdigits2 M + e) - e))%Z
        with (fexp prec emax (Zdigits2 M + e)) by ring.
      unfold fexp, emin, prec, emax.
      destruct M as [|m|m]; [simpl (Zdigits2 0) | | lia].
      - unfold n, fexp, emin, prec, emax in Hn. simpl (Zdigits2 0) in Hn. lia.
      - simpl (Zdigits2 (Z.pos m)).
        assert (B : inject_Z (Z.pos m) * (2 # 1) ^ e < (2 # 1) ^ 9) by lra.
        apply digits_exponent_bound in B. lia. }
    destruct (shift_bounds M n e HM Hn) as [B1 B2].
    rewrite <- S2 in B1, B2. rewrite <- S1 in B1, B2.
    assert (Hq : (0 <= shr_m r1)%Z)
      by (rewrite S1; apply Z.div_pos; [exact HM | apply Z.pow_pos_nonneg; lia]).
    pose proof (pow2_le e1 (-44) He1) as Hp. pose proof (pow2_pos e1) as Hp0.
    assert (Y1 : inject_Z (shr_m r1) * (2 # 1) ^ e1 <= y)
      by (eapply Qle_trans; [exact B1 | exact Hlo]).
    assert (Y2 : y <= inject_Z (shr_m r1) * (2 # 1) ^ e1 + (2 # 1) ^ e1).
    { eapply Qle_trans; [exact Hhi|]. eapply Qle_trans; [exact B2|].
      rewrite inject_Z_plus. change (inject_Z 1) with 1. apply Qle_lteq. right. ring. }
    clear B1 B2 Hlo Hhi Hex Hy.
    set (a := (2 # 1) ^ e1) in *. set (c := (2 # 1) ^ (-44)) in *.
    cbv zeta.
    destruct (round_nearest_even_cases (shr_m r1) (loc_of_shr_record r1)) as [->| ->].
    + split; [exact Hq|]. apply Qabs_Qle_condition. split; lra.
    + split; [lia|]. rewrite inject_Z_plus. change (inject_Z 1) with 1.
      apply Qabs_Qle_condition. split; lra.
  - (* no shift *)
    assert (Hr1 : r1 = shr_record_of_loc M l).
    { unfold shr in E. destruct n; try lia; congruence. }
    subst e1. rewrite Hr1, Hloc, Hm. cbv zeta.
    rewrite inject_Z_plus in Hhi. change (inject_Z 1) with 1 in Hhi.
    pose proof (pow2_pos e) as Hp0. pose proof (pow2_pos (-44)) as Hc0.
    destruct Hl as [Hl|Hl].
    + subst l. cbn [round_nearest_even]. split; [exact HM|].
      pose proof (Hex eq_refl) as Hy'. clear Hex Hlo Hhi Hy.
      set (a := (2 # 1) ^ e) in *. set (c := (2 # 1) ^ (-44)) in *.
      apply Qabs_Qle_condition. split; lra.
    + pose proof (pow2_le e (-44) Hl) as Hp. clear Hex Hy.
      set (a := (2 # 1) ^ e) in *. set (c := (2 # 1) ^ (-44)) in *.
      destruct (round_nearest_even_cases M l) as [->| ->].
      * split; [exact HM|]. apply Qabs_Qle_condition. split; lra.
      * split; [lia|]. rewrite inject_Z_plus. change (inject_Z 1) with 1.
        apply Qabs_Qle_condition. split; lra.
Qed.

(** Second half of [binary_round_aux]: bring the rounded mantissa back into
    the format. *)
Lemma renorm_step (M2 e1 : Z) :
  (0 <= M2)%Z ->
  inject_Z M2 * (2 # 1) ^ e1 < (2 # 1) ^ 10 ->
  forall r3 e3, shr_fexp prec emax M2 e1 loc_Exact = (r3, e3) ->
  (0 <= shr_m r3)%Z /\
  inject_Z (shr_m r3) * (2 # 1) ^ e3 <= inject_Z M2 * (2 # 1) ^ e1 /\
  inject_Z M2 * (2 # 1) ^ e1 <= inject_Z (shr_m r3) * (2 # 1) ^ e3 + (2 # 1) ^ (-43) /\
  (shr_m r3 = 0 \/ e3 <= 971)%Z.
Proof.
  intros HM Hy r3 e3 E. unfold shr_fexp in E.
  set (n := (fexp prec emax (Zdigits2 M2 + e1) - e1)%Z) in *.
  assert (Hm0 : (0 <= shr_m (shr_record_of_loc M2 loc_Exact))%Z) by exact HM.
  destruct (shr_m_spec (shr_record_of_loc M2 loc_Exact) e1 n Hm0) as [S1 S2].
  rewrite E in S1, S2. simpl in S1, S2.
  assert (Hd : forall m, M2 = Z.pos m -> (Z.pos (digits2_pos m) + e1 <= 10)%Z).
  { intros m ->. apply digits_exponent_bound. exact Hy. }
  destruct (Z.ltb_spec 0 n) as [Hn|Hn].
  - assert (He3 : (e3 <= -43)%Z).
    { subst e3. unfold n.
      replace (e1 + (fexp prec emax (Zdigits2 M2 + e1) - e1))%Z
        with (fexp prec emax (Zdigits2 M2 + e1)) by ring.
      unfold fexp, emin, prec, emax.
      destruct M2 as [|m|m]; [simpl (Zdigits2 0) | | lia].
      - unfold n, fexp, emin, prec, emax in Hn. simpl (Zdigits2 0) in Hn. lia.
      - simpl (Zdigits2 (Z.pos m)). specialize (Hd m eq_refl). lia. }
    destruct (shift_bounds M2 n e1 HM Hn) as [B1 B2].
    rewrite <- S2 in B1, B2. rewrite <- S1 in B1, B2.
    assert (Hq : (0 <= shr_m r3)%Z)
      by (rewrite S1; apply Z.div_pos; [exact HM | apply Z.pow_pos_nonneg; lia]).
    split; [exact Hq|]. split; [exact B1|]. split; [|right; lia].
    pose proof (pow2_le e3 (-43) He3) as Hp. pose proof (pow2_pos e1) as Hp1.
    rewrite !inject_Z_plus in B2. change (inject_Z 1) with 1 in B2.
    set (a := (2 # 1) ^ e3) in *. set (b := (2 # 1) ^ e1) in *.
    set (c := (2 # 1) ^ (-43)) in *. clear Hy. lra.
  - assert (Hr3 : r3 = shr_record_of_loc M2 loc_Exact).
    { unfold shr in E. destruct n; try lia; congruence. }
    subst e3. rewrite Hr3. cbn [shr_record_of_loc shr_m].
    split; [exact HM|]. split; [apply Qle_refl|]. split.
    + pose proof (pow2_pos (-43)). set (c := (2 # 1) ^ (-43)) in *.
      set (b := inject_Z M2 * (2 # 1) ^ e1). lra.
    + destruct M2 as [|m|m]; [left; reflexivity | right | lia].
      specialize (Hd m eq_refl). lia.
Qed.

Lemma pow2_error_budget : (2 # 1) ^ (-44) + (2 # 1) ^ (-43) <= (2 # 1) ^ (-42).
Proof. apply Qle_bool_imp_le. vm_compute. reflexivity. Qed.

Lemma pow2_9_10 : (2 # 1) ^ 9 + (2 # 1) ^ (-44) < (2 # 1) ^ 10.
Proof. vm_compute. reflexivity. Qed.

(** [binary_round_aux] on a non-negative value below 512: nothing overflows
    and the result is within 2^-42 of the value. *)
Lemma binary_round_aux_error (M e : Z) (l : location) (y : Q) :
  (0 <= M)%Z ->
  inject_Z M * (2 # 1) ^ e <= y ->
  y <= inject_Z (M + 1) * (2 # 1) ^ e ->
  y < (2 # 1) ^ 9 ->
  (l = loc_Exact -> y == inject_Z M * (2 # 1) ^ e) ->
  (l = loc_Exact \/ (e <= -44)%Z) ->
  let r := binary_round_aux prec emax false M e l in
  (r = S754_zero false \/ exists m' e', r = S754_finite false m' e') /\
  Qabs (SF2Q r - y) <= (2 # 1) ^ (-42).
Proof.
  intros HM Hlo Hhi Hy Hex Hl. cbv zeta. unfold binary_round_aux.
  destruct (shr_fexp prec emax M e l) as [r1 e1] eqn:E1.
  destruct (round_step M e l y HM Hlo Hhi Hy Hex Hl r1 e1 E1) as [HM2 Herr].
  set (M2 := round_nearest_even (shr_m r1) (loc_of_shr_record r1)) in *.
  apply Qabs_Qle_condition in Herr. destruct Herr as [Herr1 Herr2].
  assert (Hy2 : inject_Z M2 * (2 # 1) ^ e1 < (2 # 1) ^ 10).
  { pose proof pow2_9_10. lra. }
  destruct (shr_fexp prec emax M2 e1 loc_Exact) as [r3 e3] eqn:E3.
  destruct (renorm_step M2 e1 HM2 Hy2 r3 e3 E3) as (HM3 & L3 & U3 & Hov).
  pose proof pow2_error_budget as Hb.
  destruct (shr_m r3) as [|m|m] eqn:Em; [| |lia].
  - split; [left; reflexivity|]. simpl SF2Q.
    change (inject_Z 0) with 0 in *.
    apply Qabs_Qle_condition. split; lra.
  - destruct Hov as [Hov|Hov]; [discriminate|].
    assert (Hle : (e3 <=? emax - prec)%Z = true)
      by (apply Z.leb_le; unfold emax, prec; lia).
    rewrite Hle. split; [right; eauto|]. simpl SF2Q.
    apply Qabs_Qle_condition. split; lra.
Qed.

(** Multiplication of two positive doubles whose product is below 512. *)
Lemma SFmul_error (m1 : positive) (e1 : Z) (m2 : positive) (e2 : Z) :
  SF2Q (S754_finite false m1 e1) * SF2Q (S754_finite false m2 e2) < (2 # 1) ^ 9 ->
  let r := SF64mul (S754_finite false m1 e1) (S754_finite false m2 e2) in
  (r = S754_zero false \/ exists m' e', r = S754_finite false m' e') /\
  Qabs (SF2Q r - SF2Q (S754_finite false m1 e1) * SF2Q (S754_finite false m2 e2))
    <= (2 # 1) ^ (-42).
Proof.
  intros Hy. unfold SF64mul, SFmul. cbn [xorb].
  assert (E : SF2Q (S754_finite false m1 e1) * SF2Q (S754_finite false m2 e2) ==
              inject_Z (Z.pos (m1 * m2)) * (2 # 1) ^ (e1 + e2)).
  { unfold SF2Q. rewrite pow2_add, Pos2Z.inj_mul, inject_Z_mult. ring. }
  apply binary_round_aux_error.
  - lia.
  - rewrite E. apply Qle_refl.
  - rewrite E, inject_Z_plus. change (inject_Z 1) with 1.
    pose proof (pow2_pos (e1 + e2)).
    set (a := (2 # 1) ^ (e1 + e2)) in *. set (b := inject_Z (Z.pos (m1 * m2))). lra.
  - exact Hy.
  - intros _. exact E.
  - left. reflexivity.
Qed.

Lemma new_location_exact (nb k : Z) : new_location nb k = loc_Exact -> k = 0%Z.
Proof.
  unfold new_location, new_location_even, new_location_odd.
  destruct (Z.even nb); destruct (Z.eqb_spec k 0); congruence.
Qed.

(** The integer quotient that [SFdiv] rounds. *)
Lemma SFdiv_core_bounds (m1 : positive) (e1 : Z) (m2 : positive) (e2 : Z) (y : Q) :
  y * (inject_Z (Z.pos m2) * (2 # 1) ^ e2) == inject_Z (Z.pos m1) * (2 # 1) ^ e1 ->
  y < (2 # 1) ^ 9 ->
  forall q e' l,
    SFdiv_core_binary prec emax (Z.pos m1) e1 (Z.pos m2) e2 = (q, e', l) ->
    (0 <= q)%Z /\
    inject_Z q * (2 # 1) ^ e' <= y /\
    y <= inject_Z (q + 1) * (2 # 1) ^ e' /\
    (l = loc_Exact -> y == inject_Z q * (2 # 1) ^ e') /\
    (e' <= -44)%Z.
Proof.
  intros Hy Hb q e' l E. unfold SFdiv_core_binary in E.
  cbn [Zdigits2] in E.
  set (d1 := Z.pos (digits2_pos m1)) in *. set (d2 := Z.pos (digits2_pos m2)) in *.
  set (e0 := Z.min (fexp prec emax (d1 + e1 - (d2 + e2))) (e1 - e2)) in *.
  set (s := (e1 - e2 - e0)%Z) in *.
  assert (Hs : (0 <= s)%Z) by (unfold s, e0; lia).
  set (m' := match s with
             | Z.pos _ => Z.shiftl (Z.pos m1) s
             | 0%Z => Z.pos m1
             | Z.neg _ => 0%Z
             end) in *.
  assert (Hm' : m' = (Z.pos m1 * 2 ^ s)%Z).
  { unfold m'. destruct s as [|p|p]; [lia | | lia].
    apply Z.shiftl_mul_pow2. lia. }
  destruct (Z.div_eucl m' (Z.pos m2)) as [q0 r0] eqn:Ed.
  injection E as <- <- <-.
  pose proof (Z_div_mod m' (Z.pos m2) ltac:(lia)) as Hdm. rewrite Ed in Hdm.
  destruct Hdm as [Hdm Hr].
  assert (Hq : (0 <= q0)%Z) by nia.
  (* everything in terms of A = 2^e0 * 2^e2 *)
  assert (Hpow : (2 # 1) ^ e1 == inject_Z (2 ^ s) * ((2 # 1) ^ e0 * (2 # 1) ^ e2)).
  { replace e1 with (s + (e0 + e2))%Z by (unfold s; ring).
    rewrite !pow2_add, <- pow2_Z by lia. ring. }
  assert (Hy' : y * inject_Z (Z.pos m2) * (2 # 1) ^ e2 ==
                inject_Z m' * ((2 # 1) ^ e0 * (2 # 1) ^ e2)).
  { rewrite Hm', inject_Z_mult. rewrite <- Qmult_assoc, Hy, Hpow. ring. }
  pose proof (pow2_pos e0) as P0. pose proof (pow2_pos e2) as P2.
  assert (Hdm' : inject_Z m' == inject_Z (Z.pos m2) * inject_Z q0 + inject_Z r0)
    by (rewrite <- inject_Z_mult, <- inject_Z_plus, Hdm; reflexivity).
  assert (Hr0 : 0 <= inject_Z r0) by (change 0 with (inject_Z 0); rewrite <- Zle_Qle; lia).
  assert (Hr1 : inject_Z r0 < inject_Z (Z.pos m2)) by (rewrite <- Zlt_Qlt; lia).
  assert (Hm2 : 0 < inject_Z (Z.pos m2)) by (change 0 with (inject_Z 0); rewrite <- Zlt_Qlt; lia).
  split; [exact Hq|].
  (* y * m2 == (m2 * q0 + r0) * 2^e0 *)
  assert (Hy2 : y * inject_Z (Z.pos m2) ==
                (inject_Z (Z.pos m2) * inject_Z q0 + inject_Z r0) * (2 # 1) ^ e0).
  { apply (Qmult_inj_r _ _ ((2 # 1) ^ e2)); [lra|].
    rewrite Hy', Hdm'. ring. }
  set (a := (2 # 1) ^ e0) in *. set (M2 := inject_Z (Z.pos m2)) in *.
  set (Q0 := inject_Z q0) in *. set (R0 := inject_Z r0) in *.
  split; [|split; [|split]].
  - apply (Qmult_le_r _ _ M2 Hm2). rewrite Hy2. nra.
  - rewrite inject_Z_plus. change (inject_Z 1) with 1. fold Q0.
    apply (Qmult_le_r _ _ M2 Hm2). rewrite Hy2. nra.
  - intros Hl. apply new_location_exact in Hl.
    assert (R0 == 0) by (unfold R0; rewrite Hl; reflexivity).
    apply (Qmult_inj_r _ _ M2); [lra|]. rewrite Hy2. rewrite H. ring.
  - (* the exponent *)
    assert (Hd : (d1 + e1 - (d2 + e2) <= 9)%Z).
    { destruct (digits2_bounds m1) as [L1 _]. destruct (digits2_bounds m2) as [_ U2].
      fold d1 in L1. fold d2 in U2.
      assert (B : (2 # 1) ^ (d1 - 1 + e1) < (2 # 1) ^ (9 + (d2 + e2))).
      { rewrite !(pow2_add _ e1), !(pow2_add 9), !(pow2_add d2).
        rewrite <- (pow2_Z (d1 - 1)), <- (pow2_Z d2) by lia.
        pose proof (pow2_pos e1) as P1.
        assert (I1 : inject_Z (2 ^ (d1 - 1)) <= inject_Z (Z.pos m1))
          by (rewrite <- Zle_Qle; exact L1).
        assert (I2 : inject_Z (Z.pos m2) < inject_Z (2 ^ d2))
          by (rewrite <- Zlt_Qlt; exact U2).
        fold M2 in I2.
        (* y * (M2 * 2^e2) == m1 * 2^e1, y < 2^9 *)
        assert (K : inject_Z (Z.pos m1) * (2 # 1) ^ e1 <
                    (2 # 1) ^ 9 * (inject_Z (2 ^ d2) * (2 # 1) ^ e2)).
        { rewrite <- Hy.
          pose proof (pow2_pos 9) as P9.
          set (b2 := (2 # 1) ^ e2) in *. set (c9 := (2 # 1) ^ 9) in *.
          set (D2 := inject_Z (2 ^ d2)) in *.
          assert (T1 : 0 < M2 * b2) by nra.
          assert (T2 : y * (M2 * b2) < c9 * (M2 * b2))
            by (apply Qmult_lt_r; assumption).
          assert (T3 : M2 * b2 < D2 * b2) by (apply Qmult_lt_r; assumption).
          assert (T4 : c9 * (M2 * b2) < c9 * (D2 * b2))
            by (apply Qmult_lt_l; assumption).
          lra. }
        set (b1 := (2 # 1) ^ e1) in *.
        set (X1 := inject_Z (2 ^ (d1 - 1))) in *.
        assert (T5 : X1 * b1 <= inject_Z (Z.pos m1) * b1)
          by (apply Qmult_le_compat_r; [exact I1 | lra]).
        lra. }
      apply pow2_lt_inv in B. lia. }
    unfold e0, fexp, emin, prec, emax. lia.
Qed.

(** Division of two positive doubles whose quotient [y] is below 512. *)
Lemma SFdiv_error (m1 : positive) (e1 : Z) (m2 : positive) (e2 : Z) (y : Q) :
  y * SF2Q (S754_finite false m2 e2) == SF2Q (S754_finite false m1 e1) ->
  y < (2 # 1) ^ 9 ->
  let r := SF64div (S754_finite false m1 e1) (S754_finite false m2 e2) in
  (r = S754_zero false \/ exists m' e', r = S754_finite false m' e') /\
  Qabs (SF2Q r - y) <= (2 # 1) ^ (-42).
Proof.
  intros Hy Hb. unfold SF64div, SFdiv. cbn [xorb].
  destruct (SFdiv_core_binary prec emax (Z.pos m1) e1 (Z.pos m2) e2)
    as [[q e'] l] eqn:E.
  assert (Hy' : y * (inject_Z (Z.pos m2) * (2 # 1) ^ e2) ==
                inject_Z (Z.pos m1) * (2 # 1) ^ e1).
  { unfold SF2Q in Hy. rewrite <- Hy. ring. }
  destruct (SFdiv_core_bounds m1 e1 m2 e2 y Hy' Hb q e' l E)
    as (Hq & Hlo & Hhi & Hex & He).
  apply binary_round_aux_error; auto.
Qed.

(** The same on primitive floats. *)
Lemma f64_div_error (a k : float) (m : positive) (e : Z) (mk : positive) (ek : Z) (y : Q) :
  Prim2SF a = S754_finite false m e ->
  Prim2SF k = S754_finite false mk ek ->
  y * f64_value k == f64_value a ->
  y < (2 # 1) ^ 9 ->
  (Prim2SF (a / k) = S754_zero false \/
   exists m' e', Prim2SF (a / k) = S754_finite false m' e') /\
  Qabs (f64_value (a / k) - y) <= (2 # 1) ^ (-42).
Proof.
  intros Ha Hk Hy Hb. unfold f64_value in *. rewrite div_spec, Ha, Hk in *.
  apply SFdiv_error; assumption.
Qed.

Lemma f64_mul_error (a k : float) (mk : positive) (ek : Z) :
  (Prim2SF a = S754_zero false \/ exists m e, Prim2SF a = S754_finite false m e) ->
  Prim2SF k = S754_finite false mk ek ->
  f64_value a * f64_value k < (2 # 1) ^ 9 ->
  (Prim2SF (a * k) = S754_zero false \/
   exists m' e', Prim2SF (a * k) = S754_finite false m' e') /\
  Qabs (f64_value (a * k) - f64_value a * f64_value k) <= (2 # 1) ^ (-42).
Proof.
  intros Ha Hk Hb. unfold f64_value in *. rewrite mul_spec, Hk in *.
  destruct Ha as [Ha|(m & e & Ha)]; rewrite Ha in *.
  - change (SF64mul (S754_zero false) (S754_finite false mk ek))
      with (S754_zero false).
    split; [left; reflexivity|]. cbn [SF2Q].
    apply Qabs_Qle_condition. pose proof (pow2_pos (-42)).
    set (c := (2 # 1) ^ (-42)) in *. split; lra.
  - apply SFmul_error; assumption.
Qed.

(** A valid mantissa has at most 53 digits, and exactly 53 when the exponent
    is not negative. *)
Lemma valid_digits (s : bool) (m : positive) (e : Z) :
  valid_binary (S754_finite s m e) = true ->
  (Z.pos (digits2_pos m) <= 53)%Z /\
  ((0 <= e)%Z -> Z.pos (digits2_pos m) = 53%Z).
Proof.
  unfold valid_binary, SpecFloat.valid_binary, bounded, canonical_mantissa, fexp, emin, prec, emax.
  intros V. apply andb_prop in V. destruct V as [V _].
  apply Z.eqb_eq in V. lia.
Qed.

Lemma pow2_inv (e : Z) :
  (e < 0)%Z -> (2 # 1) ^ e * inject_Z (2 ^ (- e)) == 1.
Proof.
  intros He. rewrite pow2_Z by lia. rewrite <- pow2_add.
  replace (e + - e)%Z with 0%Z by ring. reflexivity.
Qed.

(** [Math.round] of a non-negative double below 255.5 is an integer code. *)
Lemma f64_round_small (x : float) :
  (Prim2SF x = S754_zero false \/ exists m e, Prim2SF x = S754_finite false m e) ->
  f64_value x < 511 # 2 ->
  exists n : Z,
    (0 <= n <= 255)%Z /\
    f64_round x = (if (n =? 0)%Z then 0%float else f64_of_Z n) /\
    inject_Z n <= f64_value x + (1 # 2) /\
    f64_value x + (1 # 2) < inject_Z n + 1.
Proof.
  intros Hx Hb. destruct Hx as [Hx|(m & e & Hx)].
  - exists 0%Z. unfold f64_value, f64_round. rewrite Hx.
    apply (Float64.Prim2SF_zero x false) in Hx. subst x.
    split; [lia|]. split; [reflexivity|]. cbn [SF2Q].
    change (inject_Z 0) with 0. split; lra.
  - pose proof (Prim2SF_valid x) as V. rewrite Hx in V.
    destruct (valid_digits false m e V) as [Hd Hd53].
    unfold f64_value in *. rewrite Hx in *. cbn [SF2Q] in *.
    unfold f64_round. rewrite Hx.
    destruct (Z.leb_spec 0 e) as [He|He].
    + exfalso. specialize (Hd53 He).
      destruct (digits2_bounds m) as [L _]. rewrite Hd53 in L.
      assert (I : inject_Z (2 ^ (53 - 1)) <= inject_Z (Z.pos m))
        by (rewrite <- Zle_Qle; exact L).
      pose proof (pow2_le 0 e He) as P. change ((2 # 1) ^ 0) with 1 in P.
      change (inject_Z (2 ^ (53 - 1))) with (4503599627370496 # 1) in I.
      set (a := (2 # 1) ^ e) in *. set (M := inject_Z (Z.pos m)) in *.
      nra.
    + cbn [cond_Zopp].
      set (d := (2 ^ (- e))%Z).
      assert (Hd0 : (0 < d)%Z) by (apply Z.pow_pos_nonneg; lia).
      set (n := ((2 * Z.pos m + d) / (2 * d))%Z).
      assert (Hn0 : (0 <= n)%Z) by (apply Z.div_pos; lia).
      pose proof (Z.mul_div_le (2 * Z.pos m + d) (2 * d) ltac:(lia)) as L.
      pose proof (Z.mul_succ_div_gt (2 * Z.pos m + d) (2 * d) ltac:(lia)) as U.
      fold n in L, U.
      pose proof (pow2_inv e He) as Hinv. fold d in Hinv.
      pose proof (pow2_pos e) as Hp.
      assert (D0 : 0 < inject_Z d)
        by (change 0 with (inject_Z 0); rewrite <- Zlt_Qlt; exact Hd0).
      assert (L' : inject_Z n * (2 * inject_Z d) <= 2 * inject_Z (Z.pos m) + inject_Z d).
      { change 2 with (inject_Z 2).
        rewrite <- !inject_Z_mult, <- inject_Z_plus, <- Zle_Qle. lia. }
      assert (U' : 2 * inject_Z (Z.pos m) + inject_Z d < (inject_Z n + 1) * (2 * inject_Z d)).
      { change 2 with (inject_Z 2). change 1 with (inject_Z 1).
        rewrite <- !inject_Z_mult, <- !inject_Z_plus, <- inject_Z_mult, <- Zlt_Qlt. lia. }
      set (a := (2 # 1) ^ e) in *. set (M := inject_Z (Z.pos m)) in *.
      set (D := inject_Z d) in *. set (N := inject_Z n) in *.
      assert (HM : M == 1 * M * a * D) by (rewrite <- Qmult_assoc, Hinv; ring).
      assert (Lq : N <= 1 * M * a + (1 # 2)).
      { apply (Qmult_le_r _ _ (2 * D)); [lra|]. nra. }
      assert (Uq : 1 * M * a + (1 # 2) < N + 1).
      { apply (Qmult_lt_r _ _ (2 * D)); [lra|]. nra. }
      exists n. split; [|split; [reflexivity|split; assumption]].
      split; [exact Hn0|].
      assert (N < 256) by lra.
      unfold N in H. change 256 with (inject_Z 256) in H.
      rewrite <- Zlt_Qlt in H. lia.
Qed.

(** A double in [0, 4.08]: a zero, or positive with a value of at most that
    of 4.08. *)
Lemma in_range_cases (v : float) :
  (0 <=? v)%float = true ->
  (v <=? 0x1.051eb851eb852p+2)%float = true ->
  (v = 0%float \/ v = (-0)%float) \/
  exists m e, Prim2SF v = S754_finite false m e /\
              f64_value v <= f64_value 0x1.051eb851eb852p+2.
Proof.
  rewrite !FloatAxioms.leb_spec. unfold SFleb.
  change (Prim2SF 0) with (S754_zero false).
  replace (Prim2SF 0x1.051eb851eb852p+2)
    with (S754_finite false 4593671619917906 (-50)) by (vm_compute; reflexivity).
  pose proof (Prim2SF_valid v) as V. unfold f64_value.
  replace (Prim2SF 0x1.051eb851eb852p+2)
    with (S754_finite false 4593671619917906 (-50)) by (vm_compute; reflexivity).
  destruct (Prim2SF v) as [s|s| |s m e] eqn:E; cbn [SFcompare]; try discriminate.
  - intros _ _. left. apply Float64.Prim2SF_zero in E. destruct s; auto.
  - destruct s; intros; discriminate.
  - destruct s; [discriminate|]. intros _ H. right. exists m, e.
    split; [reflexivity|].
    destruct (valid_digits false m e V) as [Hd _].
    destruct (digits2_bounds m) as [_ U].
    destruct (e ?= -50)%Z eqn:C; [| |discriminate].
    + apply Z.compare_eq in C. subst e.
      assert (Hm : (Z.pos m <= 4593671619917906)%Z).
      { destruct (Pos.compare_cont Eq m 4593671619917906) eqn:Cm; try discriminate.
        - apply Pcompare_Eq_eq in Cm. subst m. apply Z.le_refl.
        - apply Z.lt_le_incl, Pos2Z.pos_lt_pos, Pos.compare_lt_iff. exact Cm. }
      apply Qmult_le_compat_r; [|apply Qlt_le_weak, pow2_pos].
      apply Qmult_le_l; [reflexivity|]. rewrite <- Zle_Qle. exact Hm.
    + apply Z.compare_lt_iff in C.
      assert (I : inject_Z (Z.pos m) < inject_Z (2 ^ 53)).
      { rewrite <- Zlt_Qlt. eapply Z.lt_le_trans; [exact U|].
        apply Z.pow_le_mono_r; lia. }
      assert (He51 : (e <= -51)%Z) by (change (e < -50)%Z in C; clear - C; lia).
      pose proof (pow2_le e (-51) He51) as P. pose proof (pow2_pos e) as P0.
      change (inject_Z (2 ^ 53)) with (9007199254740992 # 1) in I.
      assert (P' : (2 # 1) ^ (-51) == 1 # 2251799813685248) by reflexivity.
      assert (K' : 4 <= 1 * inject_Z 4593671619917906 * (2 # 1) ^ (-50))
        by (apply Qle_bool_imp_le; vm_compute; reflexivity).
      cbn [SF2Q].
      set (a := (2 # 1) ^ e) in *. set (M := inject_Z (Z.pos m)) in *.
      set (c := (2 # 1) ^ (-51)) in *.
      set (k := 1 * inject_Z 4593671619917906 * (2 # 1) ^ (-50)) in *.
      assert (T1 : M * a <= (9007199254740992 # 1) * a)
        by (apply Qmult_le_compat_r; lra).
      assert (T2 : (9007199254740992 # 1) * a <= (9007199254740992 # 1) * c)
        by (apply Qmult_le_l; [reflexivity | exact P]).
      lra.
Qed.
End Rounding.

(* ===================================================================== *)
(** * Coincidence correction *)
(* ===================================================================== *)

Section CoincidenceFacts.
Import Coincidence.

Lemma accidentalRate_exact (rateA rateB w : Q) :
  (accidentalRate rateA rateB w == 2 * w * rateA * rateB)%Q.
Proof. unfold accidentalRate, int. simpl. ring. Qed.

Lemma trueRate_exact_nonneg (coincidenceRate rateA rateB w : Q) :
  (0 <= trueRate coincidenceRate rateA rateB w)%Q.
Proof. unfold trueRate, int. simpl. apply Q.le_max_l. Qed.

Lemma trueRate_f64_not_negative (coincidenceRate rateA rateB w : float) :
  (trueRate coincidenceRate rateA rateB w <? 0)%float = false.
Proof. unfold trueRate. apply Float64.max_0_not_negative. Qed.

(** C1. The coincidence correction computes
    accidentalRate = 2 * w * rateA * rateB and
    trueCoincidenceRate = max(0, coincidenceRate - accidentalRate), and the
    true rate is never negative.  Read in exact arithmetic (first part) and
    on binary64 (second part: the code's product [2 * rate1 * rate2 * w],
    [Math.max] against 0, and a result that is never below zero, whatever
    the inputs); then the example of the claim: a coincidence rate of 1
    with an accidental rate of 2 gives a true rate of 0. *)
Theorem coincidence_correction :
  (forall rateA rateB coincidenceRate w : Q,
      (accidentalRate rateA rateB w == 2 * w * rateA * rateB)%Q /\
      (trueRate coincidenceRate rateA rateB w ==
         Qmax 0 (coincidenceRate - accidentalRate rateA rateB w))%Q /\
      (0 <= trueRate coincidenceRate rateA rateB w)%Q) /\
  (forall rateA rateB coincidenceRate w : float,
      accidentalRate rateA rateB w = (2 * rateA * rateB * w)%float /\
      trueRate coincidenceRate rateA rateB w =
        Math_max 0%float (coincidenceRate - accidentalRate rateA rateB w)%float /\
      (trueRate coincidenceRate rateA rateB w <? 0)%float = false) /\
  accidentalRate 1%float 1%float 1%float = 2%float /\
  trueRate 1%float 1%float 1%float 1%float = 0%float.
Proof.
  split; [|split; [|split]].
  - intros rateA rateB coincidenceRate w. split; [|split].
    + apply accidentalRate_exact.
    + reflexivity.
    + apply trueRate_exact_nonneg.
  - intros rateA rateB coincidenceRate w. split; [|split].
    + reflexivity.
    + reflexivity.
    + apply trueRate_f64_not_negative.
  - reflexivity.
  - reflexivity.
Qed.

(** The worked example of the unit tests: singles 1000 and 2000,
    50 coincidences in 10 s, window 25 ns. *)
Example coincidence_worked_example :
  let rateA := (1000 / 10)%float in
  let rateB := (2000 / 10)%float in
  let coincidenceRate := (50 / 10)%float in
  let w := lit (num := float) 25 1000000000 in
  rateA = 100%float /\ rateB = 200%float /\ coincidenceRate = 5%float /\
  (abs (accidentalRate rateA rateB w - lit 1 1000) <? lit 1 1000000)%float = true /\
  (abs (trueRate coincidenceRate rateA rateB w - lit 4999 1000) <? lit 1 1000)%float = true.
Proof. vm_compute. repeat split. Qed.
End CoincidenceFacts.

(* ===================================================================== *)
(** * Voltage and byte conversions *)
(* ===================================================================== *)

Section ValidationFacts.
Import Validation.
Local Open Scope float_scope.

(** The constants on binary64: [4.08] is the double nearest to 408/100. *)
Lemma VOLTAGE_MAX_f64 : VOLTAGE_MAX = 0x1.051eb851eb852p+2.
Proof. reflexivity. Qed.

Lemma VOLTAGE_MIN_f64 : VOLTAGE_MIN = 0.
Proof. reflexivity. Qed.

Lemma BYTE_MAX_f64 : BYTE_MAX = 255.
Proof. reflexivity. Qed.

Lemma BYTE_MIN_f64 : BYTE_MIN = 0.
Proof. reflexivity. Qed.

Lemma clampVoltage_f64 (v : float) :
  clampVoltage v = f64_max 0 (f64_min 0x1.051eb851eb852p+2 v).
Proof. reflexivity. Qed.

Lemma clampVoltage_below (v : float) : (v <? 0) = true -> clampVoltage v = 0.
Proof.
  intros E. rewrite clampVoltage_f64.
  assert (Hk : (v <? 0x1.051eb851eb852p+2) = true)
    by (apply Float64.ltb_neg_pos; [exact E | reflexivity]).
  assert (Hm : f64_min 0x1.051eb851eb852p+2 v = v).
  { unfold f64_min. destruct (Float64.ltb_not_nan _ _ E) as [-> _]. simpl.
    rewrite (Float64.ltb_asym _ _ Hk), Hk. reflexivity. }
  rewrite Hm. apply Float64.max_0_negative, E.
Qed.

Lemma clampVoltage_above (v : float) :
  (VOLTAGE_MAX <? v) = true -> clampVoltage v = VOLTAGE_MAX.
Proof.
  rewrite VOLTAGE_MAX_f64, clampVoltage_f64. intros E.
  assert (Hm : f64_min 0x1.051eb851eb852p+2 v = 0x1.051eb851eb852p+2).
  { unfold f64_min. destruct (Float64.ltb_not_nan _ _ E) as [_ ->]. simpl.
    rewrite E. reflexivity. }
  rewrite Hm. reflexivity.
Qed.

(** What [Math.min(4.08, v)] is for a number [v]: not NaN, at most 4.08. *)
Lemma min_VOLTAGE_MAX (v : float) :
  is_nan v = false ->
  is_nan (f64_min 0x1.051eb851eb852p+2 v) = false /\
  (f64_min 0x1.051eb851eb852p+2 v <=? 0x1.051eb851eb852p+2) = true.
Proof.
  intros Hv. unfold f64_min. rewrite Hv. simpl.
  destruct (0x1.051eb851eb852p+2 <? v) eqn:E1; [split; reflexivity|].
  destruct (v <? 0x1.051eb851eb852p+2) eqn:E2.
  - split; [exact Hv | apply Float64.ltb_leb, E2].
  - split; [exact Hv|]. apply Float64.not_ltb_leb; [exact Hv | reflexivity | exact E1].
Qed.

(** What [Math.max(0, w)] is for a number [w] that is at most [k]. *)
Lemma max_0_bounds (w k : float) :
  is_nan w = false -> (w <=? k) = true -> (0 <=? k) = true ->
  (0 <=? f64_max 0 w) = true /\ (f64_max 0 w <=? k) = true.
Proof.
  intros Hw Hk H0. unfold f64_max. rewrite Hw. simpl.
  destruct (0 <? w) eqn:E1.
  - split; [apply Float64.ltb_leb, E1 | exact Hk].
  - destruct (w <? 0); (split; [reflexivity | exact H0]).
Qed.

Lemma clampVoltage_in_range (v : float) :
  is_nan v = false ->
  (VOLTAGE_MIN <=? clampVoltage v) = true /\
  (clampVoltage v <=? VOLTAGE_MAX) = true.
Proof.
  intros Hv. rewrite VOLTAGE_MIN_f64, VOLTAGE_MAX_f64, clampVoltage_f64.
  destruct (min_VOLTAGE_MAX v Hv) as [Hn Hle].
  apply max_0_bounds; [exact Hn | exact Hle | reflexivity].
Qed.

(** C9. [voltageToByte] never throws: it clamps a number into [0, 4.08] and
    converts with round(v / 4.08 * 255), so that voltages below the range give
    0 and voltages above give 255; [byteToVoltage] throws [ValidationError]
    for a byte outside 0..255, for NaN and for a value that is not a number,
    and returns (byte / 255) * 4.08 otherwise.  (On binary64; "a number" is
    what the validators of this file accept as one: not NaN.) *)
Theorem voltage_byte_conversions :
  (forall v : float,
      voltageToByte v =
        Returns (Math_round (clampVoltage v / VOLTAGE_MAX * BYTE_MAX))) /\
  (forall v : float, is_nan v = false ->
      (VOLTAGE_MIN <=? clampVoltage v) = true /\
      (clampVoltage v <=? VOLTAGE_MAX) = true) /\
  (forall v : float, (v <? VOLTAGE_MIN) = true -> voltageToByte v = Returns 0) /\
  (forall v : float, (VOLTAGE_MAX <? v) = true -> voltageToByte v = Returns 255) /\
  (forall byte : jsval float,
      match byte with
      | JNumber b => is_nan b || (b <? 0) || (255 <? b)
      | _ => true
      end = true ->
      exists expected,
        byteToVoltage byte = Throws (ValidationError "byte" byte expected)) /\
  (forall b : float,
      is_nan b = false -> (b <? 0) = false -> (255 <? b) = false ->
      byteToVoltage (JNumber b) = Returns (b / 255 * VOLTAGE_MAX)).
Proof.
  repeat split.
  - apply clampVoltage_in_range; assumption.
  - apply clampVoltage_in_range; assumption.
  - intros v E. unfold voltageToByte. cbv zeta.
    rewrite (clampVoltage_below v E). reflexivity.
  - intros v E. unfold voltageToByte. cbv zeta.
    rewrite (clampVoltage_above v E). reflexivity.
  - intros byte Hrej. unfold byteToVoltage, validateByte.
    destruct byte as [b| | | |]; try (simpl; eauto; fail).
    rewrite BYTE_MIN_f64, BYTE_MAX_f64.
    change (isNaN b) with (is_nan b).
    change (num_ltb b 0) with (b <? 0). change (num_ltb 255 b) with (255 <? b).
    destruct (is_nan b); [simpl; eauto|].
    simpl in Hrej. rewrite Hrej. simpl. eauto.
  - intros b Hn Hlo Hhi. unfold byteToVoltage, validateByte.
    rewrite BYTE_MIN_f64, BYTE_MAX_f64.
    change (isNaN b) with (is_nan b).
    change (num_ltb b 0) with (b <? 0). change (num_ltb 255 b) with (255 <? b).
    rewrite Hn, Hlo, Hhi. reflexivity.
Qed.

Lemma voltage_byte_conversions_witness :
  voltageToByte (-1) = Returns 0 /\
  voltageToByte 5 = Returns 255 /\
  (exists expected,
      byteToVoltage (JNumber 256) = Throws (ValidationError "byte" (JNumber 256) expected)) /\
  byteToVoltage (JNumber 128) = Returns (128 / 255 * VOLTAGE_MAX).
Proof.
  destruct voltage_byte_conversions as (_ & _ & Hlo & Hhi & Hrej & Hok).
  split; [apply Hlo; reflexivity|].
  split; [apply Hhi; reflexivity|].
  split; [apply Hrej; reflexivity|].
  apply Hok; reflexivity.
Defined.

(** NaN goes through [voltageToByte] unclamped and comes back as NaN; still
    nothing is thrown. *)
Example voltageToByte_NaN : voltageToByte nan = Returns nan.
Proof. reflexivity. Qed.

(** The values the unit tests of validation.ts expect. *)
Example voltageToByte_tests :
  voltageToByte 0 = Returns 0 /\
  voltageToByte VOLTAGE_MAX = Returns 255 /\
  voltageToByte (lit 204 100) = Returns 128 /\
  byteToVoltage (JNumber 0) = Returns 0 /\
  byteToVoltage (JNumber 255) = Returns VOLTAGE_MAX.
Proof. repeat split. Qed.

End ValidationFacts.

Section RoundTrip.
Import Validation.
Local Open Scope Q_scope.

Lemma clampVoltage_exact (v : Q) :
  0 <= v -> v <= 408 # 100 -> clampVoltage v == v.
Proof.
  intros H0 H1. unfold clampVoltage, clamp, VOLTAGE_MIN, VOLTAGE_MAX. simpl.
  rewrite (Q.min_r _ _ H1). apply Q.max_r. exact H0.
Qed.

(** The byte code of a voltage in range, as an integer. *)
Lemma voltageToByte_exact (v : Q) :
  voltageToByte v = Returns (inject_Z (Qfloor (clampVoltage v / (408 # 100) * 255 + (1 # 2)))).
Proof. reflexivity. Qed.

Lemma code_bounds (v : Q) (n : Z) :
  0 <= v -> v <= 408 # 100 ->
  n = Qfloor (clampVoltage v / (408 # 100) * 255 + (1 # 2)) ->
  inject_Z n <= v / (408 # 100) * 255 + (1 # 2) /\
  v / (408 # 100) * 255 + (1 # 2) < inject_Z n + 1.
Proof.
  intros H0 H1 ->. rewrite (clampVoltage_exact v H0 H1). split.
  - apply Qfloor_le.
  - pose proof (Qlt_floor (v / (408 # 100) * 255 + (1 # 2))) as L.
    rewrite inject_Z_plus in L. exact L.
Qed.

Lemma code_in_byte_range (v : Q) (n : Z) :
  0 <= v -> v <= 408 # 100 ->
  n = Qfloor (clampVoltage v / (408 # 100) * 255 + (1 # 2)) ->
  (0 <= n <= 255)%Z.
Proof.
  intros H0 H1 Hn. destruct (code_bounds v n H0 H1 Hn) as [Hlo Hhi].
  unfold Qdiv in *. change (/ (408 # 100)) with (100 # 408) in *.
  assert (L : inject_Z (-1) < inject_Z n)
    by (change (inject_Z (-1)) with (-1 # 1); lra).
  assert (U : inject_Z n < inject_Z 256)
    by (change (inject_Z 256) with (256 # 1); lra).
  rewrite <- Zlt_Qlt in L, U. lia.
Qed.

(** The round trip in exact arithmetic: both conversions return, and the
    voltage read back is within 4.08/255 of the voltage written. *)
Lemma voltage_round_trip_exact (v : Q) :
  VOLTAGE_MIN <= v -> v <= VOLTAGE_MAX ->
  exists b v',
    voltageToByte v = Returns b /\
    byteToVoltage (JNumber b) = Returns v' /\
    Qabs (v' - v) <= VOLTAGE_MAX / BYTE_MAX.
Proof.
  change (@VOLTAGE_MIN Q exact) with (0 # 1).
  change (@VOLTAGE_MAX Q exact) with (408 # 100).
  change (@BYTE_MAX Q exact) with (255 # 1).
  intros H0 H1.
  set (n := Qfloor (clampVoltage v / (408 # 100) * 255 + (1 # 2))).
  destruct (code_bounds v n H0 H1 eq_refl) as [Hlo Hhi].
  destruct (code_in_byte_range v n H0 H1 eq_refl) as [Hn0 Hn255].
  exists (inject_Z n), (inject_Z n / 255 * (408 # 100)).
  split; [apply voltageToByte_exact|]. split.
  - unfold byteToVoltage, validateByte, BYTE_MIN, BYTE_MAX, VOLTAGE_MAX, int, bind.
    simpl.
    assert (A : Qle_bool 0 (inject_Z n) = true)
      by (apply Qle_bool_iff; change 0 with (inject_Z 0); rewrite <- Zle_Qle; lia).
    assert (B : Qle_bool (inject_Z n) 255 = true)
      by (apply Qle_bool_iff; change 255 with (inject_Z 255); rewrite <- Zle_Qle; lia).
    rewrite A, B. reflexivity.
  - apply Qabs_Qle_condition.
    unfold Qdiv in *. change (/ (408 # 100)) with (100 # 408) in *.
    change (/ 255) with (1 # 255) in *. split; lra.
Qed.

(** At 1 V the code is 63 and the voltage read back is 1.008 V. *)
Example voltage_round_trip_at_1V :
  voltageToByte (1 # 1) = Returns (63 # 1) /\
  exists v', byteToVoltage (JNumber (63 # 1)) = Returns v' /\ v' == 1008 # 1000.
Proof. split; [reflexivity|]. eexists. split; reflexivity. Qed.

(** The same round trip on binary64, at every millivolt from 0 to 4.08 V. *)
Example voltage_round_trip_f64_millivolts :
  forallb
    (fun k =>
       let v := lit (num := float) (Z.of_nat k) 1000 in
       match voltageToByte v with
       | Returns b =>
           match byteToVoltage (JNumber b) with
           | Returns v' => (abs (v' - v) <=? VOLTAGE_MAX / BYTE_MAX)%float
           | Throws _ => false
           end
       | Throws _ => false
       end)
    (seq 0 4081) = true.
Proof. vm_compute. reflexivity. Qed.
End RoundTrip.

Section RoundTripFloat64.
Import Validation.
Import Rounding.
Local Open Scope Q_scope.

(** [byteToVoltage] at each of the 256 codes, by evaluation: the voltage read
    back is within 2^-40 of n * 4.08 / 255. *)
Lemma byteToVoltage_codes_checked :
  forallb
    (fun k =>
       let n := Z.of_nat k in
       match byteToVoltage (JNumber (if (n =? 0)%Z then 0%float else f64_of_Z n)) with
       | Returns c =>
           Qle_bool
             (Qabs (f64_value c -
                    inject_Z n * f64_value 0x1.051eb851eb852p+2 / 255))
             ((2 # 1) ^ (-40))
       | Throws _ => false
       end)
    (seq 0 256) = true.
Proof. vm_compute. reflexivity. Qed.

Lemma byteToVoltage_code (n : Z) :
  (0 <= n <= 255)%Z ->
  exists c,
    byteToVoltage (JNumber (if (n =? 0)%Z then 0%float else f64_of_Z n)) = Returns c /\
    Qabs (f64_value c - inject_Z n * f64_value 0x1.051eb851eb852p+2 / 255)
      <= (2 # 1) ^ (-40).
Proof.
  intros Hn.
  pose proof byteToVoltage_codes_checked as T.
  rewrite forallb_forall in T.
  specialize (T (Z.to_nat n)).
  assert (Hin : In (Z.to_nat n) (seq 0 256)) by (apply in_seq; lia).
  specialize (T Hin). cbv zeta in T.
  rewrite Z2Nat.id in T by lia.
  destruct (byteToVoltage (JNumber (if (n =? 0)%Z then 0%float else f64_of_Z n)))
    as [c|err]; [|discriminate].
  exists c. split; [reflexivity|]. apply Qle_bool_imp_le. exact T.
Qed.

(** A positive double that is at most 4.08 is left as it is by the clamp. *)
Lemma clampVoltage_id (v : float) (m : positive) (e : Z) :
  Prim2SF v = S754_finite false m e ->
  (v <=? 0x1.051eb851eb852p+2)%float = true ->
  clampVoltage v = v.
Proof.
  intros Hv Hle. rewrite clampVoltage_f64.
  destruct (Float64.leb_not_nan _ _ Hle) as [Hn _].
  assert (Hmin : f64_min 0x1.051eb851eb852p+2 v = v).
  { unfold f64_min. rewrite Hn. simpl.
    rewrite (Float64.leb_ltb_false _ _ Hle).
    destruct (v <? 0x1.051eb851eb852p+2)%float; reflexivity. }
  rewrite Hmin. apply Float64.max_0_positive.
  rewrite FloatAxioms.ltb_spec, Hv. reflexivity.
Qed.

Lemma f64_value_VOLTAGE_MAX :
  f64_value 0x1.051eb851eb852p+2 == 4593671619917906 # 1125899906842624.
Proof. vm_compute. reflexivity. Qed.

Lemma f64_value_255 : f64_value 255 == 255.
Proof. vm_compute. reflexivity. Qed.

Lemma pow2_m42 : (2 # 1) ^ (-42) == 1 # 4398046511104.
Proof. vm_compute. reflexivity. Qed.

Lemma pow2_m40 : (2 # 1) ^ (-40) == 1 # 1099511627776.
Proof. vm_compute. reflexivity. Qed.

Lemma pow2_9 : (2 # 1) ^ 9 == 512.
Proof. vm_compute. reflexivity. Qed.


End RoundTripFloat64.

(* ===================================================================== *)
(** * Calibration fits and profiles *)
(* ===================================================================== *)

Section CalibrationFacts.
Import Calibration.

(** In exact arithmetic, when the raw values differ, the fitted line passes
    through both points. *)
Lemma twoPoint_interpolates (p1 p2 : Point Q) :
  ~ (raw p1 == raw p2)%Q ->
  exists c, twoPoint p1 p2 = Returns c /\
    (raw p1 * gain c + offset c == actual p1)%Q /\
    (raw p2 * gain c + offset c == actual p2)%Q.
Proof.
  intros Hne. eexists. split; [reflexivity|]. simpl.
  assert (D : ~ (raw p2 - raw p1 == 0)%Q) by (intros E; apply Hne; lra).
  split; field; exact D.
Qed.

(** C7. For every pair of calibration points, twoPoint(p1, p2) returns
    gain = (p2.actual - p1.actual) / (p2.raw - p1.raw) and
    offset = p1.actual - gain * p1.raw: on binary64 whatever the points (the
    code does not look at whether the raw values differ), and in exact
    arithmetic, where for p1.raw != p2.raw this is the line through both
    points.  For {raw:0, actual:0} and {raw:255, actual:4.08} the gain is the
    double nearest to 0.016 and the offset is 0. *)
Theorem twoPoint_formula :
  (forall p1 p2 : Point float,
      let g := ((actual p2 - actual p1) / (raw p2 - raw p1))%float in
      twoPoint p1 p2 =
        Returns {| gain := g; offset := (actual p1 - g * raw p1)%float |}) /\
  (forall p1 p2 : Point Q,
      ~ (raw p1 == raw p2)%Q ->
      exists c,
        twoPoint p1 p2 = Returns c /\
        (gain c == (actual p2 - actual p1) / (raw p2 - raw p1))%Q /\
        (offset c == actual p1 - gain c * raw p1)%Q /\
        (raw p1 * gain c + offset c == actual p1)%Q /\
        (raw p2 * gain c + offset c == actual p2)%Q) /\
  twoPoint {| raw := 0%float; actual := 0%float |}
           {| raw := 255%float; actual := lit 408 100 |} =
    Returns {| gain := lit 16 1000; offset := 0%float |}.
Proof.
  split; [|split].
  - intros p1 p2 g. reflexivity.
  - intros p1 p2 Hne.
    destruct (twoPoint_interpolates p1 p2 Hne) as (c & E & H1 & H2).
    exists c. split; [exact E|].
    unfold twoPoint in E. injection E as <-. simpl in *.
    repeat split; try reflexivity; assumption.
  - reflexivity.
Qed.

Lemma twoPoint_formula_witness :
  exists c,
    twoPoint {| raw := 0%Q; actual := 0%Q |}
             {| raw := 255%Q; actual := 408 # 100 |} = Returns c /\
    (gain c == 16 # 1000)%Q /\ (offset c == 0)%Q.
Proof.
  destruct twoPoint_formula as (_ & Hq & _).
  destruct (Hq {| raw := 0%Q; actual := 0%Q |}
               {| raw := 255%Q; actual := 408 # 100 |}) as (c & E & Hg & Ho & _).
  - vm_compute. discriminate.
  - exists c. split; [exact E|]. split.
    + rewrite Hg. vm_compute. reflexivity.
    + rewrite Ho, Hg. vm_compute. reflexivity.
Defined.

(** With equal raw values, [twoPoint] divides by zero: the gain is NaN or an
    infinity. *)
Lemma twoPoint_equal_raw (p1 p2 : Point float) :
  (raw p1 =? raw p2)%float = true ->
  exists c, twoPoint p1 p2 = Returns c /\
    (gain c = nan \/ gain c = infinity \/ gain c = neg_infinity).
Proof.
  intros E. eexists. split; [reflexivity|]. simpl.
  apply Float64.div_by_zero, Float64.sub_of_equal, E.
Qed.

Lemma multiPoint_too_few (points : list (Point float)) :
  (length points < 2)%nat ->
  multiPoint points = Throws (Error "At least 2 calibration points required").
Proof.
  intros H. unfold multiPoint.
  destruct (Nat.ltb_spec (length points) 2) as [_|H']; [reflexivity | lia].
Qed.

Lemma multiPoint_returns (points : list (Point float)) :
  (2 <= length points)%nat -> exists c, multiPoint points = Returns c.
Proof.
  intros H. unfold multiPoint.
  destruct (Nat.ltb_spec (length points) 2) as [H'|_]; [lia | eauto].
Qed.

(** C3 (as the code has it). Neither fitter detects degenerate input.
    [twoPoint] never fails: when p1.raw == p2.raw it returns a gain that is
    NaN or an infinity.  [multiPoint] fails with the insufficient-data error
    when given fewer than 2 points and returns for every longer list, also
    when all raw values are identical: no error is raised for them.  What it
    returns then depends on the rounding: for the points (1,1), (1,2) the
    gain and the offset are NaN (0/0), while for six points with the raw
    value 0.1 and the actual values 1..6 the rounded denominator is not zero
    and the result is finite, gain 16 and offset 1.9000000000000001. *)
Theorem fitters_on_degenerate_input :
  (forall p1 p2 : Point float, exists c, twoPoint p1 p2 = Returns c) /\
  (forall p1 p2 : Point float,
      (raw p1 =? raw p2)%float = true ->
      exists c, twoPoint p1 p2 = Returns c /\
        (gain c = nan \/ gain c = infinity \/ gain c = neg_infinity)) /\
  (forall points : list (Point float),
      (length points < 2)%nat ->
      multiPoint points = Throws (Error "At least 2 calibration points required") /\
      Spec.fails_with (multiPoint points) Spec.InsufficientDataError) /\
  (forall points : list (Point float),
      (2 <= length points)%nat -> exists c, multiPoint points = Returns c) /\
  (forall (x : float) (points : list (Point float)),
      (2 <= length points)%nat ->
      Forall (fun p => (raw p =? x)%float = true) points ->
      (exists c, multiPoint points = Returns c) /\
      ~ Spec.fails_with (multiPoint points) Spec.DegenerateCalibrationError) /\
  multiPoint [ {| raw := 1%float; actual := 1%float |};
               {| raw := 1%float; actual := 2%float |} ] =
    Returns {| gain := nan; offset := nan |} /\
  multiPoint (map (fun a => {| raw := lit 1 10; actual := a |})
                  [1; 2; 3; 4; 5; 6]%float) =
    Returns {| gain := 16%float; offset := 0x1.e666666666667p+0%float |}.
Proof.
  split; [|split; [|split; [|split; [|split; [|split]]]]].
  - intros p1 p2. eexists. reflexivity.
  - apply twoPoint_equal_raw.
  - intros points H. rewrite (multiPoint_too_few points H).
    split; [reflexivity|]. eexists. split; reflexivity.
  - apply multiPoint_returns.
  - intros x points H _. destruct (multiPoint_returns points H) as [c E].
    split; [exists c; exact E|].
    rewrite E. intros (e & E' & _). discriminate E'.
  - reflexivity.
  - vm_compute. reflexivity.
Qed.

Lemma fitters_on_degenerate_input_witness :
  (exists c, twoPoint {| raw := 1%float; actual := 1%float |}
                      {| raw := 1%float; actual := 2%float |} = Returns c /\
     (gain c = nan \/ gain c = infinity \/ gain c = neg_infinity)) /\
  Spec.fails_with (multiPoint [ {| raw := 1%float; actual := 1%float |} ])
    Spec.InsufficientDataError /\
  (exists c, multiPoint [ {| raw := 1%float; actual := 1%float |};
                          {| raw := 2%float; actual := 2%float |} ] = Returns c) /\
  ~ Spec.fails_with
      (multiPoint [ {| raw := 3%float; actual := 1%float |};
                    {| raw := 3%float; actual := 2%float |};
                    {| raw := 3%float; actual := 5%float |} ])
      Spec.DegenerateCalibrationError.
Proof.
  destruct fitters_on_degenerate_input as (_ & Heq & Hfew & Hmany & Hsame & _).
  split; [apply Heq; reflexivity|].
  split; [apply Hfew; simpl; lia|].
  split; [apply Hmany; simpl; lia|].
  apply (Hsame 3%float); [simpl; lia|].
  repeat constructor.
Defined.

(** C3, as the specification states it, fails: with p1.raw == p2.raw,
    [twoPoint] returns (gain Infinity, offset -Infinity) and no
    DegenerateCalibrationError is raised; with all raw values identical,
    [multiPoint] returns NaN coefficients, again without an error. *)
Lemma degenerate_input_not_rejected :
  twoPoint {| raw := 1%float; actual := 1%float |}
           {| raw := 1%float; actual := 2%float |} =
    Returns {| gain := infinity; offset := neg_infinity |} /\
  ~ Spec.fails_with
      (twoPoint {| raw := 1%float; actual := 1%float |}
                {| raw := 1%float; actual := 2%float |})
      Spec.DegenerateCalibrationError /\
  multiPoint [ {| raw := 1%float; actual := 1%float |};
               {| raw := 1%float; actual := 2%float |} ] =
    Returns {| gain := nan; offset := nan |} /\
  ~ Spec.fails_with
      (multiPoint [ {| raw := 1%float; actual := 1%float |};
                    {| raw := 1%float; actual := 2%float |} ])
      Spec.DegenerateCalibrationError.
Proof.
  split; [reflexivity|]. split; [intros (e & E & _); discriminate E|].
  split; [reflexivity|]. intros (e & E & _); discriminate E.
Qed.

(** A stored gain of 0 is falsy (so are -0 and NaN). *)
Lemma zero_is_falsy_f64 :
  truthy 0%float = false /\ truthy (-0)%float = false /\ truthy nan = false.
Proof. repeat split. Qed.

Lemma applyCounts_zero_gain_f64 (this : CalibrationProfile float) (c : Z) (r : float) :
  (0 <= c <= 7)%Z ->
  exists this',
    setGain this c 0%float = Returns this' /\
    gains this' !! c = Some 0%float /\
    offsets this' = offsets this /\
    applyCounts this' c r = (r + or_else (offsets this !! c) 0)%float /\
    getGain this' c = None.
Proof.
  intros Hc. unfold setGain, channel_out_of_range.
  destruct (Z.ltb_spec c 0) as [?|_]; [lia|].
  destruct (Z.ltb_spec 7 c) as [?|_]; [lia|].
  simpl. eexists. split; [reflexivity|].
  unfold applyCounts, getGain. simpl.
  rewrite lookup_insert_eq. repeat split.
  simpl. rewrite Float64.mul_1_r. reflexivity.
Qed.

Lemma applyCounts_zero_gain_exact (this : CalibrationProfile Q) (c : Z) (r : Q) :
  (0 <= c <= 7)%Z ->
  exists this',
    setGain this c 0%Q = Returns this' /\
    gains this' !! c = Some 0%Q /\
    offsets this' = offsets this /\
    (applyCounts this' c r == r + or_else (offsets this !! c) 0)%Q /\
    getGain this' c = None.
Proof.
  intros Hc. unfold setGain, channel_out_of_range.
  destruct (Z.ltb_spec c 0) as [?|_]; [lia|].
  destruct (Z.ltb_spec 7 c) as [?|_]; [lia|].
  simpl. eexists. split; [reflexivity|].
  unfold applyCounts, getGain. simpl.
  rewrite lookup_insert_eq. repeat split. simpl. ring.
Qed.

(** C10. For every channel c in 0..7 and raw count r, a gain explicitly set
    to 0 is treated as unset: [applyCounts] uses the default gain 1 and
    returns r + offset (on binary64 and in exact arithmetic), not offset,
    and [getGain] returns null (not 0).  The same holds for every falsy
    stored gain (0, -0, NaN). *)
Theorem applyCounts_zero_gain (c : Z) :
  (0 <= c <= 7)%Z ->
  (forall (this : CalibrationProfile float) (r : float),
      exists this',
        setGain this c 0%float = Returns this' /\
        gains this' !! c = Some 0%float /\
        offsets this' = offsets this /\
        applyCounts this' c r = (r + or_else (offsets this !! c) 0)%float /\
        getGain this' c = None) /\
  (forall (this : CalibrationProfile Q) (r : Q),
      exists this',
        setGain this c 0%Q = Returns this' /\
        gains this' !! c = Some 0%Q /\
        offsets this' = offsets this /\
        (applyCounts this' c r == r + or_else (offsets this !! c) 0)%Q /\
        getGain this' c = None) /\
  (forall (this : CalibrationProfile float) (g r : float),
      gains this !! c = Some g -> truthy g = false ->
      applyCounts this c r = (r + or_else (offsets this !! c) 0)%float /\
      getGain this c = None).
Proof.
  intros Hc. split; [|split].
  - intros this r. apply applyCounts_zero_gain_f64, Hc.
  - intros this r. apply applyCounts_zero_gain_exact, Hc.
  - intros this g r Hg Hf. unfold applyCounts, getGain, or_else at 1.
    rewrite Hg, Hf. split; [|reflexivity].
    simpl. rewrite Float64.mul_1_r. reflexivity.
Qed.
End CalibrationFacts.

Section CalibrationExamples.
Import Calibration.

Lemma applyCounts_zero_gain_witness :
  exists this',
    setGain (constructor None None) 3 0%float = Returns this' /\
    gains this' !! 3%Z = Some 0%float /\
    offsets this' = offsets (constructor (num := float) None None) /\
    applyCounts this' 3 10%float =
      (10 + or_else (offsets (constructor (num := float) None None) !! 3%Z) 0)%float /\
    getGain this' 3 = None.
Proof.
  destruct (applyCounts_zero_gain 3 ltac:(lia)) as (Hf & _ & _).
  exact (Hf (constructor None None) 10%float).
Defined.

(** Offset 5 and gain 0 on channel 3: a raw count of 10 is calibrated to 15
    (10 * 1 + 5), not to 5 (10 * 0 + 5), and the gain reads back as null. *)
Example applyCounts_gain_0_offset_5 :
  exists p1 p2,
    setOffset (constructor None None) 3 5%float = Returns p1 /\
    setGain p1 3 0%float = Returns p2 /\
    applyCounts p2 3 10%float = 15%float /\
    getGain p2 3 = None /\
    getOffset p2 3 = Some 5%float.
Proof. do 2 eexists. repeat split. Qed.
End CalibrationExamples.
Section ZeroVariance.
Import Calibration.
Local Open Scope Q_scope.

(** The sums of [multiPoint] over points that share one raw value [x]. *)
Lemma sums_of_identical_raw (x : Q) (points : list (Point Q)) (s0 : Sums Q) :
  Forall (fun p => raw p == x) points ->
  sumX (fold_left accumulate points s0) ==
    sumX s0 + inject_Z (Z.of_nat (length points)) * x /\
  sumXX (fold_left accumulate points s0) ==
    sumXX s0 + inject_Z (Z.of_nat (length points)) * (x * x).
Proof.
  revert s0. induction points as [|p points IH]; intros s0 F.
  - simpl. split; ring.
  - inversion F as [|p' l' Hp Fl]; subst.
    destruct (IH (accumulate s0 p) Fl) as [IX IXX].
    cbn [fold_left]. rewrite IX, IXX.
    cbn [accumulate sumX sumXX num_add num_mul exact].
    rewrite Hp.
    change (length (p :: points)) with (S (length points)).
    rewrite Nat2Z.inj_succ. unfold Z.succ. rewrite inject_Z_plus.
    split; ring.
Qed.

(** With all raw values identical, the denominator of the least-squares gain,
    n * sumXX - sumX * sumX, is zero in exact arithmetic. *)
Lemma multiPoint_zero_variance (x : Q) (points : list (Point Q)) :
  Forall (fun p => raw p == x) points ->
  let n := int (Z.of_nat (length points)) in
  let s := fold_left accumulate points
             {| sumX := int 0; sumY := int 0; sumXY := int 0; sumXX := int 0 |} in
  n * sumXX s - sumX s * sumX s == 0.
Proof.
  intros F n s.
  destruct (sums_of_identical_raw x points
              {| sumX := int 0; sumY := int 0; sumXY := int 0; sumXX := int 0 |} F)
    as [IX IXX].
  fold s in IX, IXX. rewrite IX, IXX.
  unfold n, int. cbn [lit exact sumX sumXX].
  change (Z.of_nat (length points) # 1) with (inject_Z (Z.of_nat (length points))).
  ring.
Qed.
End ZeroVariance.

(* ===================================================================== *)
(** * MockCD48: commands and rate measurement *)
(* ===================================================================== *)

Section MockFacts.
Import Mock.
Local Open Scope float_scope.

(** A disconnected device rejects [_executeCommand] at once: nothing is
    awaited and the object is not touched. *)
Lemma _executeCommand_disconnected (during_delay : interference) (this : MockCD48) :
  connected this = false ->
  _executeCommand during_delay this = (Throws (Error "Device not connected"), this).
Proof.
  intros H. unfold _executeCommand, mbind, get, throw. rewrite H. reflexivity.
Qed.

(** When [_executeCommand] goes through. *)
Lemma _executeCommand_accepted (during_delay : interference) (this : MockCD48) :
  connected this = true ->
  failCommands (during_delay this) = false ->
  disconnectAfter (during_delay this) = None ->
  _executeCommand during_delay this =
    (Returns tt,
     set_commandCount (commandCount (during_delay this) + 1) (during_delay this)).
Proof.
  intros Hc Hf Hd. unfold _executeCommand, mbind, get, throw, _delay, modify, ret.
  rewrite Hc. simpl. rewrite Hf. simpl. rewrite Hd. reflexivity.
Qed.

(** C5. Every command of the mock (getVersion, getCounts, getSettings,
    clearCounts, measureRate, measureCoincidenceRate, setRepeat,
    toggleRepeat), invoked while connected = false, fails with the
    not-connected error and leaves the object as it was; none succeeds. *)
Theorem commands_need_connection
    (c : command) (during_delay during_measurement : interference)
    (this : MockCD48) :
  connected this = false ->
  invoke c during_delay during_measurement this =
    (Throws (Error "Device not connected"), this) /\
  Spec.fails_with (fst (invoke c during_delay during_measurement this))
    Spec.NotConnectedError.
Proof.
  intros H.
  assert (E : invoke c during_delay during_measurement this =
              (Throws (Error "Device not connected"), this)).
  { destruct c; unfold invoke, getVersion, getCounts, getSettings, clearCounts,
      measureRate, measureCoincidenceRate, setRepeat, toggleRepeat;
      unfold mbind at 1; unfold mbind at 1;
      rewrite (_executeCommand_disconnected during_delay this H); reflexivity. }
  rewrite E. split; [reflexivity|].
  eexists. split; reflexivity.
Qed.

Lemma commands_need_connection_witness :
  invoke (MeasureRate 0 1) id id constructor =
    (Throws (Error "Device not connected"), constructor) /\
  Spec.fails_with (fst (invoke (MeasureRate 0 1) id id constructor))
    Spec.NotConnectedError.
Proof. apply commands_need_connection. reflexivity. Defined.

(** [measureRate] once the command is accepted and the channel is valid. *)
Lemma measureRate_accepted
    (during_delay during_measurement : interference)
    (this this1 : MockCD48) (channel : Z) (duration : float) :
  _executeCommand during_delay this = (Returns tt, this1) ->
  (0 <= channel <= 7)%Z ->
  let startCounts := count_at this1 channel in
  let endCounts := count_at (during_measurement this1) channel in
  let totalCounts := endCounts - startCounts in
  measureRate during_delay during_measurement channel duration this =
    (Returns {| RateMeasurement.channel := channel;
                RateMeasurement.duration := duration;
                RateMeasurement.counts := totalCounts;
                RateMeasurement.rate := totalCounts / duration;
                RateMeasurement.uncertainty :=
                  Math_sqrt (f64_max 0 totalCounts) / duration |},
     during_measurement this1).
Proof.
  intros Hx Hc. unfold measureRate. unfold mbind at 1. rewrite Hx.
  destruct (Z.ltb_spec channel 0) as [?|_]; [lia|].
  destruct (Z.ltb_spec 7 channel) as [?|_]; [lia|].
  reflexivity.
Qed.

(** C4. For a count delta counts >= 0 and a duration d > 0, measureRate
    returns counts = second snapshot - first snapshot on the channel,
    rate = counts / d and uncertainty = sqrt(counts) / d: the same double,
    bit for bit, except that for a delta of -0 the uncertainty is +0 where
    sqrt(-0)/d is -0 (equal as numbers). *)
Theorem measureRate_counts_rate
    (during_delay during_measurement : interference)
    (this this1 : MockCD48) (channel : Z) (d : float) :
  _executeCommand during_delay this = (Returns tt, this1) ->
  (0 <= channel <= 7)%Z ->
  let counts :=
    count_at (during_measurement this1) channel - count_at this1 channel in
  (0 <=? counts) = true ->
  (0 <? d) = true ->
  exists r,
    measureRate during_delay during_measurement channel d this =
      (Returns r, during_measurement this1) /\
    RateMeasurement.counts r = counts /\
    RateMeasurement.rate r = counts / d /\
    Spec.same_value_zero (RateMeasurement.uncertainty r) (Math_sqrt counts / d) = true /\
    (counts <> (-0) -> RateMeasurement.uncertainty r = Math_sqrt counts / d).
Proof.
  intros Hx Hc counts Hcounts Hd.
  eexists. split; [apply (measureRate_accepted _ _ _ _ _ _ Hx Hc)|].
  cbv zeta. fold counts. simpl.
  split; [reflexivity|]. split; [reflexivity|]. split.
  - destruct (Float64.leb_0_cases counts Hcounts) as [E|[E|E]].
    + rewrite (Float64.max_0_positive _ E). apply Float64.same_value_zero_refl.
    + rewrite E. apply Float64.same_value_zero_refl.
    + rewrite E.
      change (Math_sqrt (f64_max 0 (-0))) with 0.
      change (Math_sqrt (-0)) with (-0).
      rewrite (Float64.zero_div_pos d Hd), (Float64.neg_zero_div_pos d Hd).
      reflexivity.
  - intros Hnz. rewrite (Float64.max_0_nonneg counts Hcounts Hnz). reflexivity.
Qed.

(** C2 (as the code has it). With a negative count delta and d > 0,
    measureRate raises nothing: it returns the negative delta as counts,
    counts / d as the rate, and an uncertainty of 0. *)
Theorem measureRate_negative_delta
    (during_delay during_measurement : interference)
    (this this1 : MockCD48) (channel : Z) (d : float) :
  _executeCommand during_delay this = (Returns tt, this1) ->
  (0 <= channel <= 7)%Z ->
  let counts :=
    count_at (during_measurement this1) channel - count_at this1 channel in
  (counts <? 0) = true ->
  (0 <? d) = true ->
  exists r,
    measureRate during_delay during_measurement channel d this =
      (Returns r, during_measurement this1) /\
    RateMeasurement.counts r = counts /\
    RateMeasurement.rate r = counts / d /\
    RateMeasurement.uncertainty r = 0.
Proof.
  intros Hx Hc counts Hcounts Hd.
  eexists. split; [apply (measureRate_accepted _ _ _ _ _ _ Hx Hc)|].
  cbv zeta. fold counts. simpl.
  split; [reflexivity|]. split; [reflexivity|].
  rewrite (Float64.max_0_negative counts Hcounts).
  change (Math_sqrt 0) with 0. apply Float64.zero_div_pos, Hd.
Qed.
End MockFacts.

Section MockExamples.
Import Mock.
Local Open Scope float_scope.

Lemma measureRate_counts_rate_witness :
  let this := set_counts [10; 0; 0; 0; 0; 0; 0; 0] (set_connected true constructor) in
  let this1 := set_commandCount 1 this in
  let counting := set_counts [15; 0; 0; 0; 0; 0; 0; 0] in
  exists r,
    measureRate id counting 0 2 this = (Returns r, counting this1) /\
    RateMeasurement.counts r = 5 /\
    RateMeasurement.rate r = 5 / 2 /\
    Spec.same_value_zero (RateMeasurement.uncertainty r) (Math_sqrt 5 / 2) = true /\
    (5 <> (-0) -> RateMeasurement.uncertainty r = Math_sqrt 5 / 2).
Proof.
  exact (measureRate_counts_rate id (set_counts [15; 0; 0; 0; 0; 0; 0; 0])
           (set_counts [10; 0; 0; 0; 0; 0; 0; 0] (set_connected true constructor))
           (set_commandCount 1
              (set_counts [10; 0; 0; 0; 0; 0; 0; 0] (set_connected true constructor)))
           0 2 eq_refl (conj (Z.le_refl 0) (Zle_0_pos 7)) eq_refl eq_refl).
Defined.

Lemma measureRate_negative_delta_witness :
  let this := set_counts [10; 0; 0; 0; 0; 0; 0; 0] (set_connected true constructor) in
  let this1 := set_commandCount 1 this in
  let reset := set_counts [0; 0; 0; 0; 0; 0; 0; 0] in
  exists r,
    measureRate id reset 0 2 this = (Returns r, reset this1) /\
    RateMeasurement.counts r = -10 /\
    RateMeasurement.rate r = -10 / 2 /\
    RateMeasurement.uncertainty r = 0.
Proof.
  exact (measureRate_negative_delta id (set_counts [0; 0; 0; 0; 0; 0; 0; 0])
           (set_counts [10; 0; 0; 0; 0; 0; 0; 0] (set_connected true constructor))
           (set_commandCount 1
              (set_counts [10; 0; 0; 0; 0; 0; 0; 0] (set_connected true constructor)))
           0 2 eq_refl (conj (Z.le_refl 0) (Zle_0_pos 7)) eq_refl eq_refl).
Defined.

(** C2, as the specification states it, fails.  A connected mock holds 10
    counts on channel 0; while measureRate(0, 2) waits, the counters are reset
    (as clearCounts does, from another caller).  The call returns counts -10
    and rate -5 as an ordinary RateMeasurement: nothing is thrown, so no
    CounterAnomaly is reported. *)
Lemma negative_delta_returned_as_rate :
  let this := set_counts [10; 0; 0; 0; 0; 0; 0; 0] (set_connected true constructor) in
  let reset := set_counts [0; 0; 0; 0; 0; 0; 0; 0] in
  fst (measureRate id reset 0 2 this) =
    Returns {| RateMeasurement.channel := 0;
               RateMeasurement.duration := 2;
               RateMeasurement.counts := -10;
               RateMeasurement.rate := -5;
               RateMeasurement.uncertainty := 0 |} /\
  (-5 <? 0) = true /\
  ~ Spec.fails_with (fst (measureRate id reset 0 2 this)) Spec.CounterAnomaly.
Proof.
  cbv zeta. split; [reflexivity|]. split; [reflexivity|].
  intros (e & E & _). discriminate E.
Qed.
(** The integration tests of the mock, replayed.  A fresh mock rejects a
    command; once connected it answers; after [setDisconnectAfter(2)] the
    third command fails and leaves the mock disconnected; [clearCounts]
    zeroes the counters. *)
Example integration_connect_and_get_version :
  fst (getVersion id constructor) = Throws (Error "Device not connected") /\
  fst (connect id constructor) = Returns true /\
  isConnected (snd (connect id constructor)) = true /\
  fst (getVersion id (snd (connect id constructor))) = Returns "Mock v1.0.0"%string /\
  isConnected (snd (disconnect id (snd (connect id constructor)))) = false.
Proof. repeat split. Qed.

Example integration_unexpected_disconnect :
  let d0 := snd (connect id constructor) in
  let d1 := snd (setDisconnectAfter 2 d0) in
  let d2 := snd (getVersion id d1) in
  let d3 := snd (getCounts id 0 d2) in
  fst (getVersion id d1) = Returns "Mock v1.0.0"%string /\
  fst (getCounts id 0 d2) =
    Returns {| CountData.counts := [0; 0; 0; 0; 0; 0; 0; 0];
               CountData.coincidenceCounts := 0;
               CountData.timestamp := 0 |} /\
  fst (getSettings id d3) = Throws (Error "Device disconnected unexpectedly") /\
  isConnected (snd (getSettings id d3)) = false.
Proof. repeat split. Qed.

Example integration_clear_counts :
  let d0 := snd (connect id constructor) in
  let d1 := snd (setCounts [10; 20; 30; 40; 50; 60; 70; 80] d0) in
  let d2 := snd (clearCounts id d1) in
  counts d1 = [10; 20; 30; 40; 50; 60; 70; 80] /\
  fst (clearCounts id d1) = Returns true /\
  counts d2 = [0; 0; 0; 0; 0; 0; 0; 0] /\
  fst (setCounts [1; 2; 3] d0) = Throws (Error "Must provide 8 count values") /\
  fst (measureRate id id 10 1 d0) = Throws (Error "Invalid channel: 10").
Proof. repeat split. Qed.
End MockExamples.

(* ===================================================================== *)
(** * parseCounts *)
(* ===================================================================== *)

Section ParserFacts.
Import Parser.

Lemma no_space_app (a b : string) :
  no_space (a ++ b) = no_space a && no_space b.
Proof.
  induction a as [|c a IH]; simpl; [reflexivity|].
  rewrite IH. apply andb_assoc.
Qed.

Lemma split_from_clean (s tok : string) :
  no_space tok = true ->
  Forall (fun t => t <> ""%string /\ no_space t = true) (split_from tok s).
Proof.
  revert tok. induction s as [|c s IH]; intros tok Htok; simpl.
  - destruct (String.eqb_spec tok ""); [constructor|].
    constructor; [split; assumption | constructor].
  - destruct (is_space c) eqn:Ec.
    + destruct (String.eqb_spec tok "").
      * apply IH. reflexivity.
      * constructor; [split; assumption | apply IH; reflexivity].
    + apply IH. rewrite no_space_app, Htok. simpl. rewrite Ec. reflexivity.
Qed.

Lemma parse_all_Some (parseInteger : string -> option Z) (l : list string) (ns : list Z) :
  parse_all parseInteger l = Some ns <->
  Forall2 (fun t n => parseInteger t = Some n) l ns.
Proof.
  revert ns. induction l as [|t l IH]; intros ns; simpl.
  - split.
    + intros E. injection E as <-. constructor.
    + intros F. inversion F. reflexivity.
  - split.
    + destruct (parseInteger t) as [n|] eqn:Et; [|discriminate].
      destruct (parse_all parseInteger l) as [ns'|] eqn:El; [|discriminate].
      intros E. injection E as <-. constructor; [exact Et | apply IH; reflexivity].
    + intros F. inversion F as [|t' n l' ns' Et Fl]; subst.
      rewrite Et. apply IH in Fl. rewrite Fl. reflexivity.
Qed.

Lemma parse_all_None (parseInteger : string -> option Z) (l : list string) (t : string) :
  In t l -> parseInteger t = None -> parse_all parseInteger l = None.
Proof.
  induction l as [|t' l IH]; simpl; [tauto|].
  intros [->|Hin] Et.
  - rewrite Et. reflexivity.
  - rewrite (IH Hin Et). destruct (parseInteger t'); reflexivity.
Qed.

(** C6. parseCounts splits the reply on whitespace; given exactly 9 integer
    tokens it returns the first 8 as the counts and the 9th as the overflow
    flag ("100 200 300 400 500 600 700 800 0" gives counts 100..800 and
    overflow 0); a reply whose token count is not 9, or one of whose tokens
    fails integer parsing, fails with MalformedResponseError, and a snapshot
    is returned only when all 9 tokens parsed (no partial snapshot). *)
Theorem parseCounts_spec :
  parseCounts parseDecimal "100 200 300 400 500 600 700 800 0" =
    Returns {| counts := [100; 200; 300; 400; 500; 600; 700; 800]%Z;
               overflow := 0%Z |} /\
  (forall line : string,
      Forall (fun t => t <> ""%string /\ no_space t = true) (tokens line)) /\
  (forall parseInteger line ns,
      length (tokens line) = 9%nat ->
      Forall2 (fun t n => parseInteger t = Some n) (tokens line) ns ->
      parseCounts parseInteger line =
        Returns {| counts := firstn 8 ns; overflow := nth 8 ns 0%Z |}) /\
  (forall parseInteger line,
      length (tokens line) <> 9%nat ->
      parseCounts parseInteger line = Throws Spec.MalformedResponseError) /\
  (forall parseInteger line t,
      In t (tokens line) -> parseInteger t = None ->
      parseCounts parseInteger line = Throws Spec.MalformedResponseError) /\
  (forall parseInteger line snapshot,
      parseCounts parseInteger line = Returns snapshot ->
      length (tokens line) = 9%nat /\
      length (counts snapshot) = 8%nat /\
      Forall2 (fun t n => parseInteger t = Some n) (tokens line)
        (counts snapshot ++ [overflow snapshot])).
Proof.
  split; [reflexivity|]. split; [|split; [|split; [|split]]].
  - intros line. apply split_from_clean. reflexivity.
  - intros parseInteger line ns Hlen F. unfold parseCounts.
    rewrite Hlen. simpl. apply parse_all_Some in F. rewrite F. reflexivity.
  - intros parseInteger line Hlen. unfold parseCounts.
    destruct (Nat.eqb_spec (length (tokens line)) 9); [contradiction|reflexivity].
  - intros parseInteger line t Hin Et. unfold parseCounts.
    rewrite (parse_all_None parseInteger _ t Hin Et).
    destruct (negb _); reflexivity.
  - intros parseInteger line snapshot. unfold parseCounts.
    destruct (Nat.eqb_spec (length (tokens line)) 9) as [Hlen|]; simpl; [|discriminate].
    destruct (parse_all parseInteger (tokens line)) as [ns|] eqn:E; [|discriminate].
    intros R. injection R as <-. apply parse_all_Some in E.
    assert (L := E). apply Forall2_length in L. rewrite Hlen in L.
    do 10 (destruct ns as [|? ns]; try discriminate L).
    simpl. repeat split; assumption.
Qed.

Lemma parseCounts_spec_witness :
  parseCounts parseDecimal "1 2 3 4 5 6 7 8 9" =
    Returns {| counts := firstn 8 [1; 2; 3; 4; 5; 6; 7; 8; 9]%Z;
               overflow := nth 8 [1; 2; 3; 4; 5; 6; 7; 8; 9]%Z 0%Z |} /\
  parseCounts parseDecimal "1 2 3" = Throws Spec.MalformedResponseError /\
  parseCounts parseDecimal "1 2 3 4 x 6 7 8 9" = Throws Spec.MalformedResponseError.
Proof.
  destruct parseCounts_spec as (_ & _ & Hok & Hcount & Htoken & _).
  split; [|split].
  - apply Hok; [reflexivity|].
    change (tokens "1 2 3 4 5 6 7 8 9")
      with ["1"; "2"; "3"; "4"; "5"; "6"; "7"; "8"; "9"]%string.
    repeat (constructor; [reflexivity|]). constructor.
  - apply Hcount. discriminate.
  - apply (Htoken parseDecimal _ "x"%string); [|reflexivity].
    change (tokens "1 2 3 4 x 6 7 8 9")
      with ["1"; "2"; "3"; "4"; "x"; "6"; "7"; "8"; "9"]%string.
    simpl. tauto.
Defined.
End ParserFacts.

(* ===================================================================== *)
(** * More of the code: the validators, the analysis module, the mock's
      sessions and the calibration wizard *)
(* ===================================================================== *)

(* ===================================================================== *)
(** * validation.ts: the validators and the clamps together *)
(* ===================================================================== *)

Section ValidatorFacts.
Import Validation.
Import Rounding.
Local Open Scope float_scope.

Lemma leb_refl (x : float) : is_nan x = false -> (x <=? x) = true.
Proof.
  rewrite Float64.is_nan_spec, FloatAxioms.leb_spec. unfold SFleb. intros Hx.
  rewrite Float64.SFcompare_refl; [reflexivity|].
  intros E. rewrite E in Hx. discriminate.
Qed.

(** [a <= b] of the language is the comparison of binary64. *)
Lemma num_leb_f64 (a b : float) : num_leb a b = (a <=? b).
Proof.
  unfold num_leb. change (isNaN a) with (is_nan a). change (isNaN b) with (is_nan b).
  change (num_ltb b a) with (b <? a).
  destruct (a <=? b) eqn:E.
  - destruct (Float64.leb_not_nan _ _ E) as [-> ->].
    rewrite (Float64.leb_ltb_false _ _ E). reflexivity.
  - destruct (is_nan a) eqn:Ha; [reflexivity|].
    destruct (is_nan b) eqn:Hb; [reflexivity|]. simpl.
    destruct (b <? a) eqn:L; [reflexivity|].
    rewrite (Float64.not_ltb_leb a b Ha Hb L) in E. discriminate.
Qed.


(** Numbers that are [===] are the same double, or both are zeros. *)
Lemma eqb_cases (a b : float) :
  (a =? b) = true ->
  a = b \/ ((a = 0 \/ a = (-0)) /\ (b = 0 \/ b = (-0))).
Proof.
  rewrite FloatAxioms.eqb_spec. unfold SFeqb. intros E.
  destruct (Prim2SF a) as [sa|sa| |sa ma ea] eqn:Ea,
           (Prim2SF b) as [sb|sb| |sb mb eb] eqn:Eb;
    simpl in E; try discriminate;
    try (destruct sa; discriminate); try (destruct sb; discriminate).
  - right. apply Float64.Prim2SF_zero in Ea, Eb.
    destruct sa, sb; subst; auto.
  - left. rewrite <- (SF2Prim_Prim2SF a), <- (SF2Prim_Prim2SF b), Ea, Eb.
    destruct sa, sb; try discriminate; reflexivity.
  - left. rewrite <- (SF2Prim_Prim2SF a), <- (SF2Prim_Prim2SF b), Ea, Eb.
    destruct sa, sb; try discriminate;
      destruct (Z.compare_spec ea eb) as [->| |]; try discriminate;
      rewrite Pos.compare_cont_spec in E; simpl in E.
    + destruct (Pos.compare_spec ma mb); subst; simpl in E; try discriminate; reflexivity.
    + destruct (Pos.compare_spec ma mb); subst; simpl in E; try discriminate; reflexivity.
Qed.

Lemma eqb_refl (x : float) : is_nan x = false -> (x =? x) = true.
Proof. unfold is_nan. destruct (x =? x); simpl; congruence. Qed.

Lemma eqb_trans (a b c : float) :
  (a =? b) = true -> (b =? c) = true -> (a =? c) = true.
Proof.
  intros E1 E2.
  destruct (eqb_cases a b E1) as [->|[Ha Hb]]; [exact E2|].
  destruct (eqb_cases b c E2) as [<-|[_ Hc]]; [exact E1|].
  destruct Ha as [-> | ->], Hc as [-> | ->]; reflexivity.
Qed.

Lemma clamp_spec (value min max : float) :
  is_nan value = false -> (min <=? max) = true ->
  ((min <=? clamp value min max) = true /\
   (clamp value min max <=? max) = true) /\
  ((min <=? value) = true -> (value <=? max) = true ->
   (clamp value min max =? value) = true).
Proof.
  intros Hv Hmm.
  destruct (Float64.leb_not_nan _ _ Hmm) as [Hmin Hmax].
  unfold clamp. change (@Math_max float float64) with f64_max.
  change (@Math_min float float64) with f64_min.
  assert (Hm : is_nan (f64_min max value) = false /\
               (f64_min max value <=? max) = true /\
               ((value <=? max) = true -> f64_min max value = value \/
                  ((max =? value) = true /\ f64_min max value = max))).
  { unfold f64_min. rewrite Hmax, Hv. simpl.
    destruct (max <? value) eqn:E1.
    - split; [exact Hmax|]. split; [apply leb_refl, Hmax|].
      intros L. rewrite (Float64.leb_ltb_false _ _ L) in E1. discriminate.
    - destruct (value <? max) eqn:E2.
      + split; [exact Hv|]. split; [apply Float64.ltb_leb, E2|]. auto.
      + assert (L : (value <=? max) = true)
          by (apply Float64.not_ltb_leb; assumption).
        destruct (get_sign max).
        * split; [exact Hmax|]. split; [apply leb_refl, Hmax|].
          intros _. right. split; [|reflexivity].
          rewrite FloatAxioms.eqb_spec. unfold SFeqb.
          rewrite FloatAxioms.ltb_spec in E1, E2. unfold SFltb in E1, E2.
          rewrite (Float64.SFcompare_antisym (Prim2SF max) (Prim2SF value)) in E2.
          rewrite Float64.is_nan_spec in Hv, Hmax.
          destruct (SFcompare (Prim2SF max) (Prim2SF value)) as [[]|] eqn:C;
            simpl in *; try discriminate; try reflexivity.
          destruct (Float64.SFcompare_None _ _ C) as [N|N]; rewrite N in *; discriminate.
        * split; [exact Hv|]. split; [exact L|]. auto. }
  destruct Hm as (Hn & Hle & Hid).
  set (w := f64_min max value) in *.
  assert (HM : ((min <=? f64_max min w) = true /\ (f64_max min w <=? max) = true) /\
               ((min <=? w) = true -> f64_max min w = w \/
                  ((min =? w) = true /\ f64_max min w = min))).
  { unfold f64_max. rewrite Hmin, Hn. simpl.
    destruct (min <? w) eqn:E1.
    - split; [split; [apply Float64.ltb_leb, E1 | exact Hle]|]. auto.
    - destruct (w <? min) eqn:E2.
      + split; [split; [apply leb_refl, Hmin | exact Hmm]|].
        intros L. rewrite (Float64.leb_ltb_false _ _ L) in E2. discriminate.
      + assert (L : (min <=? w) = true)
          by (apply Float64.not_ltb_leb; assumption).
        destruct (get_sign min).
        * split; [split; [exact L | exact Hle]|]. auto.
        * split; [split; [apply leb_refl, Hmin | exact Hmm]|].
          intros _. right. split; [|reflexivity].
          rewrite FloatAxioms.eqb_spec. unfold SFeqb.
          rewrite FloatAxioms.ltb_spec in E1, E2. unfold SFltb in E1, E2.
          rewrite (Float64.SFcompare_antisym (Prim2SF min) (Prim2SF w)) in E2.
          rewrite Float64.is_nan_spec in Hn, Hmin.
          destruct (SFcompare (Prim2SF min) (Prim2SF w)) as [[]|] eqn:C;
            simpl in *; try discriminate; try reflexivity.
          destruct (Float64.SFcompare_None _ _ C) as [N|N]; rewrite N in *; discriminate. }
  destruct HM as (Hb & Hid2). split; [exact Hb|].
  intros L1 L2.
  destruct (Hid L2) as [Ew|[Em Ew]].
  - rewrite Ew in Hid2 |- *. destruct (Hid2 L1) as [->|[Eq ->]].
    + apply eqb_refl, Hv.
    + exact Eq.
  - rewrite Ew in Hid2 |- *. destruct (Hid2 Hmm) as [->|[Eq ->]].
    + exact Em.
    + exact (eqb_trans _ _ _ Eq Em).
Qed.

(** X1. [clamp(value, min, max)] of a number, for bounds min <= max: the
    result lies between the bounds, and a value that already does is
    returned as it is (as a number: [-0] may come back as [+0]). *)
Theorem clamp_between_bounds (value min max : float) :
  is_nan value = false -> (min <=? max) = true ->
  ((min <=? clamp value min max) = true /\
   (clamp value min max <=? max) = true) /\
  ((min <=? value) = true -> (value <=? max) = true ->
   (clamp value min max =? value) = true).
Proof. apply clamp_spec. Qed.

Lemma clamp_between_bounds_witness :
  ((0 <=? clamp 5 0 10) = true /\ (clamp 5 0 10 <=? 10) = true) /\
  (clamp 5 0 10 =? 5) = true.
Proof.
  destruct (clamp_between_bounds 5 0 10 eq_refl eq_refl) as [B I].
  split; [exact B | apply I; reflexivity].
Defined.

(** X2. A clamp and the validator of the same range agree.  For every
    number v, [validateVoltage(clampVoltage(v))] and
    [validateRepeatInterval(clampRepeatInterval(v))] return; and a voltage
    that [validateVoltage] accepts is left as it is by [clampVoltage]. *)
Theorem clamped_values_are_valid (v : float) :
  is_nan v = false ->
  validateVoltage (JNumber (clampVoltage v)) = Returns tt /\
  validateRepeatInterval (JNumber (clampRepeatInterval v)) = Returns tt /\
  (validateVoltage (JNumber v) = Returns tt -> (clampVoltage v =? v) = true).
Proof.
  intros Hv. split; [|split].
  - assert (R : (VOLTAGE_MIN <=? VOLTAGE_MAX) = true) by reflexivity.
    pose proof (clamp_spec v VOLTAGE_MIN VOLTAGE_MAX Hv) as B.
    destruct (B R) as [[L U] _].
    fold (clampVoltage v) in L, U. unfold validateVoltage.
    change (isNaN (clampVoltage v)) with (is_nan (clampVoltage v)).
    change (num_ltb (clampVoltage v) VOLTAGE_MIN) with (clampVoltage v <? VOLTAGE_MIN).
    change (num_ltb VOLTAGE_MAX (clampVoltage v)) with (VOLTAGE_MAX <? clampVoltage v).
    destruct (Float64.leb_not_nan _ _ U) as [-> _].
    rewrite (Float64.leb_ltb_false _ _ L), (Float64.leb_ltb_false _ _ U).
    reflexivity.
  - assert (R : (REPEAT_INTERVAL_MIN <=? REPEAT_INTERVAL_MAX) = true) by reflexivity.
    pose proof (clamp_spec v REPEAT_INTERVAL_MIN REPEAT_INTERVAL_MAX Hv) as B.
    destruct (B R) as [[L U] _].
    fold (clampRepeatInterval v) in L, U. unfold validateRepeatInterval.
    change (isNaN (clampRepeatInterval v)) with (is_nan (clampRepeatInterval v)).
    change (num_ltb (clampRepeatInterval v) REPEAT_INTERVAL_MIN)
      with (clampRepeatInterval v <? REPEAT_INTERVAL_MIN).
    change (num_ltb REPEAT_INTERVAL_MAX (clampRepeatInterval v))
      with (REPEAT_INTERVAL_MAX <? clampRepeatInterval v).
    destruct (Float64.leb_not_nan _ _ U) as [-> _].
    rewrite (Float64.leb_ltb_false _ _ L), (Float64.leb_ltb_false _ _ U).
    reflexivity.
  - unfold validateVoltage.
    change (isNaN v) with (is_nan v).
    change (num_ltb v VOLTAGE_MIN) with (v <? VOLTAGE_MIN).
    change (num_ltb VOLTAGE_MAX v) with (VOLTAGE_MAX <? v).
    rewrite Hv.
    destruct (v <? VOLTAGE_MIN) eqn:L; [discriminate|].
    destruct (VOLTAGE_MAX <? v) eqn:U; [discriminate|]. intros _.
    assert (R : (VOLTAGE_MIN <=? VOLTAGE_MAX) = true) by reflexivity.
    pose proof (clamp_spec v VOLTAGE_MIN VOLTAGE_MAX Hv) as B.
    apply (B R).
    + apply Float64.not_ltb_leb; [reflexivity | exact Hv | exact L].
    + apply Float64.not_ltb_leb; [exact Hv | reflexivity | exact U].
Qed.

Lemma clamped_values_are_valid_witness :
  validateVoltage (JNumber (clampVoltage 2)) = Returns tt /\
  validateRepeatInterval (JNumber (clampRepeatInterval 2)) = Returns tt /\
  (clampVoltage 2 =? 2) = true.
Proof.
  destruct (clamped_values_are_valid 2 eq_refl) as (A & B & C).
  split; [exact A|]. split; [exact B | apply C; reflexivity].
Defined.
End ValidatorFacts.

Section ByteCodes.
Import Validation.
Import Rounding.
Local Open Scope float_scope.

(** [Math.max(0, w)] is never [-0]. *)
Lemma max_0_not_neg_zero (w : float) : f64_max 0 w <> (-0).
Proof.
  unfold f64_max. destruct (is_nan 0 || is_nan w); [discriminate|].
  destruct (0 <? w) eqn:E.
  - intros ->. discriminate E.
  - destruct (w <? 0); discriminate.
Qed.

(** The code of a voltage in range is one of the integers 0..255. *)
Lemma code_of_voltage_in_range (v : float) :
  (0 <=? v) = true -> (v <=? 0x1.051eb851eb852p+2) = true -> v <> (-0) ->
  exists n : Z, (0 <= n <= 255)%Z /\
    f64_round (v / 0x1.051eb851eb852p+2 * 255) = f64_of_Z n.
Proof.
  intros H0 HK Hz.
  destruct (in_range_cases v H0 HK) as [[->| ->]|(m & e & Hv & Hle)].
  - exists 0%Z. split; [lia | reflexivity].
  - congruence.
  - assert (HKsf : Prim2SF 0x1.051eb851eb852p+2 =
                   S754_finite false 4593671619917906 (-50))
      by (vm_compute; reflexivity).
    assert (H255 : exists mk ek, Prim2SF 255 = S754_finite false mk ek)
      by (vm_compute; eauto).
    destruct H255 as (m255 & e255 & H255).
    pose proof f64_value_VOLTAGE_MAX as QK.
    pose proof f64_value_255 as Q255.
    assert (Hv0 : (0 < f64_value v)%Q).
    { unfold f64_value. rewrite Hv. cbn [SF2Q].
      assert (0 < (2 # 1) ^ e)%Q by apply pow2_pos.
      assert (1 <= inject_Z (Z.pos m))%Q.
      { rewrite <- (Zle_Qle 1). lia. }
      nra. }
    set (y := (f64_value v / f64_value 0x1.051eb851eb852p+2)%Q).
    assert (Hy : (y * f64_value 0x1.051eb851eb852p+2 == f64_value v)%Q).
    { unfold y. field. rewrite QK. discriminate. }
    assert (Hy1 : (0 < y /\ y <= 1)%Q).
    { rewrite QK in Hy, Hle. split; nra. }
    destruct (f64_div_error v 0x1.051eb851eb852p+2 m e _ _ y Hv HKsf Hy)
      as [N1 E1].
    { rewrite pow2_9. lra. }
    set (x1 := (v / 0x1.051eb851eb852p+2)%float) in *.
    apply Qabs_Qle_condition in E1. rewrite pow2_m42 in E1.
    destruct (f64_mul_error x1 255 m255 e255 N1 H255) as [N2 E2].
    { rewrite pow2_9, Q255. lra. }
    set (x2 := (x1 * 255)%float) in *.
    apply Qabs_Qle_condition in E2. rewrite pow2_m42, Q255 in E2.
    destruct (f64_round_small x2 N2) as (n & Hn & Hb & _).
    { lra. }
    exists n. split; [exact Hn|]. rewrite Hb.
    destruct (Z.eqb_spec n 0) as [->|_]; reflexivity.
Qed.

(** The 256 codes, by evaluation: [validateByte] accepts each, the voltage
    [byteToVoltage] gives for it passes [validateVoltage], and
    [voltageToByte] maps that voltage back to the code. *)
Lemma codes_checked :
  forallb
    (fun k =>
       let b := f64_of_Z (Z.of_nat k) in
       match validateByte (JNumber b), byteToVoltage (JNumber b) with
       | Returns _, Returns v =>
           match validateVoltage (JNumber v), voltageToByte v with
           | Returns _, Returns b' => PrimFloat.Leibniz.eqb b' b
           | _, _ => false
           end
       | _, _ => false
       end)
    (seq 0 256) = true.
Proof. vm_compute. reflexivity. Qed.

Lemma code_checked (n : Z) :
  (0 <= n <= 255)%Z ->
  validateByte (JNumber (f64_of_Z n)) = Returns tt /\
  exists v,
    byteToVoltage (JNumber (f64_of_Z n)) = Returns v /\
    validateVoltage (JNumber v) = Returns tt /\
    voltageToByte v = Returns (f64_of_Z n).
Proof.
  intros Hn.
  pose proof codes_checked as T.
  rewrite forallb_forall in T.
  specialize (T (Z.to_nat n)).
  assert (Hin : In (Z.to_nat n) (seq 0 256)) by (apply in_seq; lia).
  specialize (T Hin). cbv zeta in T.
  rewrite Z2Nat.id in T by lia.
  destruct (validateByte (JNumber (f64_of_Z n))) as [[]|]; [|discriminate].
  destruct (byteToVoltage (JNumber (f64_of_Z n))) as [v|]; [|discriminate].
  destruct (validateVoltage (JNumber v)) as [[]|] eqn:Vv; [|discriminate].
  destruct (voltageToByte v) as [b'|] eqn:Vb; [|discriminate].
  apply FloatAxioms.Leibniz.eqb_spec in T. subst b'.
  split; [reflexivity|]. exists v. auto.
Qed.

(** X3. For every number v, [voltageToByte(v)] is one of the integers
    0..255: [validateByte] accepts it, so [byteToVoltage] does not throw on
    it, and the voltage read back passes [validateVoltage]. *)
Theorem voltageToByte_gives_a_byte (v : float) :
  is_nan v = false ->
  exists n : Z, (0 <= n <= 255)%Z /\
    voltageToByte v = Returns (f64_of_Z n) /\
    validateByte (JNumber (f64_of_Z n)) = Returns tt /\
    exists v',
      byteToVoltage (JNumber (f64_of_Z n)) = Returns v' /\
      validateVoltage (JNumber v') = Returns tt.
Proof.
  intros Hv.
  destruct (clampVoltage_in_range v Hv) as [L U].
  rewrite VOLTAGE_MIN_f64, VOLTAGE_MAX_f64 in *.
  assert (Hz : clampVoltage v <> (-0))
    by (rewrite clampVoltage_f64; apply max_0_not_neg_zero).
  destruct (code_of_voltage_in_range _ L U Hz) as (n & Hn & E).
  exists n. split; [exact Hn|].
  destruct (code_checked n Hn) as (Vb & v' & Bv & Vv & _).
  split; [|split; [exact Vb | exists v'; auto]].
  unfold voltageToByte. cbv zeta. rewrite VOLTAGE_MAX_f64, BYTE_MAX_f64.
  change (@Math_round float float64) with f64_round.
  change (@num_div float float64) with PrimFloat.div.
  change (@num_mul float float64) with PrimFloat.mul.
  rewrite E. reflexivity.
Qed.

Lemma voltageToByte_gives_a_byte_witness :
  exists n : Z, (0 <= n <= 255)%Z /\
    voltageToByte 1000 = Returns (f64_of_Z n) /\
    validateByte (JNumber (f64_of_Z n)) = Returns tt /\
    exists v',
      byteToVoltage (JNumber (f64_of_Z n)) = Returns v' /\
      validateVoltage (JNumber v') = Returns tt.
Proof. apply (voltageToByte_gives_a_byte 1000). reflexivity. Defined.

(** X4. Every byte survives the trip through the voltage: for an integer n
    in 0..255, [voltageToByte(byteToVoltage(n))] is n again. *)
Theorem byte_round_trip (n : Z) :
  (0 <= n <= 255)%Z ->
  exists v,
    byteToVoltage (JNumber (f64_of_Z n)) = Returns v /\
    voltageToByte v = Returns (f64_of_Z n).
Proof.
  intros Hn. destruct (code_checked n Hn) as (_ & v & Bv & _ & Vb).
  exists v. auto.
Qed.

Lemma byte_round_trip_witness :
  exists v,
    byteToVoltage (JNumber (f64_of_Z 128)) = Returns v /\
    voltageToByte v = Returns (f64_of_Z 128).
Proof. apply (byte_round_trip 128). lia. Defined.
End ByteCodes.

Section ValidatorRanges.
Import Validation.
Local Open Scope float_scope.

(** The range test of the validators, [x < lo || x > hi], on a number. *)
Lemma range_test (x lo hi : float) :
  is_nan lo = false -> is_nan hi = false ->
  is_nan x = false /\ (x <? lo) || (hi <? x) = false <->
  (lo <=? x) = true /\ (x <=? hi) = true.
Proof.
  intros Hlo Hhi. split.
  - intros [Hx T]. apply orb_false_elim in T. destruct T as [A B].
    split; apply Float64.not_ltb_leb; assumption.
  - intros [A B]. destruct (Float64.leb_not_nan _ _ A) as [_ Hx].
    split; [exact Hx|].
    rewrite (Float64.leb_ltb_false _ _ A), (Float64.leb_ltb_false _ _ B).
    reflexivity.
Qed.

Lemma range_validator {E : Type} (x lo hi : float) (e1 e2 : E) :
  is_nan lo = false -> is_nan hi = false ->
  (if is_nan x then Throws e1
   else if (x <? lo) || (hi <? x) then Throws e2 else Returns tt) = Returns tt <->
  (lo <=? x) = true /\ (x <=? hi) = true.
Proof.
  intros Hlo Hhi. rewrite <- (range_test x lo hi Hlo Hhi).
  destruct (is_nan x); [split; [discriminate | intros [? _]; discriminate]|].
  destruct ((x <? lo) || (hi <? x)); split; try discriminate; auto.
  intros [_ ?]. discriminate.
Qed.

(** The numeric validators accept the numbers of their range. *)
Lemma validators_ranges (x : float) :
  (validateChannel (JNumber x) = Returns tt <->
     (0 <=? x) = true /\ (x <=? 7) = true) /\
  (validateVoltage (JNumber x) = Returns tt <->
     (0 <=? x) = true /\ (x <=? VOLTAGE_MAX) = true) /\
  (validateByte (JNumber x) = Returns tt <->
     (0 <=? x) = true /\ (x <=? 255) = true) /\
  (validateRepeatInterval (JNumber x) = Returns tt <->
     (100 <=? x) = true /\ (x <=? 65535) = true) /\
  (validateDuration (JNumber x) = Returns tt <-> (0 <? x) = true).
Proof.
  split; [|split; [|split; [|split]]].
  - apply (range_validator x 0 7); reflexivity.
  - apply (range_validator x 0 VOLTAGE_MAX); reflexivity.
  - apply (range_validator x 0 255); reflexivity.
  - apply (range_validator x 100 65535); reflexivity.
  - unfold validateDuration. rewrite num_leb_f64.
    change (isNaN x) with (is_nan x). change (@int float float64 0) with 0.
    destruct (is_nan x) eqn:Hx.
    + split; [discriminate|]. intros L.
      destruct (Float64.ltb_not_nan _ _ L) as [_ N]. congruence.
    + destruct (x <=? 0) eqn:L.
      * split; [discriminate|]. intros P.
        rewrite (Float64.leb_ltb_false _ _ L) in P. discriminate.
      * split; [intros _|reflexivity].
        destruct (0 <? x) eqn:P; [reflexivity|].
        rewrite (Float64.not_ltb_leb x 0 Hx eq_refl P) in L. discriminate.
Qed.

(** X5. Which numbers the numeric validators accept: exactly those of the
    closed range (0..7, 0..4.08, 0..255, 100..65535), whole or not, and for
    [validateDuration] exactly the numbers above 0, +Infinity among them.
    NaN is accepted by none. *)
Theorem validators_accept_the_range (x : float) :
  ((validateChannel (JNumber x) = Returns tt <->
      (0 <=? x) = true /\ (x <=? 7) = true) /\
   (validateVoltage (JNumber x) = Returns tt <->
      (0 <=? x) = true /\ (x <=? VOLTAGE_MAX) = true) /\
   (validateByte (JNumber x) = Returns tt <->
      (0 <=? x) = true /\ (x <=? 255) = true) /\
   (validateRepeatInterval (JNumber x) = Returns tt <->
      (100 <=? x) = true /\ (x <=? 65535) = true) /\
   (validateDuration (JNumber x) = Returns tt <-> (0 <? x) = true)) /\
  (is_nan x = true ->
   validateChannel (JNumber x) <> Returns tt /\
   validateVoltage (JNumber x) <> Returns tt /\
   validateByte (JNumber x) <> Returns tt /\
   validateRepeatInterval (JNumber x) <> Returns tt /\
   validateDuration (JNumber x) <> Returns tt).
Proof.
  pose proof (validators_ranges x) as R. split; [exact R|].
  intros Hn. destruct R as (A & B & C & D & E).
  repeat split; intros H;
    [apply A in H | apply B in H | apply C in H | apply D in H | apply E in H];
    [destruct H as [_ L]; apply Float64.leb_not_nan in L ..
    | apply Float64.ltb_not_nan in H; rename H into L];
    destruct L; congruence.
Qed.

Lemma validators_accept_the_range_witness :
  validateChannel (JNumber 7) = Returns tt /\
  validateDuration (JNumber infinity) = Returns tt /\
  validateByte (JNumber nan) <> Returns tt.
Proof.
  destruct (validators_accept_the_range 7) as [(A & _) _].
  destruct (validators_accept_the_range infinity) as [(_ & _ & _ & _ & E) _].
  destruct (validators_accept_the_range nan) as [_ N].
  split; [apply A; split; reflexivity|].
  split; [apply E; reflexivity|].
  destruct (N eq_refl) as (_ & _ & C & _). exact C.
Defined.

(** Infinity is a duration; 3.5 is a channel. *)
Example validators_accept_examples :
  validateDuration (JNumber infinity) = Returns tt /\
  validateChannel (JNumber 3.5) = Returns tt /\
  validateChannel (JNumber infinity) = Throws (InvalidChannelError infinity).
Proof. repeat split. Qed.
End ValidatorRanges.

Section ProfileFacts.
Import Calibration.
Context {num : Type} `{Number num}.

(** Within 0..7 each setter stores the value in its own table only. *)
Lemma profile_setters_store (this : CalibrationProfile num) (c : Z) (x : num) :
  (0 <= c <= 7)%Z ->
  (exists this',
      setVoltage this c x = Returns this' /\
      getVoltage this' c = (if truthy x then Some x else None) /\
      (forall c', c' <> c -> getVoltage this' c' = getVoltage this c') /\
      (forall c', getThreshold this' c' = getThreshold this c' /\
                  getGain this' c' = getGain this c' /\
                  getOffset this' c' = getOffset this c')) /\
  (exists this',
      setThreshold this c x = Returns this' /\
      getThreshold this' c = (if truthy x then Some x else None) /\
      (forall c', c' <> c -> getThreshold this' c' = getThreshold this c') /\
      (forall c', getVoltage this' c' = getVoltage this c' /\
                  getGain this' c' = getGain this c' /\
                  getOffset this' c' = getOffset this c')) /\
  (exists this',
      setGain this c x = Returns this' /\
      getGain this' c = (if truthy x then Some x else None) /\
      (forall c', c' <> c -> getGain this' c' = getGain this c') /\
      (forall c', getVoltage this' c' = getVoltage this c' /\
                  getThreshold this' c' = getThreshold this c' /\
                  getOffset this' c' = getOffset this c')) /\
  (exists this',
      setOffset this c x = Returns this' /\
      getOffset this' c = (if truthy x then Some x else None) /\
      (forall c', c' <> c -> getOffset this' c' = getOffset this c') /\
      (forall c', getVoltage this' c' = getVoltage this c' /\
                  getThreshold this' c' = getThreshold this c' /\
                  getGain this' c' = getGain this c')).
Proof.
  intros Hc.
  assert (R : channel_out_of_range c = false).
  { unfold channel_out_of_range.
    destruct (Z.ltb_spec c 0), (Z.ltb_spec 7 c); try reflexivity; lia. }
  unfold setVoltage, setThreshold, setGain, setOffset. rewrite R.
  split; [|split; [|split]]; eexists; (split; [reflexivity|]);
    unfold getVoltage, getThreshold, getGain, getOffset; cbn;
    (split; [rewrite lookup_insert_eq; reflexivity|]);
    (split; [intros c' Hc'; rewrite lookup_insert_ne by congruence; reflexivity|]);
    intros c'; repeat split.
Qed.

(** Outside 0..7 the setters throw and store nothing. *)
Lemma profile_setters_reject (this : CalibrationProfile num) (c : Z) (x : num) :
  (c < 0 \/ 7 < c)%Z ->
  setVoltage this c x = Throws (Error "Channel must be between 0 and 7") /\
  setThreshold this c x = Throws (Error "Channel must be between 0 and 7") /\
  setGain this c x = Throws (Error "Channel must be between 0 and 7") /\
  setOffset this c x = Throws (Error "Channel must be between 0 and 7").
Proof.
  intros Hc.
  assert (R : channel_out_of_range c = true).
  { unfold channel_out_of_range.
    destruct (Z.ltb_spec c 0), (Z.ltb_spec 7 c); try reflexivity; lia. }
  unfold setVoltage, setThreshold, setGain, setOffset. rewrite R. auto.
Qed.

(** X6. What a setter of [CalibrationProfile] stores for a channel 0..7 is
    what the getter of the same table returns for that channel, unless the
    value is falsy (0, -0, NaN), which reads back as null; the other
    channels and the other three tables are left as they were.  Outside 0..7
    every setter throws "Channel must be between 0 and 7". *)
Theorem profile_set_then_get (this : CalibrationProfile num) (c : Z) (x : num) :
  ((0 <= c <= 7)%Z ->
   (exists this',
       setVoltage this c x = Returns this' /\
       getVoltage this' c = (if truthy x then Some x else None) /\
       (forall c', c' <> c -> getVoltage this' c' = getVoltage this c') /\
       (forall c', getThreshold this' c' = getThreshold this c' /\
                   getGain this' c' = getGain this c' /\
                   getOffset this' c' = getOffset this c')) /\
   (exists this',
       setThreshold this c x = Returns this' /\
       getThreshold this' c = (if truthy x then Some x else None) /\
       (forall c', c' <> c -> getThreshold this' c' = getThreshold this c') /\
       (forall c', getVoltage this' c' = getVoltage this c' /\
                   getGain this' c' = getGain this c' /\
                   getOffset this' c' = getOffset this c')) /\
   (exists this',
       setGain this c x = Returns this' /\
       getGain this' c = (if truthy x then Some x else None) /\
       (forall c', c' <> c -> getGain this' c' = getGain this c') /\
       (forall c', getVoltage this' c' = getVoltage this c' /\
                   getThreshold this' c' = getThreshold this c' /\
                   getOffset this' c' = getOffset this c')) /\
   (exists this',
       setOffset this c x = Returns this' /\
       getOffset this' c = (if truthy x then Some x else None) /\
       (forall c', c' <> c -> getOffset this' c' = getOffset this c') /\
       (forall c', getVoltage this' c' = getVoltage this c' /\
                   getThreshold this' c' = getThreshold this c' /\
                   getGain this' c' = getGain this c'))) /\
  ((c < 0 \/ 7 < c)%Z ->
   setVoltage this c x = Throws (Error "Channel must be between 0 and 7") /\
   setThreshold this c x = Throws (Error "Channel must be between 0 and 7") /\
   setGain this c x = Throws (Error "Channel must be between 0 and 7") /\
   setOffset this c x = Throws (Error "Channel must be between 0 and 7")).
Proof.
  split; [apply profile_setters_store | apply profile_setters_reject].
Qed.

(** [applyCounts] applies the gain and the offset that
    [getGain] and [getOffset] report, and 1 and 0 where they report null. *)
Lemma applyCounts_uses_getters (this : CalibrationProfile num) (c : Z) (r : num) :
  applyCounts this c r =
    apply r (nullish (getGain this c) (int 1)) (nullish (getOffset this c) (int 0)).
Proof.
  unfold applyCounts, apply, getGain, getOffset, or_else, nullish.
  destruct (gains this !! c) as [g|]; [destruct (truthy g)|];
    (destruct (offsets this !! c) as [o|]; [destruct (truthy o)|]); reflexivity.
Qed.
End ProfileFacts.

Section ProfileFactsFloat64.
Import Calibration.
Local Open Scope float_scope.

Lemma profile_set_then_get_witness :
  (exists this',
     setGain (constructor (num := float) None None) 3 2%float = Returns this' /\
     getGain this' 3 = Some 2%float /\
     getGain this' 4 = None /\ getOffset this' 3 = None) /\
  setGain (constructor (num := float) None None) 8 2%float =
    Throws (Error "Channel must be between 0 and 7").
Proof.
  split.
  - destruct (@profile_set_then_get float float64 (constructor None None) 3 2%float)
      as [A _].
    destruct A as (_ & _ & (p & E & G & F & O) & _); [lia|].
    exists p. split; [exact E|]. split; [exact G|].
    split; [rewrite (F 4%Z) by lia; reflexivity|].
    destruct (O 3%Z) as (_ & _ & ->). reflexivity.
  - destruct (@profile_set_then_get float float64 (constructor None None) 8 2%float)
      as [_ B].
    destruct B as (_ & _ & E & _); [lia|]. exact E.
Defined.

(** Adding [+0] changes nothing but the sign of [-0]. *)
Lemma add_0_r (r : float) : r + 0 = r \/ (r = (-0) /\ r + 0 = 0).
Proof.
  rewrite <- (SF2Prim_Prim2SF (r + 0)), add_spec.
  change (Prim2SF 0) with (S754_zero false).
  destruct (Prim2SF r) as [s|s| |s m e] eqn:E.
  - destruct s.
    + right. split; [apply (Float64.Prim2SF_zero r true E) | reflexivity].
    + left. rewrite <- (SF2Prim_Prim2SF r), E. reflexivity.
  - left. rewrite <- (SF2Prim_Prim2SF r), E. reflexivity.
  - left. rewrite <- (SF2Prim_Prim2SF r), E. reflexivity.
  - left. rewrite <- (SF2Prim_Prim2SF r), E. reflexivity.
Qed.

(** X7. [applyCounts] applies the gain and the offset that [getGain] and
    [getOffset] report, and 1 and 0 where they report null (an entry that is
    missing or falsy); where both report null it returns the raw count (on
    binary64 the same double, but [+0] for [-0]). *)
Theorem applyCounts_follows_getters :
  (forall (num : Type) (N : Number num) (this : CalibrationProfile num)
          (c : Z) (r : num),
      applyCounts this c r =
        apply r (nullish (getGain this c) (int 1))
                (nullish (getOffset this c) (int 0))) /\
  (forall (this : CalibrationProfile float) (c : Z) (r : float),
      getGain this c = None -> getOffset this c = None ->
      Spec.same_value_zero (applyCounts this c r) r = true /\
      (r <> (-0) -> applyCounts this c r = r)) /\
  (forall (this : CalibrationProfile Q) (c : Z) (r : Q),
      getGain this c = None -> getOffset this c = None ->
      (applyCounts this c r == r)%Q).
Proof.
  split; [intros; apply applyCounts_uses_getters|]. split.
  - intros this c r Hg Ho. rewrite applyCounts_uses_getters, Hg, Ho.
    unfold apply, nullish.
    change (@num_mul float float64) with PrimFloat.mul.
    change (@num_add float float64) with PrimFloat.add.
    change (@int float float64 1) with 1. change (@int float float64 0) with 0.
    rewrite Float64.mul_1_r.
    destruct (add_0_r r) as [->|[-> ->]].
    + split; [apply Float64.same_value_zero_refl | reflexivity].
    + split; [reflexivity | congruence].
  - intros this c r Hg Ho. rewrite applyCounts_uses_getters, Hg, Ho.
    unfold apply, nullish. simpl. ring.
Qed.

Lemma applyCounts_follows_getters_witness :
  applyCounts (constructor None None) 3 10 = 10 /\
  (exists p, setGain (constructor None None) 3 0 = Returns p /\
             applyCounts p 3 10 = 10).
Proof.
  destruct applyCounts_follows_getters as (_ & F & _).
  split.
  - apply (F (constructor None None) 3%Z 10); [reflexivity | reflexivity | discriminate].
  - eexists. split; [reflexivity|].
    apply (F _ 3%Z 10); [reflexivity | reflexivity | discriminate].
Defined.
End ProfileFactsFloat64.

Section RegressionAgrees.
Import Calibration Statistics.
Context {num : Type} `{Number num} `{Power num}.
Local Open Scope js_scope.

(** The calibration points with the raw values [x] and the actual values [y]. *)
Lemma sums_of_points (points : list (Point num)) (s0 : Sums num) :
  let s := fold_left accumulate points s0 in
  sumX s = fold_left num_add (map raw points) (sumX s0) /\
  sumY s = fold_left num_add (map actual points) (sumY s0) /\
  sumXY s = fold_left (fun sum p => sum + raw p * actual p) points (sumXY s0) /\
  sumXX s = fold_left (fun sum xi => sum + xi * xi) (map raw points) (sumXX s0).
Proof.
  revert s0. induction points as [|p points IH]; intros s0; cbn [fold_left map].
  - auto.
  - apply (IH (accumulate s0 p)).
Qed.

Lemma reduce_with_index (pre x y : list num) (acc : num) :
  length x = length y ->
  reduce_from (fun sum xi i => sum + xi * at_index (pre ++ y) i) (length pre) x acc =
  fold_left (fun sum p => sum + raw p * actual p)
            (map (fun xy => {| raw := fst xy; actual := snd xy |}) (combine x y)) acc.
Proof.
  revert pre y acc. induction x as [|xi x IH]; intros pre [|yi y] acc L;
    try discriminate; [reflexivity|].
  cbn [reduce_from combine map fold_left raw actual fst snd].
  assert (E : at_index (pre ++ yi :: y) (length pre) = yi).
  { unfold at_index. rewrite nth_error_app2 by lia. rewrite Nat.sub_diag. reflexivity. }
  rewrite E.
  specialize (IH (pre ++ [yi]) y (acc + xi * yi)).
  rewrite length_app, Nat.add_1_r, <- app_assoc in IH. cbn [app] in IH.
  apply IH. injection L. auto.
Qed.

(** X10. The two least-squares fits of the file are one computation:
    for arrays x and y of one length, at least 2, the slope and intercept
    of [Statistics.linearRegression(x, y)] are the gain and offset that
    [VoltageCalibration.multiPoint] returns for the points (x[i], y[i]),
    whatever the arithmetic (on binary64: the same doubles). *)
Theorem linearRegression_is_multiPoint (x y : list num) :
  length x = length y -> (2 <= length x)%nat ->
  multiPoint (map (fun xy => {| raw := fst xy; actual := snd xy |}) (combine x y)) =
    Returns {| gain := slope (linearRegression x y);
               offset := intercept (linearRegression x y) |}.
Proof.
  intros L L2.
  set (points := map (fun xy => {| raw := fst xy; actual := snd xy |}) (combine x y)).
  assert (Lp : length points = length x).
  { unfold points. rewrite length_map, length_combine. lia. }
  assert (Rp : map raw points = x).
  { unfold points. rewrite map_map. cbn [raw].
    clear - L. revert y L. induction x as [|xi x IH]; intros [|yi y] L;
      try discriminate; [reflexivity|].
    cbn. f_equal. apply IH. injection L. auto. }
  assert (Ap : map actual points = y).
  { unfold points. rewrite map_map. cbn [actual].
    clear - L. revert y L. induction x as [|xi x IH]; intros [|yi y] L;
      try discriminate; [reflexivity|].
    cbn. f_equal. apply IH. injection L. auto. }
  unfold multiPoint, linearRegression.
  rewrite Lp.
  destruct (Nat.ltb_spec (length x) 2) as [?|_]; [lia|].
  rewrite <- L, Nat.eqb_refl.
  destruct (Nat.eqb_spec (length x) 0) as [?|_]; [lia|].
  cbn [negb orb slope intercept].
  destruct (sums_of_points points
              {| sumX := int 0; sumY := int 0; sumXY := int 0; sumXX := int 0 |})
    as (EX & EY & EXY & EXX).
  cbv zeta in EX, EY, EXY, EXX. cbn [sumX sumY sumXY sumXX] in EX, EY, EXY, EXX.
  rewrite EX, EY, EXY, EXX, Rp, Ap.
  unfold reduce. rewrite <- (reduce_with_index [] x y (int 0) L).
  reflexivity.
Qed.
End RegressionAgrees.

Section RegressionAgreesExample.
Import Calibration Statistics.

Lemma linearRegression_is_multiPoint_witness :
  multiPoint [ {| raw := 0%Q; actual := 1%Q |}; {| raw := 1%Q; actual := 3%Q |};
               {| raw := 2%Q; actual := 5%Q |} ] =
    Returns {| gain := slope (linearRegression [0; 1; 2] [1; 3; 5])%Q;
               offset := intercept (linearRegression [0; 1; 2] [1; 3; 5])%Q |}.
Proof.
  apply (linearRegression_is_multiPoint (num := Q) [0; 1; 2]%Q [1; 3; 5]%Q);
    [reflexivity | cbn; lia].
Defined.
End RegressionAgreesExample.

Section ResampleFacts.
Import TimeSeries.
Context {num : Type} `{Number num}.
Local Open Scope js_scope.

Lemma first_not_before_le (times : list num) (newTime : num) :
  (first_not_before times newTime <= length times)%nat.
Proof.
  induction times as [|t times IH]; cbn; [lia|].
  destruct (t <? newTime); cbn; lia.
Qed.

Lemma first_not_before_all (times : list num) (newTime : num) :
  Forall (fun t => (t <? newTime) = true) times ->
  first_not_before times newTime = length times.
Proof.
  induction 1 as [|t times Ht _ IH]; cbn; [reflexivity|].
  rewrite Ht, IH. reflexivity.
Qed.

Lemma nth_error_last {A : Type} (l : list A) (d : A) :
  l <> [] -> nth_error l (length l - 1) = Some (List.last l d).
Proof.
  induction l as [|a l IH]; [congruence|]. intros _.
  destruct l as [|b l]; [reflexivity|].
  specialize (IH ltac:(discriminate)).
  replace (length (a :: b :: l) - 1)%nat with (S (length (b :: l) - 1))
    by (cbn [length]; lia).
  exact IH.
Qed.

(** X16. [resample] interpolates and never extrapolates.  For data and times
    of one length, not empty, every new time gets a number; a new time that
    the first time is not below gets the first value, and one that all
    times are below gets the last value. *)
Theorem resample_never_extrapolates
    (d0 t0 : num) (data times newTimes : list num) (newTime : num) :
  length data = length times ->
  (length (resample (d0 :: data) (t0 :: times) newTimes) = length newTimes /\
   Forall (fun r => r <> None) (resample (d0 :: data) (t0 :: times) newTimes)) /\
  ((t0 <? newTime) = false ->
   resample (d0 :: data) (t0 :: times) [newTime] = [Some d0]) /\
  (Forall (fun t => (t <? newTime) = true) (t0 :: times) ->
   resample (d0 :: data) (t0 :: times) [newTime] = [Some (List.last (d0 :: data) d0)]).
Proof.
  intros L. unfold resample. cbn [length]. rewrite L, Nat.eqb_refl. cbn [negb].
  split; [split|split].
  - apply length_map.
  - apply List.Forall_forall. intros r Hr.
    apply in_map_iff in Hr. destruct Hr as (nt & <- & _).
    destruct (first_not_before (t0 :: times) nt =? 0)%nat; [discriminate|].
    destruct (first_not_before (t0 :: times) nt =? S (length times))%nat;
      [|discriminate].
    replace (S (length times) - 1)%nat with (length times) by lia.
    rewrite <- L. intros E. apply nth_error_None in E. cbn [length] in E. lia.
  - intros E. cbn [map first_not_before]. rewrite E. reflexivity.
  - intros F. cbn [map].
    rewrite (first_not_before_all _ _ F). cbn [length Nat.eqb].
    rewrite Nat.eqb_refl.
    rewrite <- L. f_equal.
    apply (nth_error_last (d0 :: data) d0). discriminate.
Qed.
End ResampleFacts.

Section ResampleExample.
Import TimeSeries.
Local Open Scope float_scope.

Lemma resample_never_extrapolates_witness :
  (length (resample [10; 20] [0; 1] [-1; 0.5; 7]) = 3%nat /\
   Forall (fun r => r <> None) (resample [10; 20] [0; 1] [-1; 0.5; 7])) /\
  resample [10; 20] [0; 1] [-1] = [Some 10] /\
  resample [10; 20] [0; 1] [7] = [Some 20].
Proof.
  destruct (resample_never_extrapolates (num := float) 10 0 [20] [1] [-1; 0.5; 7] (-1)
              eq_refl) as (A & B & _).
  destruct (resample_never_extrapolates (num := float) 10 0 [20] [1] [-1; 0.5; 7] 7
              eq_refl) as (_ & _ & C).
  split; [exact A|]. split; [apply B; reflexivity|].
  apply C. repeat constructor.
Defined.
End ResampleExample.

Section MockSessions.
Import Mock.
Local Open Scope Z_scope.

(** One command of a session that is limited to [n] commands. *)
Lemma _executeCommand_limited (during_delay : interference) (this : MockCD48) (n : Z) :
  connected this = true ->
  failCommands (during_delay this) = false ->
  disconnectAfter (during_delay this) = Some n ->
  _executeCommand during_delay this =
    if n <? commandCount (during_delay this) + 1 then
      (Throws (Error "Device disconnected unexpectedly"),
       set_connected false
         (set_commandCount (commandCount (during_delay this) + 1) (during_delay this)))
    else
      (Returns tt,
       set_commandCount (commandCount (during_delay this) + 1) (during_delay this)).
Proof.
  intros Hc Hf Hd. unfold _executeCommand, mbind, get, throw, _delay, modify, ret.
  rewrite Hc. simpl. rewrite Hf. simpl. rewrite Hd.
  destruct (n <? commandCount (during_delay this) + 1); reflexivity.
Qed.

(** X18. A session limited by [setDisconnectAfter(n)].  On a connected mock
    whose command counter is 0, with delays that leave the session fields
    alone, the first n commands pass [_executeCommand], command n + 1 fails
    with "Device disconnected unexpectedly", and every later one fails with
    "Device not connected". *)
Theorem disconnectAfter_limits_the_session
    (during_delay : interference) (this : MockCD48) (n : Z) (j : nat) :
  (forall s, connected (during_delay s) = connected s /\
             failCommands (during_delay s) = failCommands s /\
             disconnectAfter (during_delay s) = disconnectAfter s /\
             commandCount (during_delay s) = commandCount s) ->
  connected this = true -> failCommands this = false ->
  disconnectAfter this = Some n -> commandCount this = 0 -> 0 <= n ->
  let after := Nat.iter j (fun s => snd (_executeCommand during_delay s)) this in
  fst (_executeCommand during_delay after) =
    if Z.of_nat j <? n then Returns tt
    else if Z.of_nat j =? n then Throws (Error "Device disconnected unexpectedly")
    else Throws (Error "Device not connected").
Proof.
  intros Q Hc Hf Hd Hk Hn after.
  assert (Inv :
    failCommands after = false /\ disconnectAfter after = Some n /\
    if Z.of_nat j <=? n then connected after = true /\ commandCount after = Z.of_nat j
    else connected after = false).
  { subst after. induction j as [|j IH].
    - change (Nat.iter 0 (fun s => snd (_executeCommand during_delay s)) this)
        with this.
      destruct (Z.leb_spec (Z.of_nat 0) n) as [_|?]; [|lia]. auto.
    - rewrite Nat.iter_succ.
      set (s := Nat.iter j (fun s => snd (_executeCommand during_delay s)) this) in *.
      destruct IH as (If & Id & Ic).
      destruct (Q s) as (Q1 & Q2 & Q3 & Q4).
      destruct (Z.leb_spec (Z.of_nat j) n) as [Lj|Lj].
      + destruct Ic as [Ic Ik].
        rewrite (_executeCommand_limited during_delay s n Ic)
          by (congruence).
        rewrite Q4, Ik.
        destruct (Z.ltb_spec n (Z.of_nat j + 1)) as [L1|L1]; cbn [snd].
        * destruct (Z.leb_spec (Z.of_nat (S j)) n) as [?|_]; [lia|].
          repeat split; cbn; congruence.
        * destruct (Z.leb_spec (Z.of_nat (S j)) n) as [_|?]; [|lia].
          repeat split; cbn; try congruence. lia.
      + rewrite (_executeCommand_disconnected during_delay s Ic). cbn [snd].
        destruct (Z.leb_spec (Z.of_nat (S j)) n) as [?|_]; [lia|]. auto. }
  destruct Inv as (If & Id & Ic).
  destruct (Q after) as (Q1 & Q2 & Q3 & Q4).
  destruct (Z.leb_spec (Z.of_nat j) n) as [Lj|Lj].
  - destruct Ic as [Ic Ik].
    rewrite (_executeCommand_limited during_delay after n Ic) by congruence.
    rewrite Q4, Ik.
    destruct (Z.ltb_spec n (Z.of_nat j + 1)) as [L1|L1]; cbn [fst].
    + destruct (Z.ltb_spec (Z.of_nat j) n) as [?|_]; [lia|].
      destruct (Z.eqb_spec (Z.of_nat j) n) as [_|?]; [reflexivity | lia].
    + destruct (Z.ltb_spec (Z.of_nat j) n) as [_|?]; [reflexivity | lia].
  - rewrite (_executeCommand_disconnected during_delay after Ic). cbn [fst].
    destruct (Z.ltb_spec (Z.of_nat j) n) as [?|_]; [lia|].
    destruct (Z.eqb_spec (Z.of_nat j) n) as [?|_]; [lia | reflexivity].
Qed.

Lemma disconnectAfter_limits_the_session_witness :
  let this := snd (setDisconnectAfter 2 (snd (connect id constructor))) in
  fst (_executeCommand id this) = Returns tt /\
  fst (_executeCommand id
         (Nat.iter 2 (fun s => snd (_executeCommand id s)) this)) =
    Throws (Error "Device disconnected unexpectedly") /\
  fst (_executeCommand id
         (Nat.iter 3 (fun s => snd (_executeCommand id s)) this)) =
    Throws (Error "Device not connected").
Proof.
  cbv zeta.
  assert (Q : forall s : MockCD48,
             connected (id s) = connected s /\ failCommands (id s) = failCommands s /\
             disconnectAfter (id s) = disconnectAfter s /\
             commandCount (id s) = commandCount s) by (intros s; auto).
  split; [|split].
  - apply (disconnectAfter_limits_the_session id
             (snd (setDisconnectAfter 2 (snd (connect id constructor)))) 2 0 Q);
      try reflexivity; lia.
  - apply (disconnectAfter_limits_the_session id
             (snd (setDisconnectAfter 2 (snd (connect id constructor)))) 2 2 Q);
      try reflexivity; lia.
  - apply (disconnectAfter_limits_the_session id
             (snd (setDisconnectAfter 2 (snd (connect id constructor)))) 2 3 Q);
      try reflexivity; lia.
Defined.
End MockSessions.

Section WizardFacts.
Import Wizard.
Local Open Scope float_scope.

Lemma flat_map_nil {A B : Type} (f : A -> list B) (l : list A) :
  flat_map f l = [] <-> forall a, In a l -> f a = [].
Proof.
  induction l as [|a l IH]; cbn [flat_map].
  - split; [intros _ a [] | reflexivity].
  - split.
    + intros E. apply app_eq_nil in E. destruct E as [Ea El].
      intros b [<-|Hb]; [exact Ea | apply IH; assumption].
    + intros F. rewrite (F a (or_introl eq_refl)).
      apply IH. intros b Hb. apply F. right. exact Hb.
Qed.

Lemma channels_0_7 (i : Z) :
  In i [0; 1; 2; 3; 4; 5; 6; 7]%Z <-> (0 <= i <= 7)%Z.
Proof.
  split.
  - intros H. repeat (destruct H as [<-|H]; [lia|]). destruct H.
  - intros H.
    assert (C : (i = 0 \/ i = 1 \/ i = 2 \/ i = 3 \/ i = 4 \/ i = 5 \/ i = 6 \/ i = 7)%Z)
      by lia.
    cbn [In]. intuition.
Qed.

(** X19. What [validate] reports.  The profile is valid exactly when no
    channel 0..7 has a gain that [getGain] returns and that is below 0.1 or
    above 10; a channel for which [getGain] returns null (no gain stored, or
    a stored gain of 0, -0 or NaN) is only warned about as not calibrated. *)
Theorem validate_flags_unusual_gains
    (Number_toString : float -> string) (this : CalibrationWizard) :
  (valid (validate Number_toString this) = true <->
   forall (i : Z) (gain : float),
     (0 <= i <= 7)%Z -> Calibration.getGain (profile this) i = Some gain ->
     (gain <? lit 1 10) = false /\ (10 <? gain) = false) /\
  (forall i : Z,
     (0 <= i <= 7)%Z -> Calibration.getGain (profile this) i = None ->
     In ("Channel " ++ channel_text i ++ " gain not calibrated")%string
        (warnings (validate Number_toString this))).
Proof.
  split.
  - unfold validate. cbv zeta. cbn [valid].
    rewrite Nat.eqb_eq, length_zero_iff_nil, flat_map_nil.
    split.
    + intros F i gain Hi Hg. apply channels_0_7 in Hi.
      specialize (F i Hi). rewrite Hg in F.
      change (int 10) with 10 in F.
      destruct ((gain <? lit 1 10) || (10 <? gain)) eqn:E; [discriminate|].
      apply orb_false_elim in E. exact E.
    + intros F i Hi. apply channels_0_7 in Hi.
      destruct (Calibration.getGain (profile this) i) as [gain|] eqn:Hg; [|reflexivity].
      destruct (F i gain Hi Hg) as [-> E]. change (int 10) with 10. rewrite E.
      reflexivity.
  - intros i Hi Hg. apply channels_0_7 in Hi.
    unfold validate. cbv zeta. cbn [warnings].
    apply in_flat_map. exists i. split; [exact Hi|].
    rewrite Hg. apply in_or_app. right. left. reflexivity.
Qed.

(** A zero or NaN divided by a positive number stays a zero or NaN. *)
Lemma zero_or_nan_div (x d : float) :
  (Prim2SF x = S754_nan \/ exists s, Prim2SF x = S754_zero s) ->
  (0 <? d) = true ->
  Prim2SF (x / d) = S754_nan \/ exists s, Prim2SF (x / d) = S754_zero s.
Proof.
  intros Hx Hd. rewrite div_spec.
  rewrite FloatAxioms.ltb_spec in Hd. unfold SFltb in Hd.
  change (Prim2SF 0) with (S754_zero false) in Hd.
  destruct Hx as [-> | [s ->]].
  - left. reflexivity.
  - destruct (Prim2SF d) as [sd|sd| |sd md ed]; simpl in Hd; try discriminate;
      destruct sd; try discriminate; right; eexists; reflexivity.
Qed.

(** X20. [calibrateGain] divides by the measured rate, whatever it is.  On a
    connected mock whose counter of the channel does not move during the
    measurement, the measured rate is zero (or NaN) and the gain that is
    stored in the profile and returned is an infinity or NaN; nothing is
    thrown.  Without a device, or with a mock that is not connected, the
    wizard throws its own "CD48 device not connected" and changes nothing. *)
Theorem calibrateGain_divides_by_the_rate
    (during_delay during_measurement : Mock.interference)
    (this : CalibrationWizard) (channel : Z) (referenceRate : float)
    (duration : option float) :
  (forall device device1,
      cd48 this = Some device -> Mock.connected device = true ->
      Mock._executeCommand during_delay device = (Returns tt, device1) ->
      (0 <= channel <= 7)%Z ->
      (Mock.count_at (during_measurement device1) channel =?
       Mock.count_at device1 channel) = true ->
      (0 <? nullish duration 10) = true ->
      exists gain this',
        calibrateGain during_delay during_measurement channel referenceRate duration this =
          (Returns gain, this') /\
        (gain = nan \/ gain = infinity \/ gain = neg_infinity) /\
        Calibration.gains (profile this') !! channel = Some gain) /\
  ((cd48 this = None \/
    exists device, cd48 this = Some device /\ Mock.connected device = false) ->
   calibrateGain during_delay during_measurement channel referenceRate duration this =
     (Throws (Error "CD48 device not connected"), this)).
Proof.
  split.
  - intros device device1 Hd Hc Hx Hch Heq Hdur.
    unfold calibrateGain, measureChannelRate. cbv zeta.
    rewrite Hd. unfold Mock.isConnected. rewrite Hc. cbn [negb nullish].
    rewrite (measureRate_accepted during_delay during_measurement device device1
               channel (nullish duration 10) Hx Hch).
    cbn [Mock.RateMeasurement.rate].
    set (delta := Mock.count_at (during_measurement device1) channel -
                  Mock.count_at device1 channel).
    assert (Hz : Prim2SF (delta / nullish duration 10) = S754_nan \/
                 exists s, Prim2SF (delta / nullish duration 10) = S754_zero s).
    { apply zero_or_nan_div; [|exact Hdur].
      apply Float64.sub_of_equal. 
      rewrite FloatAxioms.eqb_spec in *. unfold SFeqb in *.
      rewrite (Float64.SFcompare_antisym
                 (Prim2SF (Mock.count_at device1 channel))
                 (Prim2SF (Mock.count_at (during_measurement device1) channel))) in Heq.
      destruct (SFcompare (Prim2SF (Mock.count_at device1 channel))
                  (Prim2SF (Mock.count_at (during_measurement device1) channel)))
        as [[]|]; simpl in *; congruence. }
    set (gain := referenceRate / (delta / nullish duration 10)).
    assert (R : Calibration.channel_out_of_range channel = false).
    { unfold Calibration.channel_out_of_range.
      destruct (Z.ltb_spec channel 0), (Z.ltb_spec 7 channel); try reflexivity; lia. }
    unfold Calibration.setGain. rewrite R.
    eexists. eexists. split; [reflexivity|]. split.
    + apply Float64.div_by_zero, Hz.
    + cbn. apply lookup_insert_eq.
  - intros [Hn | (device & Hd & Hc)];
      unfold calibrateGain, measureChannelRate; cbv zeta; rewrite Hn || rewrite Hd.
    + reflexivity.
    + unfold Mock.isConnected. rewrite Hc. reflexivity.
Qed.

Lemma calibrateGain_divides_by_the_rate_witness :
  let device := Mock.set_connected true Mock.constructor in
  (exists gain this',
     calibrateGain id id 0 100 None (constructor (Some device)) = (Returns gain, this') /\
     (gain = nan \/ gain = infinity \/ gain = neg_infinity) /\
     Calibration.gains (profile this') !! 0%Z = Some gain) /\
  calibrateGain id id 0 100 None (constructor None) =
    (Throws (Error "CD48 device not connected"), constructor None).
Proof.
  cbv zeta. split.
  - destruct (calibrateGain_divides_by_the_rate id id
                (constructor (Some (Mock.set_connected true Mock.constructor)))
                0 100 None) as [A _].
    apply (A (Mock.set_connected true Mock.constructor)
             (Mock.set_commandCount 1 (Mock.set_connected true Mock.constructor)));
      try reflexivity. lia.
  - destruct (calibrateGain_divides_by_the_rate id id (constructor None) 0 100 None)
      as [_ B].
    apply B. left. reflexivity.
Defined.

(** A gain of 0 on channel 3: the profile is valid, and the channel is
    reported as not calibrated. *)
Example validate_zero_gain :
  exists p,
    Calibration.setGain (Calibration.constructor None None) 3 0 = Returns p /\
    forall Number_toString,
      let report := validate Number_toString
                      {| cd48 := None; profile := p; metadata := ∅ |} in
      valid report = true /\
      In "Channel 3 gain not calibrated"%string (warnings report) /\
      length (warnings report) = 16%nat.
Proof.
  eexists. split; [reflexivity|]. intros ts. cbv zeta.
  split; [reflexivity|]. split; [|reflexivity].
  vm_compute. tauto.
Qed.
End WizardFacts.

Section Signs.
Import Rounding.
Local Open Scope Z_scope.

(** Rounding keeps the sign: what [binary_round_aux] makes of a mantissa
    that is not negative is a zero, a finite number or an infinity of the
    sign it was given. *)
Lemma binary_round_aux_sign (s : bool) (M e : Z) (l : location) :
  0 <= M ->
  binary_round_aux prec emax s M e l = S754_zero s \/
  binary_round_aux prec emax s M e l = S754_infinity s \/
  exists m' e', binary_round_aux prec emax s M e l = S754_finite s m' e'.
Proof.
  intros HM. unfold binary_round_aux.
  destruct (shr_fexp prec emax M e l) as [r1 e1] eqn:E1.
  set (M2 := round_nearest_even (shr_m r1) (loc_of_shr_record r1)).
  destruct (shr_fexp prec emax M2 e1 loc_Exact) as [r3 e3] eqn:E3.
  assert (H1 : 0 <= shr_m r1).
  { unfold shr_fexp in E1.
    destruct (shr_m_spec (shr_record_of_loc M l) e
                (fexp prec emax (Zdigits2 M + e) - e)) as [A _].
    - rewrite (proj2 (loc_of_shr_record_of_loc M l)). exact HM.
    - rewrite E1 in A. cbn [fst] in A. rewrite A.
      rewrite (proj2 (loc_of_shr_record_of_loc M l)).
      destruct (Z.ltb_spec 0 (fexp prec emax (Zdigits2 M + e) - e)); [|exact HM].
      apply Z.div_pos; [exact HM|]. apply Z.pow_pos_nonneg; lia. }
  assert (H2 : 0 <= M2).
  { unfold M2. destruct (round_nearest_even_cases (shr_m r1) (loc_of_shr_record r1))
      as [-> | ->]; lia. }
  assert (H3 : 0 <= shr_m r3).
  { unfold shr_fexp in E3.
    destruct (shr_m_spec (shr_record_of_loc M2 loc_Exact) e1
                (fexp prec emax (Zdigits2 M2 + e1) - e1)) as [A _].
    - exact H2.
    - rewrite E3 in A. cbn [fst] in A. rewrite A. cbn [shr_record_of_loc shr_m].
      destruct (Z.ltb_spec 0 (fexp prec emax (Zdigits2 M2 + e1) - e1)); [|exact H2].
      apply Z.div_pos; [exact H2|]. apply Z.pow_pos_nonneg; lia. }
  destruct (shr_m r3) as [|m|m]; [auto | | lia].
  destruct (e3 <=? emax - prec); eauto.
Qed.
End Signs.

Section DivisionByOne.
Local Open Scope Z_scope.

Lemma div_eucl_exact (q b : Z) :
  (0 < b)%Z -> Z.div_eucl (q * b) b = (q, 0%Z).
Proof.
  intros Hb.
  assert (E : Z.div_eucl (q * b) b = ((q * b) / b, (q * b) mod b)%Z).
  { unfold Z.div, Z.modulo. destruct (Z.div_eucl (q * b) b). reflexivity. }
  rewrite E, Z.div_mul, Z.mod_mul by lia. reflexivity.
Qed.

Lemma div_1_r (r : float) : (r / 1 = r)%float.
Proof.
  rewrite <- (SF2Prim_Prim2SF (r / 1)%float), div_spec.
  rewrite <- (SF2Prim_Prim2SF r) at 2.
  f_equal.
  replace (Prim2SF 1%float) with (S754_finite false 4503599627370496 (-52))
    by (vm_compute; reflexivity).
  pose proof (Prim2SF_valid r) as V.
  destruct (Prim2SF r) as [s|s| |s m e];
    try (destruct s; reflexivity); try reflexivity.
  unfold valid_binary, bounded, canonical_mantissa, fexp in V.
  apply andb_prop in V. destruct V as [V1 V2].
  apply Z.eqb_eq in V1.
  unfold SF64div, SFdiv. rewrite xorb_false_r.
  unfold SFdiv_core_binary.
  change (Zdigits2 4503599627370496) with 53%Z.
  change (Zdigits2 (Z.pos m)) with (Z.pos (digits2_pos m)).
  unfold fexp. change emin with (-1074)%Z in *. change prec with 53%Z in *.
  set (d := Z.pos (digits2_pos m)) in *.
  destruct (Z.eq_dec e (-1074)) as [He|He].
  - replace (Z.min (Z.max (d + e - (53 + -52) - 53) (-1074)) (e - -52)) with e by lia.
    replace (e - -52 - e)%Z with 52%Z by ring.
    rewrite Z.shiftl_mul_pow2 by lia.
    change (2 ^ 52)%Z with 4503599627370496%Z.
    rewrite div_eucl_exact by lia.
    change (new_location 4503599627370496 0) with loc_Exact.
    unfold binary_round_aux, shr_fexp, fexp.
    change (Zdigits2 (Z.pos m)) with d.
    change (SpecFloat.emin 53 emax) with (-1074).
    rewrite V1, Z.sub_diag. cbn [shr shr_record_of_loc shr_m loc_of_shr_record round_nearest_even].
    change (Zdigits2 (Z.pos m)) with d. rewrite V1, Z.sub_diag. cbn [shr shr_m].
    rewrite V2. reflexivity.
  - assert (Hd : d = 53%Z) by lia.
    replace (Z.min (Z.max (d + e - (53 + -52) - 53) (-1074)) (e - -52)) with (e - 1)%Z by lia.
    replace (e - -52 - (e - 1))%Z with 53%Z by ring.
    rewrite Z.shiftl_mul_pow2 by lia.
    replace (Z.pos m * 2 ^ 53)%Z with (Z.pos m~0 * 4503599627370496)%Z by lia.
    rewrite div_eucl_exact by lia.
    change (new_location 4503599627370496 0) with loc_Exact.
    unfold binary_round_aux, shr_fexp, fexp.
    change (Zdigits2 (Z.pos m~0)) with (Z.pos (Pos.succ (digits2_pos m))).
    rewrite Pos2Z.inj_succ. fold d.
    change (SpecFloat.emin 53 emax) with (-1074).
    replace (Z.max (Z.succ d + (e - 1) - 53) (-1074) - (e - 1)) with 1%Z by lia.
    cbn [shr shr_record_of_loc SpecFloat.iter_pos shr_1 shr_m loc_of_shr_record
         round_nearest_even fst snd orb].
    change (Zdigits2 (Z.pos m)) with d.
    replace (e - 1 + 1)%Z with e by ring.
    rewrite V1, Z.sub_diag. cbn [shr shr_m].
    rewrite V2. reflexivity.
Qed.
End DivisionByOne.

Section SquareRoots.
Import Statistics.
Local Open Scope float_scope.

(** The square root of a number that is not below zero is a number that is
    not below zero. *)
Lemma sqrt_not_negative (x : float) :
  is_nan x = false -> (x <? 0) = false ->
  is_nan (f64_sqrt x) = false /\ (f64_sqrt x <? 0) = false.
Proof.
  unfold f64_sqrt.
  rewrite !Float64.is_nan_spec, !FloatAxioms.ltb_spec, sqrt_spec.
  change (Prim2SF 0) with (S754_zero false). unfold SFltb.
  destruct (Prim2SF x) as [s|s| |s m e]; try discriminate.
  - intros _ _. destruct s; split; reflexivity.
  - destruct s; [discriminate|]. intros _ _. split; reflexivity.
  - destruct s; [discriminate|]. intros _ _.
    unfold SF64sqrt, SFsqrt.
    destruct (SFsqrt_core_binary prec emax (Z.pos m) e) as [[mz ez] lz] eqn:C.
    assert (Hmz : (0 <= mz)%Z).
    { unfold SFsqrt_core_binary in C.
      destruct (Z.sqrtrem _) as [q r] eqn:S in C.
      injection C as <- _ _.
      pose proof (Z.sqrtrem_sqrt
        match (e - 2 * Z.min (fexp prec emax (Z.div2 (Zdigits2 (Z.pos m) + e + 1)))
                             (Z.div2 e))%Z with
        | 0%Z => Z.pos m
        | Z.pos _ => Z.shiftl (Z.pos m)
             (e - 2 * Z.min (fexp prec emax (Z.div2 (Zdigits2 (Z.pos m) + e + 1)))
                            (Z.div2 e))
        | Z.neg _ => 0%Z
        end) as Q.
      rewrite S in Q. cbn [fst] in Q. rewrite Q. apply Z.sqrt_nonneg. }
    destruct (binary_round_aux_sign false mz ez lz Hmz) as [-> | [-> | (m' & e' & ->)]];
      split; reflexivity.
Qed.

Lemma leb_0_r_cases (c : float) :
  (c <=? 0) = true -> (c <? 0) = true \/ c = 0 \/ c = (-0).
Proof.
  rewrite FloatAxioms.ltb_spec, FloatAxioms.leb_spec. unfold SFltb, SFleb.
  change (Prim2SF 0) with (S754_zero false).
  destruct (Prim2SF c) as [s|s| |s m e] eqn:E; simpl; try discriminate.
  - intros _. right. apply Float64.Prim2SF_zero in E. destruct s; auto.
  - destruct s; [auto | discriminate].
  - destruct s; [auto | discriminate].
Qed.

(** X21. [poissonUncertainty(count)], the square root of max(0, count), is
    never below zero, is NaN only for a count that is NaN, and is 0 for every
    count <= 0. *)
Theorem poissonUncertainty_is_not_negative (count : float) :
  (poissonUncertainty count <? 0) = false /\
  (is_nan count = false -> is_nan (poissonUncertainty count) = false) /\
  ((count <=? 0) = true -> poissonUncertainty count = 0).
Proof.
  unfold poissonUncertainty. change (@Math_max float float64) with f64_max.
  assert (N : is_nan count = false ->
              is_nan (f64_sqrt (f64_max 0 count)) = false /\
              (f64_sqrt (f64_max 0 count) <? 0) = false).
  { intros Hc. apply sqrt_not_negative; [|apply Float64.max_0_not_negative].
    unfold f64_max. rewrite Hc. simpl.
    destruct (0 <? count); [exact Hc|]. destruct (count <? 0); reflexivity. }
  split; [|split].
  - destruct (is_nan count) eqn:Hc; [|apply N; reflexivity].
    unfold f64_max. rewrite Hc. reflexivity.
  - intros Hc. apply N, Hc.
  - intros L. destruct (leb_0_r_cases count L) as [E|[->| ->]];
      [rewrite (Float64.max_0_negative count E)|..]; reflexivity.
Qed.

Lemma poissonUncertainty_is_not_negative_witness :
  (poissonUncertainty (-10) <? 0) = false /\
  is_nan (poissonUncertainty 25) = false /\
  poissonUncertainty (-10) = 0.
Proof.
  destruct (poissonUncertainty_is_not_negative (-10)) as (A & _ & C).
  destruct (poissonUncertainty_is_not_negative 25) as (_ & B & _).
  split; [exact A|]. split; [apply B; reflexivity | apply C; reflexivity].
Defined.
End SquareRoots.

Section SingleReading.
Import Statistics TimeSeries.
Context `{Power float}.
Local Open Scope float_scope.

(** [0 + x] is [x], but [+0] for [-0]. *)
Lemma add_0_l (x : float) : 0 + x = x \/ (x = (-0) /\ 0 + x = 0).
Proof.
  rewrite <- (SF2Prim_Prim2SF (0 + x)), add_spec.
  change (Prim2SF 0) with (S754_zero false).
  destruct (Prim2SF x) as [s|s| |s m e] eqn:E.
  - destruct s.
    + right. split; [apply (Float64.Prim2SF_zero x true E) | reflexivity].
    + left. rewrite <- (SF2Prim_Prim2SF x), E. reflexivity.
  - left. rewrite <- (SF2Prim_Prim2SF x), E. reflexivity.
  - left. rewrite <- (SF2Prim_Prim2SF x), E. reflexivity.
  - left. rewrite <- (SF2Prim_Prim2SF x), E. reflexivity.
Qed.

(** A finite number minus itself is [+0]. *)
Lemma sub_diag (x : float) : is_finite x = true -> x - x = 0.
Proof.
  intros F. rewrite <- (SF2Prim_Prim2SF (x - x)), sub_spec.
  unfold is_finite, is_infinity in F. apply negb_true_iff, orb_false_elim in F.
  destruct F as [Fn Fi].
  rewrite Float64.is_nan_spec in Fn.
  rewrite FloatAxioms.eqb_spec, abs_spec in Fi.
  destruct (Prim2SF x) as [s|s| |s m e]; try discriminate.
  - destruct s; reflexivity.
  - unfold SF64sub, SFsub. rewrite Z.sub_diag. reflexivity.
Qed.

(** The mean of one reading. *)
Lemma mean_of_one (x : float) : mean [x] = 0 + x.
Proof.
  unfold mean. cbn [length Nat.eqb fold_left].
  change (@int float float64 0) with 0.
  change (@int float float64 (Z.of_nat 1)) with 1.
  apply div_1_r.
Qed.

Lemma div_nan (x : float) : x / nan = nan.
Proof.
  rewrite <- (SF2Prim_Prim2SF (x / nan)), div_spec.
  change (Prim2SF nan) with S754_nan.
  destruct (Prim2SF x); reflexivity.
Qed.

(** X22. One reading has no spread to estimate: for a single finite reading
    the sample standard deviation and variance are NaN (0/0), not 0, the
    population standard deviation is 0, and [detectOutliers] reports nothing.
    ([Math.pow] is any implementation that maps a zero base to 0, as the
    language requires.) *)
Theorem single_reading_has_no_spread (x : float) (threshold : option float) :
  Math_pow 0 2 = 0 -> Math_pow (-0) 2 = 0 -> is_finite x = true ->
  standardDeviation [x] None = nan /\
  variance [x] None = nan /\
  standardDeviation [x] (Some false) = 0 /\
  detectOutliers [x] threshold = [].
Proof.
  intros P0 Pn F.
  assert (D : Math_pow (x - mean [x]) 2 = 0).
  { rewrite mean_of_one. destruct (add_0_l x) as [->|[-> ->]].
    - rewrite (sub_diag x F). exact P0.
    - exact Pn. }
  assert (S1 : standardDeviation [x] None = nan).
  { unfold standardDeviation. cbn [length Nat.eqb map fold_left].
    rewrite D. reflexivity. }
  assert (S2 : standardDeviation [x] (Some false) = 0).
  { unfold standardDeviation. cbn [length Nat.eqb map fold_left].
    rewrite D. reflexivity. }
  split; [exact S1|]. split; [unfold variance; rewrite S1; reflexivity|].
  split; [exact S2|].
  unfold detectOutliers. cbn [length Nat.eqb]. rewrite S1.
  change (nan =? 0) with false. cbv iota.
  unfold reduce. cbn [reduce_from]. rewrite div_nan.
  change (f64_abs nan) with nan.
  assert (T : (nullish threshold 3 <? nan) = false).
  { rewrite FloatAxioms.ltb_spec. unfold SFltb. change (Prim2SF nan) with S754_nan.
    destruct (Prim2SF (nullish threshold 3)); reflexivity. }
  rewrite T. reflexivity.
Qed.
End SingleReading.

Section SingleReadingExample.
Import Statistics TimeSeries.
Local Open Scope float_scope.

Lemma single_reading_has_no_spread_witness :
  let P := {| Math_pow := fun b _ : float => b * b |} in
  @standardDeviation P [5] None = nan /\
  @variance P [5] None = nan /\
  @standardDeviation P [5] (Some false) = 0 /\
  @detectOutliers P [5] None = [].
Proof.
  cbv zeta.
  apply (@single_reading_has_no_spread {| Math_pow := fun b _ : float => b * b |} 5 None);
    reflexivity.
Defined.
End SingleReadingExample.

Section SignalToNoise.
Import Coincidence.
Local Open Scope float_scope.

Lemma SFdiv_core_quotient (m1 : positive) (e1 : Z) (m2 : positive) (e2 : Z)
    (q e' : Z) (l : location) :
  SFdiv_core_binary prec emax (Z.pos m1) e1 (Z.pos m2) e2 = (q, e', l) ->
  (0 <= q)%Z.
Proof.
  unfold SFdiv_core_binary.
  set (s := (e1 - e2 - Z.min (fexp prec emax (Zdigits2 (Z.pos m1) + e1 -
                                               (Zdigits2 (Z.pos m2) + e2)))
                             (e1 - e2))%Z).
  set (m' := match s with
             | 0%Z => Z.pos m1
             | Z.pos _ => Z.shiftl (Z.pos m1) s
             | Z.neg _ => 0%Z
             end).
  assert (Hm : (0 <= m')%Z).
  { unfold m'. destruct s; try lia. apply Z.shiftl_nonneg. lia. }
  assert (Q : Z.div_eucl m' (Z.pos m2) = (m' / Z.pos m2, m' mod Z.pos m2)%Z).
  { unfold Z.div, Z.modulo. destruct (Z.div_eucl m' (Z.pos m2)). reflexivity. }
  rewrite Q. intros E. injection E as <- _ _.
  apply Z.div_pos; lia.
Qed.

(** A number that is not below zero, divided by a positive number, is not
    below zero. *)
Lemma div_not_negative (x d : float) :
  (x <? 0) = false -> (0 <? d) = true -> (x / d <? 0) = false.
Proof.
  rewrite !FloatAxioms.ltb_spec, div_spec. unfold SFltb.
  change (Prim2SF 0) with (S754_zero false).
  destruct (Prim2SF x) as [sx|sx| |sx mx ex], (Prim2SF d) as [sd|sd| |sd md ed].
  16: {
    destruct sx; [discriminate|]. destruct sd; [discriminate|]. intros _ _.
    unfold SF64div, SFdiv.
    destruct (SFdiv_core_binary prec emax (Z.pos mx) ex (Z.pos md) ed)
      as [[q e'] l] eqn:E.
    pose proof (SFdiv_core_quotient _ _ _ _ _ _ _ E) as Hq.
    cbn [xorb].
    destruct (binary_round_aux_sign false q e' l Hq)
      as [-> | [-> | (m' & e'' & ->)]]; reflexivity. }
  all: simpl; try discriminate; try reflexivity;
    try (destruct sx, sd; simpl; try discriminate; reflexivity).
Qed.

(** X23. The signal-to-noise ratio of a corrected rate is never negative.
    For an accidental rate that is not below zero,
    [signalToNoise(trueRate(measured, r1, r2, w), accidental)] is not below
    zero; for an accidental rate of zero it is +Infinity, also when the
    true rate is zero. *)
Theorem signalToNoise_is_not_negative
    (measuredRate rate1 rate2 coincidenceWindow accidental : float) :
  (0 <=? accidental) = true ->
  (signalToNoise (trueRate measuredRate rate1 rate2 coincidenceWindow) accidental <? 0)
    = false /\
  ((accidental =? 0) = true ->
   signalToNoise (trueRate measuredRate rate1 rate2 coincidenceWindow) accidental
     = infinity).
Proof.
  intros Ha. unfold signalToNoise.
  destruct (accidental =? 0) eqn:E; [split; reflexivity|].
  split; [|discriminate].
  apply div_not_negative.
  - unfold trueRate. apply Float64.max_0_not_negative.
  - destruct (Float64.leb_0_cases accidental Ha) as [P|[->| ->]];
      [exact P | discriminate E | discriminate E].
Qed.

Lemma signalToNoise_is_not_negative_witness :
  (signalToNoise (trueRate 5 100 200 0.0009765625) 40 <? 0) = false /\
  signalToNoise (trueRate 0 0 0 0.0009765625) 0 = infinity.
Proof.
  split.
  - apply (signalToNoise_is_not_negative 5 100 200 0.0009765625 40). reflexivity.
  - apply (signalToNoise_is_not_negative 0 0 0 0.0009765625 0); reflexivity.
Defined.
End SignalToNoise.

Section HistogramOfIdenticalReadings.
Import Histogram.
Local Open Scope float_scope.

Lemma min_max_of_identical (v : float) (n : nat) :
  is_nan v = false ->
  Math_min_of v (repeat v n) = v /\ Math_max_of v (repeat v n) = v.
Proof.
  intros Hv.
  assert (Hlt : (v <? v) = false).
  { destruct (v <? v) eqn:E; [|reflexivity].
    rewrite (Float64.ltb_asym _ _ E) in E. discriminate. }
  assert (Emin : f64_min v v = v).
  { unfold f64_min. rewrite Hv, Hlt. simpl. destruct (get_sign v); reflexivity. }
  assert (Emax : f64_max v v = v).
  { unfold f64_max. rewrite Hv, Hlt. simpl. destruct (get_sign v); reflexivity. }
  unfold Math_min_of, Math_max_of.
  change (@Math_min float float64) with f64_min.
  change (@Math_max float float64) with f64_max.
  induction n as [|n [I1 I2]]; [split; reflexivity|].
  cbn [repeat fold_left]. rewrite Emin, Emax. split; assumption.
Qed.

(** Zero divided by anything is a zero or NaN, and zero divided by that is
    NaN. *)
Lemma zero_div_zero_div (x : float) : 0 / (0 / x) = nan.
Proof.
  rewrite <- (SF2Prim_Prim2SF (0 / (0 / x))), !div_spec.
  change (Prim2SF 0) with (S754_zero false).
  destruct (Prim2SF x) as [s|s| |s m e]; reflexivity.
Qed.

(** The counts of a histogram of identical readings. *)
Lemma counts_of_identical_readings (v : float) (n : nat) (options_bins : option nat) :
  is_finite v = true ->
  counts (create (v :: repeat v n) options_bins None None) =
    repeat (Some 0)
      match options_bins with
      | Some b => if (b =? 0)%nat then 10%nat else b
      | None => 10%nat
      end.
Proof.
  intros F.
  assert (Hv : is_nan v = false).
  { unfold is_finite in F. apply negb_true_iff, orb_false_elim in F. apply F. }
  unfold create. cbv zeta.
  destruct (min_max_of_identical v n Hv) as [-> ->].
  set (bins := match options_bins with
               | Some b => if (b =? 0)%nat then 10%nat else b
               | None => 10%nat
               end).
  cbn [counts].
  change (@num_sub float float64) with PrimFloat.sub.
  change (@num_div float float64) with PrimFloat.div.
  change (@num_ltb float float64) with PrimFloat.ltb.
  change (@int float float64 0) with 0.
  assert (Hlt : (v <? v) = false).
  { destruct (v <? v) eqn:E; [|reflexivity].
    rewrite (Float64.ltb_asym _ _ E) in E. discriminate. }
  change (v :: repeat v n) with (repeat v (S n)).
  rewrite (sub_diag v F).
  generalize (repeat (Some 0) bins) as counts0.
  induction (S n) as [|k IH]; intros counts0; [reflexivity|].
  cbn [repeat fold_left]. rewrite Hlt. cbn [orb].
  rewrite (sub_diag v F), zero_div_zero_div.
  change (Math_floor nan) with (@None Z). cbn [increment]. apply IH.
Qed.


End HistogramOfIdenticalReadings.

Section CoincidenceMeasurement.
Import Mock.
Local Open Scope float_scope.

(** X27. [measureCoincidenceRate] and its default.  Once the command is
    accepted, the counts are the coincidence counter after the wait minus
    the counter before it.  Without [options.duration] the duration is 1, so
    the rate is the counts themselves and the uncertainty is
    sqrt(max(0, counts)); a duration of 0 is taken as given ([??], not
    [||]), and the rate is then NaN or an infinity. *)
Theorem measureCoincidenceRate_defaults
    (during_delay during_measurement : interference) (this this1 : MockCD48) :
  _executeCommand during_delay this = (Returns tt, this1) ->
  let counts := coincidenceCounts (during_measurement this1) - coincidenceCounts this1 in
  (exists r,
     measureCoincidenceRate during_delay during_measurement None this =
       (Returns r, during_measurement this1) /\
     CoincidenceRateMeasurement.duration r = 1 /\
     CoincidenceRateMeasurement.counts r = counts /\
     CoincidenceRateMeasurement.rate r = counts /\
     CoincidenceRateMeasurement.uncertainty r = Statistics.poissonUncertainty counts) /\
  (exists r,
     measureCoincidenceRate during_delay during_measurement (Some 0) this =
       (Returns r, during_measurement this1) /\
     CoincidenceRateMeasurement.duration r = 0 /\
     (CoincidenceRateMeasurement.rate r = nan \/
      CoincidenceRateMeasurement.rate r = infinity \/
      CoincidenceRateMeasurement.rate r = neg_infinity)).
Proof.
  intros Hx counts.
  assert (E : forall d,
    measureCoincidenceRate during_delay during_measurement d this =
      (Returns {| CoincidenceRateMeasurement.duration := nullish d 1;
                  CoincidenceRateMeasurement.counts := counts;
                  CoincidenceRateMeasurement.rate := counts / nullish d 1;
                  CoincidenceRateMeasurement.uncertainty :=
                    Math_sqrt (f64_max 0 counts) / nullish d 1 |},
       during_measurement this1)).
  { intros d. unfold measureCoincidenceRate. unfold mbind at 1. rewrite Hx. reflexivity. }
  split.
  - eexists. split; [apply E|]. cbn [nullish CoincidenceRateMeasurement.duration
      CoincidenceRateMeasurement.counts CoincidenceRateMeasurement.rate
      CoincidenceRateMeasurement.uncertainty].
    rewrite !div_1_r. repeat split.
  - eexists. split; [apply E|]. cbn [nullish CoincidenceRateMeasurement.duration
      CoincidenceRateMeasurement.rate].
    split; [reflexivity|].
    apply Float64.div_by_zero. right. exists false. reflexivity.
Qed.

Lemma measureCoincidenceRate_defaults_witness :
  let this := set_coincidenceCounts 10 (set_connected true constructor) in
  let counting := set_coincidenceCounts 14 in
  (exists r,
     measureCoincidenceRate id counting None this =
       (Returns r, counting (set_commandCount 1 this)) /\
     CoincidenceRateMeasurement.duration r = 1 /\
     CoincidenceRateMeasurement.counts r = 4 /\
     CoincidenceRateMeasurement.rate r = 4 /\
     CoincidenceRateMeasurement.uncertainty r = 2) /\
  (exists r,
     measureCoincidenceRate id counting (Some 0) this =
       (Returns r, counting (set_commandCount 1 this)) /\
     CoincidenceRateMeasurement.duration r = 0 /\
     (CoincidenceRateMeasurement.rate r = nan \/
      CoincidenceRateMeasurement.rate r = infinity \/
      CoincidenceRateMeasurement.rate r = neg_infinity)).
Proof.
  cbv zeta.
  exact (measureCoincidenceRate_defaults id (set_coincidenceCounts 14)
           (set_coincidenceCounts 10 (set_connected true constructor))
           (set_commandCount 1 (set_coincidenceCounts 10 (set_connected true constructor)))
           eq_refl).
Defined.
End CoincidenceMeasurement.

Section WizardVoltage.
Import Wizard.
Local Open Scope float_scope.

(** X28. [calibrateVoltage] and [validate] can disagree.  For a channel 0..7
    the call stores the voltage and sets the metadata flag
    [voltage_calibrated_ch<channel>]; the gains are not touched.  When the
    known voltage is 0, -0 or NaN the flag is set all the same, while
    [getVoltage] returns null and [validate] still warns that the voltage of
    the channel is not calibrated.  Outside 0..7 the call throws and neither
    the profile nor the flag changes. *)
Theorem calibrateVoltage_sets_the_flag
    (Number_toString : float -> string) (this : CalibrationWizard)
    (channel : Z) (knownVoltage : float) :
  ((0 <= channel <= 7)%Z ->
   exists this',
     calibrateVoltage channel knownVoltage this = (Returns tt, this') /\
     metadata this' !! ("voltage_calibrated_ch" ++ channel_text channel)%string =
       Some (JBoolean true) /\
     Calibration.getVoltage (profile this') channel =
       (if truthy knownVoltage then Some knownVoltage else None) /\
     (forall c, Calibration.getGain (profile this') c =
                Calibration.getGain (profile this) c) /\
     (truthy knownVoltage = false ->
      In ("Channel " ++ channel_text channel ++ " voltage not calibrated")%string
         (warnings (validate Number_toString this')))) /\
  ((channel < 0 \/ 7 < channel)%Z ->
   calibrateVoltage channel knownVoltage this =
     (Throws (Error "Channel must be between 0 and 7"), this)).
Proof.
  split.
  - intros Hc.
    assert (R : Calibration.channel_out_of_range channel = false).
    { unfold Calibration.channel_out_of_range.
      destruct (Z.ltb_spec channel 0), (Z.ltb_spec 7 channel); try reflexivity; lia. }
    unfold calibrateVoltage, Calibration.setVoltage. rewrite R.
    eexists. split; [reflexivity|].
    assert (G : Calibration.getVoltage
                  {| Calibration.name := Calibration.name (profile this);
                     Calibration.description := Calibration.description (profile this);
                     Calibration.voltages :=
                       <[channel := knownVoltage]> (Calibration.voltages (profile this));
                     Calibration.thresholds := Calibration.thresholds (profile this);
                     Calibration.gains := Calibration.gains (profile this);
                     Calibration.offsets := Calibration.offsets (profile this) |} channel =
                (if truthy knownVoltage then Some knownVoltage else None)).
    { unfold Calibration.getVoltage. cbn. rewrite lookup_insert_eq. reflexivity. }
    split; [cbn; apply lookup_insert_eq|].
    split; [exact G|].
    split; [intros c; reflexivity|].
    intros Hf. unfold validate. cbv zeta. cbn [warnings].
    apply in_flat_map. exists channel. split; [apply channels_0_7; exact Hc|].
    apply in_or_app. left.
    cbn [profile set_metadata set_profile]. rewrite G, Hf. left. reflexivity.
  - intros Hc.
    assert (R : Calibration.channel_out_of_range channel = true).
    { unfold Calibration.channel_out_of_range.
      destruct (Z.ltb_spec channel 0), (Z.ltb_spec 7 channel); try reflexivity; lia. }
    unfold calibrateVoltage, Calibration.setVoltage. rewrite R. reflexivity.
Qed.

Lemma calibrateVoltage_sets_the_flag_witness :
  (exists this',
     calibrateVoltage 2 0 (constructor None) = (Returns tt, this') /\
     metadata this' !! "voltage_calibrated_ch2"%string = Some (JBoolean true) /\
     Calibration.getVoltage (profile this') 2 = None /\
     In "Channel 2 voltage not calibrated"%string
        (warnings (validate (fun _ => EmptyString) this'))) /\
  calibrateVoltage 8 3 (constructor None) =
    (Throws (Error "Channel must be between 0 and 7"), constructor None).
Proof.
  split.
  - destruct (calibrateVoltage_sets_the_flag (fun _ => EmptyString) (constructor None) 2 0)
      as [A _].
    destruct A as (this' & E & F & G & _ & Wn); [lia|].
    exists this'. split; [exact E|]. split; [exact F|]. split; [exact G|].
    apply Wn. reflexivity.
  - destruct (calibrateVoltage_sets_the_flag (fun _ => EmptyString) (constructor None) 8 3)
      as [_ B].
    apply B. right. lia.
Defined.
End WizardVoltage.

Section ZScores.
Import Statistics.
Local Open Scope float_scope.

Lemma add_comm (a b : float) : a + b = b + a.
Proof.
  rewrite <- (SF2Prim_Prim2SF (a + b)), <- (SF2Prim_Prim2SF (b + a)), !add_spec.
  f_equal.
  destruct (Prim2SF a) as [sa|sa| |sa ma ea], (Prim2SF b) as [sb|sb| |sb mb eb];
    try reflexivity; try (destruct sa, sb; reflexivity).
  unfold SF64add, SFadd. rewrite (Z.min_comm eb ea). f_equal. apply Z.add_comm.
Qed.

(** The sign given to a rounding is the sign of its result, and nothing
    else of the result depends on it. *)
Lemma binary_round_aux_abs (s : bool) (M e : Z) (l : location) :
  SFabs (binary_round_aux prec emax s M e l) =
  SFabs (binary_round_aux prec emax false M e l).
Proof.
  unfold binary_round_aux.
  destruct (shr_fexp prec emax M e l) as [r1 e1].
  destruct (shr_fexp prec emax _ e1 loc_Exact) as [r2 e2].
  destruct (shr_m r2); try reflexivity.
  destruct (_ <=? _)%Z; reflexivity.
Qed.

Lemma binary_normalize_abs (m e : Z) :
  SFabs (binary_normalize prec emax (- m) e false) =
  SFabs (binary_normalize prec emax m e false).
Proof.
  unfold binary_normalize, binary_round.
  destruct m as [|p|p];
    [reflexivity
    | change (- Z.pos p)%Z with (Z.neg p)
    | change (- Z.neg p)%Z with (Z.pos p)]; cbv iota;
    destruct (shl_align p e (fexp prec emax (Z.pos (digits2_pos p) + e))) as [mz ez];
    rewrite (binary_round_aux_abs true); reflexivity.
Qed.

Lemma abs_sub_comm (a b : float) : abs (a - b) = abs (b - a).
Proof.
  rewrite <- (SF2Prim_Prim2SF (abs (a - b))), <- (SF2Prim_Prim2SF (abs (b - a))).
  rewrite !abs_spec, !sub_spec. f_equal.
  destruct (Prim2SF a) as [sa|sa| |sa ma ea], (Prim2SF b) as [sb|sb| |sb mb eb];
    try reflexivity; try (destruct sa, sb; reflexivity).
  unfold SF64sub, SFsub. rewrite (Z.min_comm eb ea).
  rewrite <- binary_normalize_abs. f_equal. f_equal. ring.
Qed.

Lemma abs_not_negative (x : float) : (abs x <? 0) = false.
Proof.
  rewrite FloatAxioms.ltb_spec, abs_spec. unfold SFltb.
  change (Prim2SF 0) with (S754_zero false).
  destruct (Prim2SF x) as [s|s| |s m e]; reflexivity.
Qed.

(** A square root is NaN, a zero, or above zero. *)
Lemma sqrt_cases (x : float) :
  f64_sqrt x = nan \/ (f64_sqrt x =? 0) = true \/ (0 <? f64_sqrt x) = true.
Proof.
  destruct (is_nan x) eqn:Hn.
  { left. rewrite Float64.is_nan_spec in Hn. unfold f64_sqrt.
    rewrite <- (SF2Prim_Prim2SF (sqrt x)), sqrt_spec.
    destruct (Prim2SF x); try discriminate. reflexivity. }
  destruct (x <? 0) eqn:Hl.
  { left. rewrite FloatAxioms.ltb_spec in Hl. unfold SFltb in Hl. unfold f64_sqrt.
    rewrite <- (SF2Prim_Prim2SF (sqrt x)), sqrt_spec.
    change (Prim2SF 0) with (S754_zero false) in Hl.
    destruct (Prim2SF x) as [s|s| |s m e]; try discriminate;
      destruct s; try discriminate; reflexivity. }
  right. destruct (sqrt_not_negative x Hn Hl) as [N L].
  rewrite Float64.is_nan_spec in N.
  rewrite FloatAxioms.ltb_spec in L. rewrite FloatAxioms.eqb_spec, FloatAxioms.ltb_spec.
  unfold SFltb, SFeqb in *. change (Prim2SF 0) with (S754_zero false) in *.
  destruct (Prim2SF (f64_sqrt x)) as [s|s| |s m e]; try discriminate.
  - left. reflexivity.
  - right. destruct s; [discriminate | reflexivity].
  - right. destruct s; [discriminate | reflexivity].
Qed.

Lemma zero_div_positive (u : float) : (0 <? u) = true -> 0 / u = 0.
Proof.
  intros Hu. rewrite <- (SF2Prim_Prim2SF (0 / u)), div_spec.
  rewrite FloatAxioms.ltb_spec in Hu. unfold SFltb in Hu.
  change (Prim2SF 0) with (S754_zero false) in *.
  destruct (Prim2SF u) as [s|s| |s m e]; try discriminate;
    destruct s; try discriminate; reflexivity.
Qed.

(** Twice a finite number that is not below zero is a number that is not
    below zero. *)
Lemma double_not_negative (a : float) :
  is_finite a = true -> (a <? 0) = false ->
  is_nan (a + a) = false /\ (a + a <? 0) = false.
Proof.
  intros F L. unfold is_finite, is_infinity in F.
  apply negb_true_iff, orb_false_elim in F. destruct F as [Fn Fi].
  rewrite Float64.is_nan_spec in Fn |- *.
  rewrite FloatAxioms.eqb_spec, abs_spec in Fi.
  rewrite FloatAxioms.ltb_spec in L |- *. rewrite add_spec.
  unfold SFltb in *. change (Prim2SF 0) with (S754_zero false) in *.
  destruct (Prim2SF a) as [s|s| |s m e]; try discriminate.
  - destruct s; split; reflexivity.
  - destruct s; [discriminate|].
    unfold SF64add, SFadd, binary_normalize, binary_round. cbn [cond_Zopp].
    destruct (shl_align m e (Z.min e e)) as [m1 e1]. cbn [fst].
    change (Z.pos m1 + Z.pos m1)%Z with (Z.pos (m1 + m1)). cbv iota.
    destruct (shl_align _ _ _) as [mz ez].
    destruct (binary_round_aux_sign false (Z.pos mz) ez loc_Exact)
      as [-> | [-> | (m' & e' & ->)]]; [lia | | |]; split; reflexivity.
Qed.

(** X29. The z-score of two counts does not depend on their order and is
    never below zero.  Two equal finite counts that are not negative have
    z-score 0, also when both are 0, where the uncertainty is 0 and the
    quotient is not formed. *)
Theorem zScore_is_symmetric (count1 count2 : float) :
  zScore count1 count2 = zScore count2 count1 /\
  (zScore count1 count2 <? 0) = false /\
  (count1 = count2 -> is_finite count1 = true -> (count1 <? 0) = false ->
   zScore count1 count2 = 0).
Proof.
  split; [|split].
  - unfold zScore, f64_abs. cbv zeta. rewrite (add_comm count2 count1), (abs_sub_comm count2 count1).
    reflexivity.
  - unfold zScore. cbv zeta. unfold f64_abs.
    destruct (f64_sqrt (count1 + count2) =? 0) eqn:Ez; [reflexivity|].
    destruct (sqrt_cases (count1 + count2)) as [-> | [E | P]].
    + rewrite div_nan. reflexivity.
    + congruence.
    + apply div_not_negative; [apply abs_not_negative | exact P].
  - intros <- F L. unfold zScore. cbv zeta. unfold f64_abs.
    destruct (f64_sqrt (count1 + count1) =? 0) eqn:Ez; [reflexivity|].
    rewrite (sub_diag count1 F). change (abs 0) with 0.
    destruct (sqrt_cases (count1 + count1)) as [N | [E | P]].
    + exfalso. destruct (double_not_negative count1 F L) as [Dn Dl].
      destruct (sqrt_not_negative _ Dn Dl) as [Sn _].
      rewrite N in Sn. discriminate.
    + congruence.
    + apply zero_div_positive, P.
Qed.

Lemma zScore_is_symmetric_witness :
  zScore 9 16 = zScore 16 9 /\ (zScore 9 16 <? 0) = false /\ zScore 8 8 = 0 /\
  zScore 0 0 = 0.
Proof.
  destruct (zScore_is_symmetric 9 16) as (A & B & _).
  destruct (zScore_is_symmetric 8 8) as (_ & _ & C).
  destruct (zScore_is_symmetric 0 0) as (_ & _ & D).
  split; [exact A|]. split; [exact B|].
  split; [apply C; reflexivity | apply D; reflexivity].
Defined.
End ZScores.

Section Smoothing.
Import Statistics TimeSeries.
Local Open Scope float_scope.

Lemma nan_mul (x : float) : nan * x = nan.
Proof.
  rewrite <- (SF2Prim_Prim2SF (nan * x)), mul_spec.
  change (Prim2SF nan) with S754_nan. reflexivity.
Qed.

Lemma nan_add (x : float) : nan + x = nan.
Proof.
  rewrite <- (SF2Prim_Prim2SF (nan + x)), add_spec.
  change (Prim2SF nan) with S754_nan. reflexivity.
Qed.

Lemma is_nan_eq (x : float) : is_nan x = true -> x = nan.
Proof.
  rewrite Float64.is_nan_spec. intros E.
  rewrite <- (SF2Prim_Prim2SF x).
  destruct (Prim2SF x); try discriminate. reflexivity.
Qed.

(** With a NaN factor every smoothed value after the first is NaN. *)
Lemma ema_from_nan (previous : float) (data : list float) :
  exponentialMovingAverage_from nan previous data = repeat nan (length data).
Proof.
  revert previous. induction data as [|d data IH]; intros previous; [reflexivity|].
  cbn [exponentialMovingAverage_from length repeat].
  change (@num_mul float float64) with PrimFloat.mul.
  change (@num_add float float64) with PrimFloat.add.
  rewrite nan_mul, nan_add. f_equal. apply IH.
Qed.

Lemma ema_from_length (alpha previous : float) (data : list float) :
  length (exponentialMovingAverage_from alpha previous data) = length data.
Proof.
  revert previous. induction data as [|d data IH]; intros previous; [reflexivity|].
  cbn [exponentialMovingAverage_from length]. f_equal. apply IH.
Qed.

(** X12. The guard of [exponentialMovingAverage] on doubles.  Readings that
    are not empty with a factor below 0 or above 1 throw; with a factor
    from 0 to 1, and with the default 0.3, the function returns one value per
    reading, the first being the first reading.  A NaN factor passes the
    guard (both comparisons are false): nothing is thrown and every value
    after the first is NaN.  Empty readings give an empty array whatever the
    factor is. *)
Theorem exponentialMovingAverage_checks_alpha
    (d0 : float) (data : list float) (alpha : float) :
  exponentialMovingAverage [] (Some alpha) = Returns [] /\
  ((alpha <? 0) = true \/ (1 <? alpha) = true ->
   exponentialMovingAverage (d0 :: data) (Some alpha) =
     Throws (Error "Alpha must be between 0 and 1")) /\
  ((0 <=? alpha) = true -> (alpha <=? 1) = true ->
   exists smoothed,
     exponentialMovingAverage (d0 :: data) (Some alpha) = Returns (d0 :: smoothed) /\
     length smoothed = length data) /\
  (exists smoothed,
     exponentialMovingAverage (d0 :: data) None = Returns (d0 :: smoothed) /\
     length smoothed = length data) /\
  (is_nan alpha = true ->
   exponentialMovingAverage (d0 :: data) (Some alpha) =
     Returns (d0 :: repeat nan (length data))).
Proof.
  split; [reflexivity|]. split; [|split; [|split]].
  - intros Ha. unfold exponentialMovingAverage, nullish.
    change (@num_ltb float float64) with PrimFloat.ltb.
    change (@int float float64 0) with 0. change (@int float float64 1) with 1.
    destruct Ha as [-> | ->]; [reflexivity | rewrite orb_true_r; reflexivity].
  - intros A0 A1. unfold exponentialMovingAverage, nullish.
    change (@num_ltb float float64) with PrimFloat.ltb.
    change (@int float float64 0) with 0. change (@int float float64 1) with 1.
    rewrite (Float64.leb_ltb_false _ _ A0), (Float64.leb_ltb_false _ _ A1).
    eexists. split; [reflexivity | apply ema_from_length].
  - eexists. split; [reflexivity | apply ema_from_length].
  - intros Hn. rewrite (is_nan_eq alpha Hn).
    unfold exponentialMovingAverage, nullish.
    change ((nan <? int 0)%js || (nan >? int 1)%js) with false. cbv iota.
    rewrite ema_from_nan. reflexivity.
Qed.

Lemma exponentialMovingAverage_checks_alpha_witness :
  exponentialMovingAverage [10; 20; 0] (Some 2) =
    Throws (Error "Alpha must be between 0 and 1") /\
  (exists smoothed,
     exponentialMovingAverage [10; 20; 0] (Some 0.5) = Returns (10 :: smoothed) /\
     length smoothed = 2%nat) /\
  exponentialMovingAverage [10; 20; 0] (Some nan) = Returns [10; nan; nan].
Proof.
  destruct (exponentialMovingAverage_checks_alpha 10 [20; 0] 2) as (_ & A & _).
  destruct (exponentialMovingAverage_checks_alpha 10 [20; 0] 0.5) as (_ & _ & B & _).
  destruct (exponentialMovingAverage_checks_alpha 10 [20; 0] nan) as (_ & _ & _ & _ & C).
  split; [apply A; right; reflexivity|].
  split; [apply B; reflexivity|].
  apply C. reflexivity.
Defined.

Lemma mul_comm (a b : float) : a * b = b * a.
Proof.
  rewrite <- (SF2Prim_Prim2SF (a * b)), <- (SF2Prim_Prim2SF (b * a)), !mul_spec.
  f_equal.
  destruct (Prim2SF a) as [sa|sa| |sa ma ea], (Prim2SF b) as [sb|sb| |sb mb eb];
    try reflexivity; try (destruct sa, sb; reflexivity).
  unfold SF64mul, SFmul.
  rewrite (xorb_comm sb sa), (Pos.mul_comm mb ma), (Z.add_comm eb ea). reflexivity.
Qed.

Lemma is_finite_spec (x : float) :
  is_finite x = match Prim2SF x with
                | S754_zero _ | S754_finite _ _ _ => true
                | _ => false
                end.
Proof.
  unfold is_finite, is_infinity.
  rewrite Float64.is_nan_spec, FloatAxioms.eqb_spec, abs_spec.
  change (Prim2SF infinity) with (S754_infinity false).
  destruct (Prim2SF x) as [s|s| |s m e]; reflexivity.
Qed.

(** A finite number times zero is a zero. *)
Lemma zero_mul_finite (x : float) :
  is_finite x = true -> exists s, Prim2SF (0 * x) = S754_zero s.
Proof.
  rewrite is_finite_spec, mul_spec. change (Prim2SF 0) with (S754_zero false).
  destruct (Prim2SF x) as [s|s| |s m e]; try discriminate; intros _;
    eexists; reflexivity.
Qed.

(** Adding a zero to a finite number gives the number (as a number: the
    sign of a zero may change). *)
Lemma add_zero_finite (d z : float) (s : bool) :
  is_finite d = true -> Prim2SF z = S754_zero s ->
  (d + z =? d) = true /\ is_finite (d + z) = true.
Proof.
  rewrite !is_finite_spec, FloatAxioms.eqb_spec, add_spec. intros F ->.
  unfold SFeqb.
  destruct (Prim2SF d) as [sd|sd| |sd m e]; try discriminate.
  - destruct sd, s; split; reflexivity.
  - cbn [SF64add SFadd]. rewrite Float64.SFcompare_refl by discriminate.
    split; reflexivity.
Qed.

(** With the factor 1 the loop copies the readings. *)
Lemma ema_from_one (previous : float) (data : list float) :
  is_finite previous = true -> Forall (fun d => is_finite d = true) data ->
  Forall2 (fun r d => (r =? d) = true)
          (exponentialMovingAverage_from 1 previous data) data.
Proof.
  revert previous. induction data as [|d data IH]; intros previous Fp F;
    [constructor|].
  inversion F as [|d' l' Fd Fl]; subst.
  cbn [exponentialMovingAverage_from].
  change (@num_mul float float64) with PrimFloat.mul.
  change (@num_add float float64) with PrimFloat.add.
  change (@num_sub float float64) with PrimFloat.sub.
  change (@int float float64 1) with 1. change (1 - 1) with 0.
  rewrite (mul_comm 1 d), Float64.mul_1_r.
  destruct (zero_mul_finite previous Fp) as [s Z].
  destruct (add_zero_finite d (0 * previous) s Fd Z) as [E Fr].
  constructor; [exact E|]. apply IH; assumption.
Qed.

(** X30. No smoothing at the factor 1.  On doubles, for finite readings,
    [exponentialMovingAverage(data, 1)] returns the readings themselves (as
    numbers: each value is [===] the reading). *)
Theorem exponentialMovingAverage_of_factor_one (data : list float) :
  Forall (fun d => is_finite d = true) data ->
  exists smoothed,
    exponentialMovingAverage data (Some 1) = Returns smoothed /\
    Forall2 (fun r d => (r =? d) = true) smoothed data.
Proof.
  intros F. destruct data as [|d0 data]; [exists []; split; [reflexivity | constructor]|].
  inversion F as [|d' l' F0 Fl]; subst.
  eexists. split; [reflexivity|].
  constructor.
  - rewrite is_finite_spec in F0. rewrite FloatAxioms.eqb_spec. unfold SFeqb.
    destruct (Prim2SF d0) as [s|s| |s m e]; try discriminate.
    + destruct s; reflexivity.
    + rewrite Float64.SFcompare_refl by discriminate. reflexivity.
  - apply ema_from_one; assumption.
Qed.

Lemma exponentialMovingAverage_of_factor_one_witness :
  exists smoothed,
    exponentialMovingAverage [10; 20; 0] (Some 1) = Returns smoothed /\
    Forall2 (fun r d => (r =? d) = true) smoothed [10; 20; 0].
Proof.
  apply (exponentialMovingAverage_of_factor_one [10; 20; 0]).
  repeat constructor.
Defined.

Lemma slice_of_one {A : Type} (l : list A) (i : nat) (d : A) :
  nth_error l i = Some d -> slice l i (S i) = [d].
Proof.
  unfold slice. replace (S i - i)%nat with 1%nat by lia.
  revert i. induction l as [|a l IH]; intros [|i] E; try discriminate.
  - injection E as ->. reflexivity.
  - apply (IH i E).
Qed.

Lemma map_positions {A B : Type} (f : nat -> B) (g : A -> B) (l : list A) (start : nat) :
  (forall i d, nth_error l i = Some d -> f (start + i)%nat = g d) ->
  map f (seq start (length l)) = map g l.
Proof.
  revert start. induction l as [|a l IH]; intros start E; [reflexivity|].
  cbn [length seq map]. f_equal.
  - rewrite <- (E 0%nat a eq_refl). f_equal. lia.
  - apply IH. intros i d Ei. rewrite <- (E (S i) d Ei). f_equal. lia.
Qed.

(** X13. [movingAverage] on doubles: a window below 1 gives an empty array,
    a whole window >= 1 one average per reading, and the window 1 gives the
    readings themselves ([-0] comes back as [+0]). *)
Theorem movingAverage_of_window_one (data : list float) (window : Z) :
  ((window < 1)%Z -> movingAverage data window = []) /\
  ((1 <= window)%Z -> length (movingAverage data window) = length data) /\
  Forall2 (fun r d => Spec.same_value_zero r d = true /\ (d <> (-0) -> r = d))
          (movingAverage data 1) data.
Proof.
  split; [|split].
  - intros Hw. unfold movingAverage.
    destruct (Z.ltb_spec window 1) as [_|?]; [|lia].
    rewrite orb_true_r. reflexivity.
  - intros Hw. unfold movingAverage.
    destruct (Nat.eqb_spec (length data) 0) as [E|_].
    + cbn [orb]. rewrite E. reflexivity.
    + destruct (Z.ltb_spec window 1) as [?|_]; [lia|]. cbn [orb].
      rewrite length_map, length_seq. reflexivity.
  - assert (E : movingAverage data 1 = map (fun d => 0 + d) data).
    { unfold movingAverage.
      destruct (Nat.eqb_spec (length data) 0) as [E|_].
      - cbn [orb]. apply length_zero_iff_nil in E. subst. reflexivity.
      - change (1 <? 1)%Z with false. cbn [orb].
        apply map_positions. intros i d Ei. cbv zeta.
        assert (Hi : (i < length data)%nat) by (apply nth_error_Some; congruence).
        change (1 / 2)%Z with 0%Z. change ((1 + 1) / 2)%Z with 1%Z.
        replace (Z.to_nat (Z.max 0 (Z.of_nat (0 + i) - 0))) with i by lia.
        replace (Z.to_nat (Z.min (Z.of_nat (length data)) (Z.of_nat (0 + i) + 1)))
          with (S i) by lia.
        rewrite (slice_of_one data i d Ei). apply mean_of_one. }
    rewrite E. clear E. induction data as [|d data IH]; [constructor|].
    cbn [map]. constructor; [|exact IH].
    destruct (add_0_l d) as [-> | [-> ->]].
    + split; [apply Float64.same_value_zero_refl | reflexivity].
    + split; [reflexivity | congruence].
Qed.

Lemma movingAverage_of_window_one_witness :
  movingAverage [1; 5; 3] 0 = [] /\
  length (movingAverage [1; 5; 3] 2) = 3%nat /\
  Forall2 (fun r d => Spec.same_value_zero r d = true /\ (d <> (-0) -> r = d))
          (movingAverage [1; 5; 3] 1) [1; 5; 3].
Proof.
  destruct (movingAverage_of_window_one [1; 5; 3] 0) as (A & _ & C).
  destruct (movingAverage_of_window_one [1; 5; 3] 2) as (_ & B & _).
  split; [apply A; lia|]. split; [apply B; lia|]. exact C.
Defined.
End Smoothing.

Section Rates.
Import TimeSeries.
Local Open Scope float_scope.

(** The rate of step i + 1, as the loop computes it. *)
Lemma rateOfChange_at (data : list float) (times : option (list float)) (i : nat) :
  (S i < length data)%nat ->
  nth_error (rateOfChange data times) i =
    Some ((at_index data (S i) - at_index data i) /
          match times with
          | Some t => at_index t (S i) - at_index t i
          | None => 1
          end).
Proof.
  intros Hi. unfold rateOfChange.
  destruct (Nat.ltb_spec (length data) 2) as [?|_]; [lia|].
  rewrite nth_error_map, nth_error_seq.
  destruct (Nat.ltb_spec i (length data - 1)) as [_|?]; [|lia].
  cbn [option_map Nat.add]. replace (S i - 1)%nat with i by lia. reflexivity.
Qed.

Lemma nan_sub_l (x : float) : nan - x = nan.
Proof.
  rewrite <- (SF2Prim_Prim2SF (nan - x)), sub_spec.
  change (Prim2SF nan) with S754_nan. reflexivity.
Qed.

(** X14. [rateOfChange] on doubles.  Fewer than two readings give an empty
    array, two or more one rate per step.  Without times the rate of a step
    is the difference of its two readings itself (the division by 1 changes
    nothing).  With times, a step between two equal times has a rate that is
    NaN or an infinity, and a step whose time is missing (times shorter than
    the readings) has the rate NaN: nothing is thrown. *)
Theorem rateOfChange_differences (data : list float) (times : option (list float)) :
  ((length data < 2)%nat -> rateOfChange data times = []) /\
  ((2 <= length data)%nat ->
   length (rateOfChange data times) = (length data - 1)%nat) /\
  (forall i a b,
      nth_error data i = Some a -> nth_error data (S i) = Some b ->
      nth_error (rateOfChange data None) i = Some (b - a)) /\
  (forall ts i t t',
      (S i < length data)%nat ->
      nth_error ts i = Some t -> nth_error ts (S i) = Some t' -> (t =? t') = true ->
      exists r, nth_error (rateOfChange data (Some ts)) i = Some r /\
                (r = nan \/ r = infinity \/ r = neg_infinity)) /\
  (forall ts i,
      (S i < length data)%nat -> (length ts <= S i)%nat ->
      nth_error (rateOfChange data (Some ts)) i = Some nan).
Proof.
  split; [|split; [|split; [|split]]].
  - intros L. unfold rateOfChange.
    destruct (Nat.ltb_spec (length data) 2) as [_|?]; [reflexivity | lia].
  - intros L. unfold rateOfChange.
    destruct (Nat.ltb_spec (length data) 2) as [?|_]; [lia|].
    rewrite length_map, length_seq. reflexivity.
  - intros i a b Ea Eb.
    assert (Hi : (S i < length data)%nat) by (apply nth_error_Some; congruence).
    rewrite (rateOfChange_at data None i Hi).
    unfold at_index. rewrite Ea, Eb. rewrite div_1_r. reflexivity.
  - intros ts i t t' Hi Et Et' E.
    rewrite (rateOfChange_at data (Some ts) i Hi).
    eexists. split; [reflexivity|].
    assert (Z : at_index ts (S i) - at_index ts i = t' - t)
      by (unfold at_index; rewrite Et, Et'; reflexivity).
    rewrite Z. apply Float64.div_by_zero, Float64.sub_of_equal, E.
  - intros ts i Hi Ht.
    rewrite (rateOfChange_at data (Some ts) i Hi). f_equal.
    assert (N : nth_error ts (S i) = None) by (apply nth_error_None; exact Ht).
    assert (Z : at_index ts (S i) - at_index ts i = nan).
    { unfold at_index at 1. rewrite N. change (@NaN float float64) with nan.
      apply nan_sub_l. }
    rewrite Z. apply div_nan.
Qed.

Lemma rateOfChange_differences_witness :
  rateOfChange [3] None = [] /\
  length (rateOfChange [3; 5; 4; 10] None) = 3%nat /\
  nth_error (rateOfChange [3; 5; 4; 10] None) 2 = Some (10 - 4) /\
  (exists r, nth_error (rateOfChange [3; 5; 4; 10] (Some [0; 1; 1; 2])) 1 = Some r /\
             (r = nan \/ r = infinity \/ r = neg_infinity)) /\
  nth_error (rateOfChange [3; 5; 4; 10] (Some [0; 1])) 1 = Some nan.
Proof.
  destruct (rateOfChange_differences [3] None) as (A & _).
  destruct (rateOfChange_differences [3; 5; 4; 10] None) as (_ & B & C & D & E).
  split; [apply A; cbn; lia|].
  split; [apply B; cbn; lia|].
  split; [apply (C 2%nat 4 10); reflexivity|].
  split.
  - apply (D [0; 1; 1; 2] 1%nat 1 1); try reflexivity. cbn. lia.
  - apply (E [0; 1] 1%nat); cbn; lia.
Defined.
End Rates.

Section DeadTime.
Import TimeSeries.
Local Open Scope float_scope.

Lemma iter_xO_le (m d : positive) : (Z.pos m <= Z.pos (Pos.iter xO m d))%Z.
Proof.
  induction d as [|d IH] using Pos.peano_ind.
  - cbn. lia.
  - rewrite Pos.iter_succ. rewrite Pos2Z.inj_xO. lia.
Qed.

(** One minus a number that is not below one is not above zero. *)
Lemma one_sub_not_positive (p : float) :
  (1 <=? p) = true -> (1 - p <=? 0) = true.
Proof.
  rewrite !FloatAxioms.leb_spec, sub_spec. unfold SFleb.
  change (Prim2SF 0) with (S754_zero false).
  replace (Prim2SF 1) with (S754_finite false 4503599627370496 (-52))
    by (vm_compute; reflexivity).
  pose proof (Prim2SF_valid p) as V.
  destruct (Prim2SF p) as [s|s| |s m e]; try discriminate.
  - destruct s; [discriminate | reflexivity].
  - destruct s; [discriminate|]. intros L.
    assert (A : exists m', (4503599627370496 <= Z.pos m')%Z /\
              SF64sub (S754_finite false 4503599627370496 (-52)) (S754_finite false m e) =
              binary_normalize prec emax (4503599627370496 - Z.pos m') (-52) false).
    { cbn [SFcompare] in L.
      destruct (Z.compare_spec (-52) e) as [E|E|E]; try discriminate.
      - subst e. exists m. split.
        + change (PosDef.Pos.compare_cont Eq 4503599627370496 m)
            with (Pos.compare 4503599627370496 m) in L.
          destruct (Pos.compare_spec 4503599627370496 m) as [P|P|P];
            [subst m; apply Z.le_refl
            | apply Z.lt_le_incl, Pos2Z.pos_lt_pos, P
            | discriminate L].
        + unfold SF64sub, SFsub. rewrite Z.min_id. unfold shl_align.
          rewrite Z.sub_diag. reflexivity.
      - exists (fst (shl_align m e (-52))). split.
        + assert (D : Z.pos (digits2_pos m) = 53%Z).
          { unfold valid_binary, bounded, canonical_mantissa, fexp in V.
            apply andb_prop in V. destruct V as [V _]. apply Z.eqb_eq in V.
            change (SpecFloat.emin prec emax) with (-1074)%Z in V.
            change prec with 53%Z in V. lia. }
          pose proof (Rounding.digits2_bounds m) as B. rewrite D in B.
          change (2 ^ (53 - 1))%Z with 4503599627370496%Z in B.
          unfold shl_align.
          destruct (-52 - e)%Z as [|d|d] eqn:Ed; cbn [fst]; try lia.
          pose proof (iter_xO_le m d). lia.
        + unfold SF64sub, SFsub. rewrite Z.min_l by lia. reflexivity. }
    destruct A as (m' & Hm & ->).
    unfold binary_normalize.
    destruct (4503599627370496 - Z.pos m')%Z as [|q|q] eqn:Eq; [reflexivity | lia |].
    unfold binary_round. destruct (shl_align _ _ _) as [mz ez].
    destruct (binary_round_aux_sign true (Z.pos mz) ez loc_Exact)
      as [-> | [-> | (m2 & e2 & ->)]]; [lia | | |]; reflexivity.
Qed.

Lemma mul_nan_r (x : float) : x * nan = nan.
Proof. rewrite mul_comm. apply nan_mul. Qed.

Lemma sub_nan_r (x : float) : x - nan = nan.
Proof.
  rewrite <- (SF2Prim_Prim2SF (x - nan)), sub_spec.
  change (Prim2SF nan) with S754_nan. destruct (Prim2SF x); reflexivity.
Qed.

(** A finite number times a zero is a zero, and one minus a zero is one. *)
Lemma one_sub_finite_mul_zero (x z : float) :
  is_finite x = true -> (z =? 0) = true -> 1 - x * z = 1.
Proof.
  rewrite is_finite_spec, FloatAxioms.eqb_spec. unfold SFeqb.
  change (Prim2SF 0) with (S754_zero false).
  intros F Z.
  rewrite <- (SF2Prim_Prim2SF (1 - x * z)), <- (SF2Prim_Prim2SF 1) at 1.
  f_equal. rewrite sub_spec, mul_spec.
  replace (Prim2SF 1) with (S754_finite false 4503599627370496 (-52))
    by (vm_compute; reflexivity).
  destruct (Prim2SF x) as [sx|sx| |sx mx ex]; try discriminate;
    destruct (Prim2SF z) as [sz|sz| |sz mz ez]; try discriminate;
    try (destruct sz; discriminate); reflexivity.
Qed.

(** X15. [deadTimeCorrection] on doubles.  It throws whenever the product
    rate * deadTime, as a double, is 1 or more.  A NaN rate or dead time
    passes the guard and gives NaN.  With a dead time of zero a finite rate
    is returned as it is.  For a rate that is not below zero, a corrected
    rate that is returned is not below zero. *)
Theorem deadTimeCorrection_guard (observedRate deadTime : float) :
  ((1 <=? observedRate * deadTime) = true ->
   deadTimeCorrection observedRate deadTime =
     Throws (Error "Dead time correction overflow - rate too high")) /\
  (is_nan observedRate = true \/ is_nan deadTime = true ->
   deadTimeCorrection observedRate deadTime = Returns nan) /\
  (is_finite observedRate = true -> (deadTime =? 0) = true ->
   deadTimeCorrection observedRate deadTime = Returns observedRate) /\
  ((observedRate <? 0) = false ->
   forall corrected,
     deadTimeCorrection observedRate deadTime = Returns corrected ->
     (corrected <? 0) = false).
Proof.
  unfold deadTimeCorrection. cbv zeta. rewrite num_leb_f64.
  change (@num_mul float float64) with PrimFloat.mul.
  change (@num_sub float float64) with PrimFloat.sub.
  change (@num_div float float64) with PrimFloat.div.
  change (@int float float64 1) with 1. change (@int float float64 0) with 0.
  split; [|split; [|split]].
  - intros L. rewrite (one_sub_not_positive _ L). reflexivity.
  - intros [N | N]; rewrite (is_nan_eq _ N).
    + rewrite nan_mul, sub_nan_r. change (nan <=? 0) with false. cbv iota.
      rewrite div_nan. reflexivity.
    + rewrite mul_nan_r, sub_nan_r. change (nan <=? 0) with false. cbv iota.
      rewrite div_nan. reflexivity.
  - intros F Z. rewrite (one_sub_finite_mul_zero _ _ F Z).
    change (1 <=? 0) with false. cbv iota. rewrite div_1_r. reflexivity.
  - intros L corrected.
    destruct (1 - observedRate * deadTime <=? 0) eqn:G; [discriminate|].
    intros E. injection E as <-.
    destruct (is_nan (1 - observedRate * deadTime)) eqn:N.
    + rewrite (is_nan_eq _ N), div_nan. reflexivity.
    + apply div_not_negative; [exact L|].
      destruct (0 <? 1 - observedRate * deadTime) eqn:P; [reflexivity|].
      rewrite (Float64.not_ltb_leb _ 0 N eq_refl P) in G. discriminate.
Qed.

Lemma deadTimeCorrection_guard_witness :
  (exists corrected,
     deadTimeCorrection 1000 0.0009765625 = Returns corrected /\
     (corrected <? 0) = false) /\
  deadTimeCorrection 1024 0.0009765625 =
    Throws (Error "Dead time correction overflow - rate too high") /\
  deadTimeCorrection nan 1 = Returns nan /\
  deadTimeCorrection 1000 0 = Returns 1000.
Proof.
  destruct (deadTimeCorrection_guard 1024 0.0009765625) as (A & _).
  destruct (deadTimeCorrection_guard nan 1) as (_ & B & _).
  destruct (deadTimeCorrection_guard 1000 0) as (_ & _ & C & _).
  destruct (deadTimeCorrection_guard 1000 0.0009765625) as (_ & _ & _ & D).
  split; [eexists; split; [reflexivity | apply D; reflexivity]|].
  split; [apply A; reflexivity|].
  split; [apply B; left; reflexivity|].
  apply C; reflexivity.
Defined.
End DeadTime.

Section HistogramRange.
Import Histogram.
Local Open Scope float_scope.

Lemma nan_div (x : float) : nan / x = nan.
Proof.
  rewrite <- (SF2Prim_Prim2SF (nan / x)), div_spec.
  change (Prim2SF nan) with S754_nan. reflexivity.
Qed.

Lemma removelast_length {A : Type} (l : list A) :
  length (removelast l) = (length l - 1)%nat.
Proof.
  induction l as [|a [|b l] IH]; [reflexivity | reflexivity |].
  change (removelast (a :: b :: l)) with (a :: removelast (b :: l)).
  cbn [length] in *. rewrite IH. lia.
Qed.

Lemma nan_ltb (x : float) : (nan <? x) = false /\ (x <? nan) = false.
Proof.
  rewrite !FloatAxioms.ltb_spec. unfold SFltb. change (Prim2SF nan) with S754_nan.
  split; [reflexivity | destruct (Prim2SF x); reflexivity].
Qed.

(** Readings that are NaN or outside the range leave the counts as they
    were. *)
Lemma counts_out_of_range
    (first : float) (rest : list float) (options_bins : option nat) (lo hi : float) :
  Forall (fun v => is_nan v = true \/ (v <? lo) = true \/ (hi <? v) = true)
         (first :: rest) ->
  counts (create (first :: rest) options_bins (Some lo) (Some hi)) =
    repeat (Some 0)
      match options_bins with
      | Some b => if (b =? 0)%nat then 10%nat else b
      | None => 10%nat
      end.
Proof.
  unfold create. cbv zeta.
  set (bins := match options_bins with
               | Some b => if (b =? 0)%nat then 10%nat else b
               | None => 10%nat
               end).
  cbn [counts].
  change (@num_sub float float64) with PrimFloat.sub.
  change (@num_div float float64) with PrimFloat.div.
  change (@num_ltb float float64) with PrimFloat.ltb.
  change (@int float float64 0) with 0.
  generalize (first :: rest) as data. generalize (repeat (Some 0) bins) as counts0.
  intros counts0 data. revert counts0.
  induction data as [|v data IH]; intros counts0 F; [reflexivity|].
  inversion F as [|v' l' Hv Fl]; subst.
  cbn [fold_left].
  destruct Hv as [N | [L | L]].
  - rewrite (is_nan_eq v N).
    destruct (nan_ltb lo) as [-> _]. destruct (nan_ltb hi) as [_ ->].
    cbn [orb]. rewrite nan_sub_l, nan_div.
    change (Math_floor nan) with (@None Z). cbn [increment]. apply IH, Fl.
  - rewrite L. cbn [orb]. apply IH, Fl.
  - rewrite L, orb_true_r. apply IH, Fl.
Qed.



(** The running sums of counts that are all 0, and their quotients by the
    total 0. *)
Lemma cumulative_of_zero_counts (data : list float) (options_bins : option nat)
    (options_min options_max : option float) (bins : nat) :
  counts (create data options_bins options_min options_max) = repeat (Some 0) bins ->
  counts (histogram (cumulative data options_bins options_min options_max)) =
    repeat (Some 0) bins /\
  normalized (cumulative data options_bins options_min options_max) = repeat nan bins.
Proof.
  intros E. unfold cumulative. cbv zeta. rewrite E.
  change (@int float float64 0) with 0.
  assert (R : running_sums 0 (repeat (Some 0) bins) = (repeat 0 bins, 0)).
  { clear. induction bins as [|n IH]; [reflexivity|].
    cbn [repeat running_sums].
    change (@num_add float float64 0 0) with 0. rewrite IH. reflexivity. }
  rewrite R. cbn [histogram counts normalized].
  split.
  - clear. induction bins as [|n IH]; [reflexivity|]. cbn [repeat map]. f_equal. exact IH.
  - clear. induction bins as [|n IH]; [reflexivity|]. cbn [repeat map]. f_equal. exact IH.
Qed.


End HistogramRange.
